(** * COVID-19 analysis notebook: a shallow embedding of its table pipeline

    The notebook [covid_data_analysis.ipynb] loads four CSV files into
    data frames, cleans two of them, derives a latest-date snapshot and
    two grouped aggregates, and writes four CSV files.  This file embeds
    the data-frame operations those cells use and proves the properties
    the specification states about them.

    Modelling conventions.
    - A data frame is a header (column labels) and a list of rows, each
      row a list of cells aligned with the header.
    - A cell is an integer-valued number, a text, a timestamp, a missing
      value (NaN / NaT) or a floating-point number.  Floating-point
      arithmetic is not interpreted: the type [F] of floats and its
      operations are parameters, so every result holds for IEEE doubles
      as for any other arithmetic.
    - Counts are integers of any size.  pandas holds them in 64 bits;
      the sums the notebook forms stay far below that bound on case
      counts and populations.
    - An exception raised by a cell aborts the run; it is a [Raise]
      result of the error monad below.
    - What the libraries leave open (how texts parse to timestamps, in
      which order a sort with the default algorithm leaves equal keys)
      is a parameter constrained by the documented contract only. *)

From Stdlib Require Import ZArith List String Ascii Bool Lia.
From Stdlib Require Import Permutation Sorted QArith Qround Qabs.
From Stdlib Require Import DecimalString DecimalZ.
Import ListNotations.

Open Scope string_scope.
Open Scope list_scope.
Open Scope Z_scope.

(** ** Exceptions and the error monad *)

Inductive error : Type :=
| KeyError (label : string)
| TypeError
| ValueError
| FileNotFoundError (path : string)
| PermissionError (path : string)
| ParserError.

Inductive result (A : Type) : Type :=
| Ok (a : A)
| Raise (e : error).

Arguments Ok {A} a.
Arguments Raise {A} e.

Definition bind {A B : Type} (m : result A) (k : A -> result B) : result B :=
  match m with
  | Ok a => k a
  | Raise e => Raise e
  end.

Notation "x <- m ;; k" := (bind m (fun x => k))
  (at level 61, m at next level, right associativity).

Fixpoint mapM {A B : Type} (f : A -> result B) (l : list A) : result (list B) :=
  match l with
  | [] => Ok []
  | a :: l' => b <- f a ;; bs <- mapM f l' ;; Ok (b :: bs)
  end.

(** ** Cells, rows and frames *)

Definition timestamp := Z.

Section Cells.

Variable F : Type.

Inductive cell : Type :=
| CInt (z : Z)
| CStr (s : string)
| CDate (d : timestamp)
| CNaN
| CFlt (f : F).

Definition row := list cell.

Record frame : Type := mkFrame { columns : list string; rows : list row }.

(** [get cols r c] is the cell of row [r] under label [c]. *)
Fixpoint get (cols : list string) (r : row) (c : string) : option cell :=
  match cols, r with
  | k :: cols', v :: r' => if String.eqb k c then Some v else get cols' r' c
  | _, _ => None
  end.

Definition has_column (cols : list string) (c : string) : bool :=
  existsb (String.eqb c) cols.

(** A row shorter than the header reads as missing in the columns it
    lacks, as [read_csv] fills it. *)
Definition cell_or_nan (cols : list string) (r : row) (c : string) : cell :=
  match get cols r c with
  | Some v => v
  | None => CNaN
  end.

(** [df[c]]: the series under label [c]; a missing label raises. *)
Definition series (df : frame) (c : string) : result (list cell) :=
  if has_column (columns df) c
  then Ok (map (fun r => cell_or_nan (columns df) r c) (rows df))
  else Raise (KeyError c).

(** [df[mask]]: the rows whose mask entry is true, in order. *)
Fixpoint select_rows (mask : list bool) (rs : list row) : list row :=
  match mask, rs with
  | b :: mask', r :: rs' =>
      if b then r :: select_rows mask' rs' else select_rows mask' rs'
  | _, _ => []
  end.

Definition boolean_index (df : frame) (mask : list bool) : frame :=
  mkFrame (columns df) (select_rows mask (rows df)).

(** [df[[c1, ..., cn]]]: projection onto the listed labels, in the
    listed order; a missing label raises. *)
Definition project_row (cols : list string) (labels : list string) (r : row) : row :=
  map (cell_or_nan cols r) labels.

Definition check_labels (cols labels : list string) : result unit :=
  match find (fun c => negb (has_column cols c)) labels with
  | Some c => Raise (KeyError c)
  | None => Ok tt
  end.

Definition project (df : frame) (labels : list string) : result frame :=
  _ <- check_labels (columns df) labels ;;
  Ok (mkFrame labels (map (project_row (columns df) labels) (rows df))).

(** [df.rename(columns=mapping)]: labels in the mapping are replaced,
    the others and all cells are kept. *)
Fixpoint rename_label (mapping : list (string * string)) (c : string) : string :=
  match mapping with
  | [] => c
  | (old, new) :: mapping' =>
      if String.eqb old c then new else rename_label mapping' c
  end.

Definition rename (df : frame) (mapping : list (string * string)) : frame :=
  mkFrame (map (rename_label mapping) (columns df)) (rows df).

(** [df[c] = values]: overwrite the column [c], or append it when the
    frame has no such label. *)
Fixpoint set_cell (cols : list string) (r : row) (c : string) (v : cell) : row :=
  match cols, r with
  | k :: cols', x :: r' =>
      if String.eqb k c then v :: r' else x :: set_cell cols' r' c v
  | _, _ => r
  end.

Fixpoint zip_rows (f : row -> cell -> row) (rs : list row) (vs : list cell) : list row :=
  match rs, vs with
  | r :: rs', v :: vs' => f r v :: zip_rows f rs' vs'
  | _, _ => []
  end.

Definition assign (df : frame) (c : string) (vs : list cell) : frame :=
  if has_column (columns df) c
  then mkFrame (columns df) (zip_rows (fun r v => set_cell (columns df) r c v) (rows df) vs)
  else mkFrame (columns df ++ [c]) (zip_rows (fun r v => r ++ [v]) (rows df) vs).

End Cells.

Arguments CInt {F} z.
Arguments CStr {F} s.
Arguments CDate {F} d.
Arguments CNaN {F}.
Arguments CFlt {F} f.
Arguments mkFrame {F} columns rows.
Arguments columns {F} f.
Arguments rows {F} f.
Arguments get {F} cols r c.
Arguments cell_or_nan {F} cols r c.
Arguments series {F} df c.
Arguments select_rows {F} mask rs.
Arguments boolean_index {F} df mask.
Arguments project_row {F} cols labels r.
Arguments project {F} df labels.
Arguments rename {F} df mapping.
Arguments set_cell {F} cols r c v.
Arguments zip_rows {F} f rs vs.
Arguments assign {F} df c vs.
Arguments has_column cols c : simpl never.

(** ** What the notebook takes from its libraries

    Floating-point arithmetic ([of_int], [fdiv], [fmul], [fadd], [fle]), the
    parser behind [pd.to_datetime], the texts timestamps and floats are
    written as and the algorithm behind [DataFrame.sort_values] are not
    part of the notebook.  They are
    fields of a [library]; the notebook's cells are defined over any
    library. *)

Record library (F : Type) : Type := mkLibrary {
  of_int : Z -> F;
  fdiv : F -> F -> F;
  fmul : F -> F -> F;
  fadd : F -> F -> F;
  fle : F -> F -> bool;
  parse_date : string -> option timestamp;
  epoch_date : Z -> timestamp;
  epoch_date_f : F -> timestamp;
  format_date : timestamp -> string;
  format_float : F -> string;
  parse_float : string -> option F;
  sort_rows : (row F -> row F -> bool) -> list (row F) -> list (row F)
}.

Arguments of_int {F} l z.
Arguments fdiv {F} l x y.
Arguments fmul {F} l x y.
Arguments fadd {F} l x y.
Arguments fle {F} l x y.
Arguments parse_date {F} l s.
Arguments epoch_date {F} l z.
Arguments epoch_date_f {F} l f.
Arguments format_date {F} l d.
Arguments format_float {F} l f.
Arguments parse_float {F} l s.
Arguments sort_rows {F} l leb rs.

Section Notebook.

Context {F : Type} (L : library F).

(** *** Element-wise operations on series *)

(** [series >= k] for an integer [k]: a missing value compares false,
    a text or a timestamp raises. *)
Definition ge_cell (k : Z) (v : cell F) : result bool :=
  match v with
  | CInt z => Ok (k <=? z)
  | CFlt f => Ok (fle L (of_int L k) f)
  | CNaN => Ok false
  | CStr _ | CDate _ => Raise TypeError
  end.

Definition series_ge (s : list (cell F)) (k : Z) : result (list bool) :=
  mapM (ge_cell k) s.

(** [pd.to_datetime(series)]: texts are parsed (a text that does not
    parse raises), numbers count from the epoch, missing stays missing. *)
Definition to_datetime_cell (v : cell F) : result (cell F) :=
  match v with
  | CStr s => match parse_date L s with
              | Some d => Ok (CDate d)
              | None => Raise ValueError
              end
  | CDate d => Ok (CDate d)
  | CInt z => Ok (CDate (epoch_date L z))
  | CFlt f => Ok (CDate (epoch_date_f L f))
  | CNaN => Ok CNaN
  end.

Definition to_datetime (s : list (cell F)) : result (list (cell F)) :=
  mapM to_datetime_cell s.

(** [series.max()] of a timestamp series: missing values are skipped,
    an empty or all-missing series gives NaT ([None]). *)
Fixpoint series_max (s : list (cell F)) : option timestamp :=
  match s with
  | [] => None
  | CDate d :: s' =>
      match series_max s' with
      | Some m => Some (Z.max d m)
      | None => Some d
      end
  | _ :: s' => series_max s'
  end.

(** [series == latest] against a timestamp or NaT: only an equal
    timestamp compares true. *)
Definition eq_date_cell (latest : option timestamp) (v : cell F) : bool :=
  match v, latest with
  | CDate d, Some m => d =? m
  | _, _ => false
  end.

(** *** Cell 2.2: day_wise_df *)

Definition convert_date_column (df : frame F) : result (frame F) :=
  s <- series df "Date" ;;
  ds <- to_datetime s ;;
  Ok (assign df "Date" ds).

(** *** Cell 2.3: full_grouped_df *)

Definition full_grouped_filtered (full_grouped_df : frame F) : result (frame F) :=
  s <- series full_grouped_df "Confirmed" ;;
  mask <- series_ge s 15 ;;
  Ok (boolean_index full_grouped_df mask).

Definition country_day_columns : list string :=
  ["Date"; "Country/Region"; "Confirmed"; "Deaths"; "Recovered"; "Active";
   "WHO Region"].

Definition full_grouped_relevant (full_grouped_df : frame F) : result (frame F) :=
  filtered <- full_grouped_filtered full_grouped_df ;;
  project filtered country_day_columns.

Definition preprocess_full_grouped (full_grouped_df : frame F) : result (frame F) :=
  dated <- convert_date_column full_grouped_df ;;
  full_grouped_relevant dated.

(** *** Cell 2.4: worldometer_df *)

Definition worldometer_filtered (worldometer_df : frame F) : result (frame F) :=
  s <- series worldometer_df "TotalCases" ;;
  mask <- series_ge s 15 ;;
  Ok (boolean_index worldometer_df mask).

Definition worldometer_source_columns : list string :=
  ["Country/Region"; "Continent"; "TotalCases"; "TotalDeaths"; "TotalRecovered";
   "ActiveCases"; "WHO Region"; "Population"].

Definition worldometer_renaming : list (string * string) :=
  [("TotalCases", "Confirmed"); ("TotalDeaths", "Deaths");
   ("TotalRecovered", "Recovered"); ("ActiveCases", "Active")].

Definition worldometer_relevant (worldometer_df : frame F) : result (frame F) :=
  filtered <- worldometer_filtered worldometer_df ;;
  relevant <- project filtered worldometer_source_columns ;;
  Ok (rename relevant worldometer_renaming).

(** *** Cell 3.2: the latest snapshot and the rankings *)

Definition latest_date (full_grouped_relevant : frame F) : result (option timestamp) :=
  s <- series full_grouped_relevant "Date" ;;
  Ok (series_max s).

Definition latest_data (full_grouped_relevant : frame F) : result (frame F) :=
  latest <- latest_date full_grouped_relevant ;;
  s <- series full_grouped_relevant "Date" ;;
  Ok (boolean_index full_grouped_relevant (map (eq_date_cell latest) s)).

(** The kind of a key cell: [sort_values] orders numbers with numbers,
    texts with texts and timestamps with timestamps; a column that mixes
    kinds raises.  Missing values have no kind and go last. *)
Inductive kind : Type := KNum | KStr | KDate.

Definition kind_of (v : cell F) : option kind :=
  match v with
  | CInt _ | CFlt _ => Some KNum
  | CStr _ => Some KStr
  | CDate _ => Some KDate
  | CNaN => None
  end.

Definition kind_eqb (a b : kind) : bool :=
  match a, b with
  | KNum, KNum | KStr, KStr | KDate, KDate => true
  | _, _ => false
  end.

Fixpoint one_kind (seen : option kind) (s : list (cell F)) : bool :=
  match s with
  | [] => true
  | v :: s' =>
      match kind_of v, seen with
      | None, _ => one_kind seen s'
      | Some k, None => one_kind (Some k) s'
      | Some k, Some k' => kind_eqb k k' && one_kind seen s'
      end
  end.

(** [desc_leb a b]: key [a] may stand before key [b] when the order is
    descending, that is [a >= b], missing values last. *)
Definition desc_leb (a b : cell F) : bool :=
  match a, b with
  | _, CNaN => true
  | CNaN, _ => false
  | CInt x, CInt y => y <=? x
  | CInt x, CFlt g => fle L g (of_int L x)
  | CFlt f, CInt y => fle L (of_int L y) f
  | CFlt f, CFlt g => fle L g f
  | CStr s, CStr t => String.leb t s
  | CDate x, CDate y => y <=? x
  | _, _ => true
  end.

Definition row_desc_leb (cols : list string) (c : string) (r1 r2 : row F) : bool :=
  desc_leb (cell_or_nan cols r1 c) (cell_or_nan cols r2 c).

(** [df.sort_values(c, ascending=False)] with the default algorithm. *)
Definition sort_values_desc (df : frame F) (c : string) : result (frame F) :=
  s <- series df c ;;
  if one_kind None s
  then Ok (mkFrame (columns df) (sort_rows L (row_desc_leb (columns df) c) (rows df)))
  else Raise TypeError.

Definition head (n : nat) (df : frame F) : frame F :=
  mkFrame (columns df) (firstn n (rows df)).

Definition top_countries (latest_data : frame F) : result (frame F) :=
  sorted <- sort_values_desc latest_data "Confirmed" ;;
  Ok (head 15 sorted).

Definition top_deaths (latest_data : frame F) : result (frame F) :=
  sorted <- sort_values_desc latest_data "Deaths" ;;
  Ok (head 15 sorted).

(** *** Mortality rate: [(Deaths / Confirmed) * 100] *)

Definition to_float (v : cell F) : result (option F) :=
  match v with
  | CInt z => Ok (Some (of_int L z))
  | CFlt f => Ok (Some f)
  | CNaN => Ok None
  | CStr _ | CDate _ => Raise TypeError
  end.

Definition div_cell (a b : cell F) : result (option F) :=
  x <- to_float a ;;
  y <- to_float b ;;
  Ok (match x, y with
      | Some x, Some y => Some (fdiv L x y)
      | _, _ => None
      end).

Fixpoint series_div (a b : list (cell F)) : result (list (option F)) :=
  match a, b with
  | x :: a', y :: b' =>
      q <- div_cell x y ;; qs <- series_div a' b' ;; Ok (q :: qs)
  | _, _ => Ok []
  end.

Definition series_times (s : list (option F)) (k : Z) : list (option F) :=
  map (option_map (fun x => fmul L x (of_int L k))) s.

Definition float_cell (o : option F) : cell F :=
  match o with
  | Some f => CFlt f
  | None => CNaN
  end.

Definition ratio_column (df : frame F) (num den : string) (k : Z) : result (list (cell F)) :=
  n <- series df num ;;
  d <- series df den ;;
  q <- series_div n d ;;
  Ok (map float_cell (series_times q k)).

Definition with_mortality_rate (df : frame F) : result (frame F) :=
  rate <- ratio_column df "Deaths" "Confirmed" 100 ;;
  Ok (assign df "Mortality Rate (%)" rate).

Definition mortality_data (latest_data : frame F) : result (frame F) :=
  s <- series latest_data "Confirmed" ;;
  mask <- series_ge s 1000 ;;
  sorted <- sort_values_desc (boolean_index latest_data mask) "Mortality Rate (%)" ;;
  Ok (head 15 sorted).

(** *** Cell 3.4: the five countries with most confirmed cases *)

Definition top_5_countries (latest_data : frame F) : result (list (cell F)) :=
  sorted <- sort_values_desc latest_data "Confirmed" ;;
  series (head 5 sorted) "Country/Region".

(** *** Cells 3.3 and 3.5: [groupby(key).agg('sum').reset_index()]

    Rows are taken in order; each row adds its cells to the running
    totals of its group; a row whose key is missing belongs to no group.
    Groups come out ordered by key.  A running total stays an integer
    while the cells are integers and turns into a float at the first
    float cell; missing cells are skipped.  The notebook groups by text
    columns and sums numeric ones: a key that is no text and a summand
    that is no number raise. *)

Inductive total : Type :=
| TInt (z : Z)
| TFlt (f : F).

Definition add_cell (t : total) (v : cell F) : result total :=
  match v, t with
  | CInt z, TInt a => Ok (TInt (a + z))
  | CInt z, TFlt f => Ok (TFlt (fadd L f (of_int L z)))
  | CFlt g, TInt a => Ok (TFlt (fadd L (of_int L a) g))
  | CFlt g, TFlt f => Ok (TFlt (fadd L f g))
  | CNaN, _ => Ok t
  | _, _ => Raise TypeError
  end.

Definition total_cell (t : total) : cell F :=
  match t with
  | TInt z => CInt z
  | TFlt f => CFlt f
  end.

Fixpoint add_cells (ts : list total) (vs : list (cell F)) : result (list total) :=
  match ts, vs with
  | t :: ts', v :: vs' =>
      t' <- add_cell t v ;; rest <- add_cells ts' vs' ;; Ok (t' :: rest)
  | _, _ => Ok []
  end.

Definition group : Type := string * list total.

Fixpoint upsert (k : string) (vs : list (cell F)) (gs : list group) : result (list group) :=
  match gs with
  | [] =>
      ts <- add_cells (map (fun _ => TInt 0) vs) vs ;;
      Ok [(k, ts)]
  | (k', ts) :: gs' =>
      if String.eqb k' k
      then ts' <- add_cells ts vs ;; Ok ((k', ts') :: gs')
      else gs'' <- upsert k vs gs' ;; Ok ((k', ts) :: gs'')
  end.

Fixpoint accumulate (cols : list string) (key : string) (aggs : list string)
    (rs : list (row F)) (gs : list group) : result (list group) :=
  match rs with
  | [] => Ok gs
  | r :: rs' =>
      match cell_or_nan cols r key with
      | CNaN => accumulate cols key aggs rs' gs
      | CStr k =>
          gs' <- upsert k (map (cell_or_nan cols r) aggs) gs ;;
          accumulate cols key aggs rs' gs'
      | _ => Raise TypeError
      end
  end.

Fixpoint insert_group (g : group) (gs : list group) : list group :=
  match gs with
  | [] => [g]
  | g' :: gs' =>
      if String.leb (fst g) (fst g') then g :: gs else g' :: insert_group g gs'
  end.

Definition sort_groups (gs : list group) : list group :=
  fold_right insert_group [] gs.

Definition group_row (g : group) : row F :=
  CStr (fst g) :: map total_cell (snd g).

Definition groupby_sum (df : frame F) (key : string) (aggs : list string) : result (frame F) :=
  _ <- check_labels (columns df) (key :: aggs) ;;
  gs <- accumulate (columns df) key aggs (rows df) [] ;;
  Ok (mkFrame (key :: aggs) (map group_row (sort_groups gs))).

Definition region_data (latest_data : frame F) : result (frame F) :=
  grouped <- groupby_sum latest_data "WHO Region"
               ["Confirmed"; "Deaths"; "Recovered"; "Active"] ;;
  rate <- ratio_column grouped "Deaths" "Confirmed" 100 ;;
  Ok (assign grouped "Mortality Rate (%)" rate).

Definition continent_data (worldometer_relevant : frame F) : result (frame F) :=
  grouped <- groupby_sum worldometer_relevant "Continent"
               ["Confirmed"; "Deaths"; "Recovered"; "Active"; "Population"] ;;
  cases <- ratio_column grouped "Confirmed" "Population" 1000000 ;;
  let with_cases := assign grouped "Cases per Million" cases in
  deaths <- ratio_column with_cases "Deaths" "Population" 1000000 ;;
  Ok (assign with_cases "Deaths per Million" deaths).

End Notebook.

Arguments total F : clear implicits.
Arguments group F : clear implicits.

(** ** Cell 5: [DataFrame.to_csv(path, index=False)]

    A header record with the column labels, then one record per row;
    fields separated by commas, records ended by a line feed; no index
    column.  A field is quoted when it holds a comma, a quote, a line
    feed or a carriage return, and a quote inside it is doubled; a
    record that consists of one empty field is written as two quotes. *)

Definition dquote : ascii := "034".
Definition line_feed : ascii := "010".
Definition carriage_return : ascii := "013".

Definition is_special (a : ascii) : bool :=
  Ascii.eqb a "," || Ascii.eqb a dquote || Ascii.eqb a line_feed
  || Ascii.eqb a carriage_return.

Fixpoint has_special (s : string) : bool :=
  match s with
  | EmptyString => false
  | String a s' => is_special a || has_special s'
  end.

Fixpoint double_quotes (s : string) : string :=
  match s with
  | EmptyString => EmptyString
  | String a s' =>
      if Ascii.eqb a dquote
      then String dquote (String dquote (double_quotes s'))
      else String a (double_quotes s')
  end.

Definition quote_field (s : string) : string :=
  if has_special s
  then String dquote (double_quotes s ++ String dquote EmptyString)%string
  else s.

Fixpoint join_fields (fields : list string) : string :=
  match fields with
  | [] => EmptyString
  | [f] => f
  | f :: fields' => (f ++ String "," (join_fields fields'))%string
  end.

Definition render_record (fields : list string) : string :=
  match fields with
  | [f] =>
      match f with
      | EmptyString => String dquote (String dquote (String line_feed EmptyString))
      | _ => (quote_field f ++ String line_feed EmptyString)%string
      end
  | _ => (join_fields (map quote_field fields) ++ String line_feed EmptyString)%string
  end.

Fixpoint render_records (records : list (list string)) : string :=
  match records with
  | [] => EmptyString
  | record :: records' => (render_record record ++ render_records records')%string
  end.

Definition string_of_Z (z : Z) : string :=
  NilZero.string_of_int (Z.to_int z).

Section Writer.

Context {F : Type} (L : library F).

Definition format_cell (v : cell F) : string :=
  match v with
  | CInt z => string_of_Z z
  | CStr s => s
  | CDate d => format_date L d
  | CNaN => EmptyString
  | CFlt f => format_float L f
  end.

Definition to_csv (df : frame F) : string :=
  render_records (columns df :: map (map format_cell) (rows df)).

End Writer.

(** ** Reloading a written file

    Modelled from the spec: the reload of a processed CSV file.  The
    notebook only writes the four files; the dashboard that reads them
    back is not among the sources.  The specification has the files
    read as CSV, comma-separated, with a header row, into tables with
    columns and types as read.  The reader below is pandas'
    [read_csv] with its defaults, as documented: records end at a line
    feed, a carriage return or both; fields are separated by commas; a
    field may be quoted, a doubled quote inside standing for one quote;
    empty lines and lines of blanks only are skipped; the first record
    is the header; a record shorter than the header is filled with
    missing values and a longer one is an error.  A column whose
    fields all read as integers holds integers, one whose fields all
    read as numbers holds numbers, any other column holds its fields
    as texts; a field that spells a missing value is missing. *)

Inductive tstate : Type :=
| StartRecord | WhitespaceLine | StartField | InField | InQuoted
| QuoteInQuoted | EatCRNL.

Inductive effect : Type :=
| Push | Skip | Discard | EndField | EndLine.

Definition is_blank (c : ascii) : bool :=
  Ascii.eqb c " " || Ascii.eqb c "009".

Definition in_field (c : ascii) : tstate * effect :=
  if Ascii.eqb c line_feed then (StartRecord, EndLine)
  else if Ascii.eqb c carriage_return then (EatCRNL, EndLine)
  else if Ascii.eqb c "," then (StartField, EndField)
  else (InField, Push).

Definition start_field (c : ascii) : tstate * effect :=
  if Ascii.eqb c dquote then (InQuoted, Skip) else in_field c.

Definition start_record (c : ascii) : tstate * effect :=
  if Ascii.eqb c line_feed then (StartRecord, Skip)
  else if Ascii.eqb c carriage_return then (EatCRNL, Skip)
  else if is_blank c then (WhitespaceLine, Push)
  else start_field c.

Definition step (st : tstate) (c : ascii) : tstate * effect :=
  match st with
  | StartRecord => start_record c
  | WhitespaceLine =>
      if Ascii.eqb c line_feed then (StartRecord, Discard)
      else if Ascii.eqb c carriage_return then (EatCRNL, Discard)
      else if is_blank c then (WhitespaceLine, Push)
      else in_field c
  | StartField => start_field c
  | InField => in_field c
  | InQuoted =>
      if Ascii.eqb c dquote then (QuoteInQuoted, Skip) else (InQuoted, Push)
  | QuoteInQuoted =>
      if Ascii.eqb c dquote then (InQuoted, Push) else in_field c
  | EatCRNL =>
      if Ascii.eqb c line_feed then (StartRecord, Skip) else start_record c
  end.

Definition push_char (field : string) (c : ascii) : string :=
  (field ++ String c EmptyString)%string.

Fixpoint tokenize (st : tstate) (field : string) (record : list string)
    (s : string) : result (list (list string)) :=
  match s with
  | EmptyString =>
      match st with
      | StartRecord | WhitespaceLine | EatCRNL => Ok []
      | InQuoted => Raise ParserError
      | StartField | InField | QuoteInQuoted => Ok [record ++ [field]]
      end
  | String c s' =>
      match step st c with
      | (st', Push) => tokenize st' (push_char field c) record s'
      | (st', Skip) => tokenize st' field record s'
      | (st', Discard) => tokenize st' EmptyString record s'
      | (st', EndField) => tokenize st' EmptyString (record ++ [field]) s'
      | (st', EndLine) =>
          rest <- tokenize st' EmptyString [] s' ;;
          Ok ((record ++ [field]) :: rest)
      end
  end.

(** What follows a field: a comma starts the next field, a line feed
    ends the record. *)
Definition after_field (d : ascii) (cur : string) (rec : list string) (rest : string)
    : result (list (list string)) :=
  if Ascii.eqb d ","
  then tokenize StartField "" (rec ++ [cur]) rest
  else rest' <- tokenize StartRecord "" [] rest ;; Ok ((rec ++ [cur]) :: rest').

Definition read_records (text : string) : result (list (list string)) :=
  tokenize StartRecord EmptyString [] text.

(** The spellings of a missing value. *)
Definition na_values : list string :=
  [""; "#N/A"; "#N/A N/A"; "#NA"; "-1.#IND"; "-1.#QNAN"; "-NaN"; "-nan";
   "1.#IND"; "1.#QNAN"; "<NA>"; "N/A"; "NA"; "NULL"; "NaN"; "None"; "n/a";
   "nan"; "null"].

Definition is_na (s : string) : bool :=
  existsb (String.eqb s) na_values.

Fixpoint all_chars (p : ascii -> bool) (s : string) : bool :=
  match s with
  | EmptyString => true
  | String c s' => p c && all_chars p s'
  end.

Definition digit_or_minus (c : ascii) : bool :=
  ((48 <=? nat_of_ascii c)%nat && (nat_of_ascii c <=? 57)%nat) || Ascii.eqb c "-".

Definition parse_Z (s : string) : option Z :=
  option_map Z.of_int (NilZero.int_of_string s).

(** An integer field: blanks around it are ignored, a sign may
    precede the digits. *)
Definition is_space (c : ascii) : bool :=
  is_blank c || Ascii.eqb c line_feed || Ascii.eqb c carriage_return
  || Ascii.eqb c "011" || Ascii.eqb c "012".

Fixpoint trim_left (s : string) : string :=
  match s with
  | EmptyString => EmptyString
  | String c s' => if is_space c then trim_left s' else s
  end.

Fixpoint trim_right (s : string) : string :=
  match s with
  | EmptyString => EmptyString
  | String c s' =>
      match trim_right s' with
      | EmptyString => if is_space c then EmptyString else String c EmptyString
      | t => String c t
      end
  end.

Definition parse_integer (s : string) : option Z :=
  match trim_right (trim_left s) with
  | EmptyString => None
  | String c digits =>
      if Ascii.eqb c "+"
      then option_map (fun d => Z.of_int (Decimal.Pos d))
             (NilZero.uint_of_string digits)
      else parse_Z (String c digits)
  end.

Inductive column_type : Type := IntColumn | NumberColumn | TextColumn.

Section Reader.

Context {F : Type} (L : library F).

Definition reads_as_integer (s : string) : bool :=
  match parse_integer s with
  | Some _ => true
  | None => false
  end.

Definition reads_as_number (s : string) : bool :=
  reads_as_integer s
  || match parse_float L s with
     | Some _ => true
     | None => false
     end.

Definition infer (fields : list string) : column_type :=
  if forallb (fun s => is_na s || reads_as_integer s) fields then IntColumn
  else if forallb (fun s => is_na s || reads_as_number s) fields then NumberColumn
  else TextColumn.

Definition convert (t : column_type) (s : string) : cell F :=
  if is_na s then CNaN
  else
    match t with
    | TextColumn => CStr s
    | IntColumn | NumberColumn =>
        match parse_integer s, parse_float L s with
        | Some z, _ => CInt z
        | None, Some f => CFlt f
        | None, None => CStr s
        end
    end.

Definition column_fields (j : nat) (records : list (list string)) : list string :=
  map (fun record => nth j record EmptyString) records.

Definition typed_row (n : nat) (records : list (list string)) (record : list string)
    : row F :=
  map (fun j => convert (infer (column_fields j records)) (nth j record EmptyString))
    (seq 0 n).

Definition read_csv_text (text : string) : result (frame F) :=
  records <- read_records text ;;
  match records with
  | [] => Raise ParserError
  | header :: data =>
      if forallb (fun record => (List.length record <=? List.length header)%nat) data
      then Ok (mkFrame header (map (typed_row (List.length header) data) data))
      else Raise ParserError
  end.

End Reader.

(** ** The run of the notebook over a file system

    A path holds a readable text, an unreadable file, or nothing.  The
    cells run in order; an exception ends the run and leaves the file
    system as it is at that moment. *)

Inductive file : Type :=
| Readable (text : string)
| Unreadable.

Definition filesystem : Type := string -> option file.

Definition write_file (fs : filesystem) (path text : string) : filesystem :=
  fun p => if String.eqb p path then Some (Readable text) else fs p.

Definition io (A : Type) : Type := filesystem -> result A * filesystem.

Definition io_bind {A B : Type} (m : io A) (k : A -> io B) : io B :=
  fun fs =>
    match m fs with
    | (Ok a, fs') => k a fs'
    | (Raise e, fs') => (Raise e, fs')
    end.

Definition io_lift {A : Type} (r : result A) : io A := fun fs => (r, fs).

Notation "x <~ m ;; k" := (io_bind m (fun x => k))
  (at level 61, m at next level, right associativity).

Section Run.

Context {F : Type} (L : library F).

(** [pd.read_csv(path)]: the parser is the library's; it is given as
    [reader]. *)
Variable reader : string -> result (frame F).

Definition read_csv (path : string) : io (frame F) :=
  fun fs =>
    match fs path with
    | None => (Raise (FileNotFoundError path), fs)
    | Some Unreadable => (Raise (PermissionError path), fs)
    | Some (Readable text) => (reader text, fs)
    end.

Definition save_csv (df : frame F) (path : string) : io unit :=
  fun fs => (Ok tt, write_file fs path (to_csv L df)).

Record loaded : Type := mkLoaded {
  day_wise_df : frame F;
  full_grouped_df : frame F;
  usa_county_wise_df : frame F;
  worldometer_df : frame F
}.

Record processed : Type := mkProcessed {
  processed_day_wise : frame F;
  processed_country_wise : frame F;
  processed_worldometer : frame F;
  latest_covid_data : frame F
}.

Definition input_paths : list string :=
  ["attached_assets/day_wise.csv"; "attached_assets/full_grouped.csv";
   "attached_assets/usa_county_wise.csv"; "attached_assets/worldometer_data.csv"].

Definition output_paths : list string :=
  ["processed_day_wise.csv"; "processed_country_wise.csv";
   "processed_worldometer.csv"; "latest_covid_data.csv"].

(** [unavailable fs path]: the file is missing, cannot be opened, or
    does not parse. *)
Definition unavailable (fs : filesystem) (path : string) : Prop :=
  match fs path with
  | None | Some Unreadable => True
  | Some (Readable text) => exists e, reader text = Raise e
  end.

(** Cell 1. *)
Definition load : io loaded :=
  day_wise <~ read_csv "attached_assets/day_wise.csv" ;;
  full_grouped <~ read_csv "attached_assets/full_grouped.csv" ;;
  usa_county_wise <~ read_csv "attached_assets/usa_county_wise.csv" ;;
  worldometer <~ read_csv "attached_assets/worldometer_data.csv" ;;
  io_lift (Ok (mkLoaded day_wise full_grouped usa_county_wise worldometer)).

(** The columns the charts of cell 3.1 read from [day_wise_df]. *)
Definition global_trend_columns : list string :=
  ["Date"; "Confirmed"; "Deaths"; "Recovered"; "Active";
   "New cases"; "New deaths"; "New recovered"].

Definition highest_cases (latest_data : frame F) : result (frame F) :=
  sorted <- sort_values_desc L latest_data "Confirmed" ;;
  project (head 10 sorted)
    ["Country/Region"; "Confirmed"; "Deaths"; "Recovered"; "Active"].

(** Cells 2 to 4: everything computed between loading and saving, in
    the order of the cells.  The charts only read columns. *)
Definition analyse (input : loaded) : result processed :=
  day_wise <- convert_date_column L (day_wise_df input) ;;
  relevant <- preprocess_full_grouped L (full_grouped_df input) ;;
  worldometer <- worldometer_relevant L (worldometer_df input) ;;
  _ <- mapM (series day_wise) global_trend_columns ;;
  latest <- latest_data relevant ;;
  _ <- top_countries L latest ;;
  _ <- top_deaths L latest ;;
  latest <- with_mortality_rate L latest ;;
  _ <- mortality_data L latest ;;
  regions <- region_data L latest ;;
  _ <- sort_values_desc L regions "Confirmed" ;;
  _ <- top_5_countries L latest ;;
  continents <- continent_data L worldometer ;;
  _ <- sort_values_desc L continents "Confirmed" ;;
  _ <- highest_cases latest ;;
  Ok (mkProcessed day_wise relevant worldometer latest).

(** Cell 5. *)
Definition save (out : processed) : io unit :=
  _ <~ save_csv (processed_day_wise out) "processed_day_wise.csv" ;;
  _ <~ save_csv (processed_country_wise out) "processed_country_wise.csv" ;;
  _ <~ save_csv (processed_worldometer out) "processed_worldometer.csv" ;;
  save_csv (latest_covid_data out) "latest_covid_data.csv".

Definition notebook : io unit :=
  input <~ load ;;
  out <~ io_lift (analyse input) ;;
  save out.

End Run.

(** ** Reading the results: what the properties speak about *)

Section Reading.

Context {F : Type} (L : library F).

(** [at_least k v]: the cell holds a number that is at least [k]. *)
Definition at_least (k : Z) (v : cell F) : Prop :=
  match v with
  | CInt z => k <= z
  | CFlt f => fle L (of_int L k) f = true
  | _ => False
  end.

(** [meets_threshold cols c k r]: row [r] holds under [c] a number that
    is at least [k]. *)
Definition meets_threshold (cols : list string) (c : string) (k : Z) (r : row F) : bool :=
  match cell_or_nan cols r c with
  | CInt z => k <=? z
  | CFlt f => fle L (of_int L k) f
  | _ => false
  end.

(** [number_or_missing v]: the comparison [v >= k] does not raise. *)
Definition number_or_missing (v : cell F) : bool :=
  match v with
  | CStr _ | CDate _ => false
  | _ => true
  end.

(** [in_group cols key k r]: row [r] has the text [k] under [key]. *)
Definition in_group (cols : list string) (key k : string) (r : row F) : bool :=
  match cell_or_nan cols r key with
  | CStr s => String.eqb s k
  | _ => false
  end.

(** [integer_cells cols c rs]: under [c] the rows hold integers or
    nothing. *)
Definition integer_cells (cols : list string) (c : string) (rs : list (row F)) : bool :=
  forallb (fun r => match cell_or_nan cols r c with
                    | CInt _ | CNaN => true
                    | _ => false
                    end) rs.

(** [int_value v]: the integer a cell adds to an integer total. *)
Definition int_value (v : cell F) : Z :=
  match v with
  | CInt z => z
  | _ => 0
  end.

(** [int_sum cols c rs]: the sum of the integers the rows hold under
    [c], missing cells skipped. *)
Definition int_sum (cols : list string) (c : string) (rs : list (row F)) : Z :=
  fold_right Z.add 0 (map (fun r => int_value (cell_or_nan cols r c)) rs).

(** [lookup_group k gs]: the running totals of group [k]. *)
Fixpoint lookup_group (k : string) (gs : list (group F)) : option (list (total F)) :=
  match gs with
  | [] => None
  | (k', ts) :: gs' => if String.eqb k' k then Some ts else lookup_group k gs'
  end.

(** [sum_rows cols aggs ts rs]: the totals [ts] after the rows [rs]
    have added their cells under [aggs], one row after the other. *)
Fixpoint sum_rows (cols aggs : list string) (ts : list (total F))
    (rs : list (row F)) : result (list (total F)) :=
  match rs with
  | [] => Ok ts
  | r :: rs' =>
      ts' <- add_cells L ts (map (cell_or_nan cols r) aggs) ;;
      sum_rows cols aggs ts' rs'
  end.

Definition start_totals {A : Type} (n : list A) (o : option (list (total F))) : list (total F) :=
  match o with
  | Some ts => ts
  | None => map (fun _ => TInt 0) n
  end.

(** What [accumulate] leaves under a key: nothing when the key had no
    totals and no row carries it; otherwise the earlier totals (or
    zeros) after the rows of the group have been added in order. *)
Definition expected_totals (cols aggs : list string) (o : option (list (total F)))
    (members : list (row F)) : result (option (list (total F))) :=
  match o, members with
  | None, [] => Ok None
  | _, _ =>
      ts <- sum_rows cols aggs (start_totals aggs o) members ;;
      Ok (Some ts)
  end.

(** [ratio_cell k a b]: the cell [(a / b) * k] of two numeric cells,
    missing when one of them is. *)
Definition ratio_cell (k : Z) (a b : cell F) : cell F :=
  match to_float L a, to_float L b with
  | Ok (Some x), Ok (Some y) => CFlt (fmul L (fdiv L x y) (of_int L k))
  | _, _ => CNaN
  end.

(** [rated cols k r]: row [r] holds an integer Confirmed count of at least
    [k], and its Mortality Rate (%) is the ratio of its Deaths to that
    count, times 100. *)
Definition rated (cols : list string) (k : Z) (r : row F) : Prop :=
  exists z,
    cell_or_nan cols r "Confirmed" = CInt z /\ k <= z /\
    cell_or_nan cols r "Mortality Rate (%)"
    = ratio_cell 100 (cell_or_nan cols r "Deaths") (CInt z).

(** [within_tolerance dist tol v x]: the cell [v] holds a float at
    distance at most [tol] from [x]. *)
Definition within_tolerance (dist : F -> F -> Q) (tol : Q) (v : cell F) (x : F) : Prop :=
  exists y, v = CFlt y /\ (dist y x <= tol)%Q.

(** [ratio k a b]: the float [(a / b) * k] of two integers. *)
Definition ratio (k a b : Z) : cell F :=
  CFlt (fmul L (fdiv L (of_int L a) (of_int L b)) (of_int L k)).

(** [date_parsed cols r r']: row [r'] is row [r] with its Date parsed
    by [pd.to_datetime] and every other cell as it was. *)
Definition date_parsed (cols : list string) (r r' : row F) : Prop :=
  List.length r' = List.length r /\
  to_datetime_cell L (cell_or_nan cols r "Date") = Ok (cell_or_nan cols r' "Date") /\
  forall c, c <> "Date" -> cell_or_nan cols r' c = cell_or_nan cols r c.

(** [reloaded df]: the table with every date replaced by the text it
    is written as. *)
Definition reloaded_cell (v : cell F) : cell F :=
  match v with
  | CDate d => CStr (format_date L d)
  | _ => v
  end.

Definition reloaded (df : frame F) : frame F :=
  mkFrame (columns df) (map (map reloaded_cell) (rows df)).

(** Columns that come back as they are: columns of integers, and
    columns of texts and dates of which at least one does not read as a
    number; no text spells a missing value.  Missing cells are allowed
    in both. *)
Definition integer_or_missing (v : cell F) : bool :=
  match v with
  | CInt _ | CNaN => true
  | _ => false
  end.

Definition text_of (v : cell F) : option string :=
  match v with
  | CStr s => Some s
  | CDate d => Some (format_date L d)
  | _ => None
  end.

Definition text_or_missing (v : cell F) : bool :=
  match v with
  | CNaN => true
  | _ => match text_of v with
         | Some s => negb (is_na s)
         | None => false
         end
  end.

Definition plain_text (v : cell F) : bool :=
  match text_of v with
  | Some s => negb (is_na s) && negb (reads_as_number L s)
  | None => false
  end.

Definition column_reloads (cells : list (cell F)) : bool :=
  forallb integer_or_missing cells
  || (forallb text_or_missing cells && existsb plain_text cells).

Definition column_cells (j : nat) (rs : list (row F)) : list (cell F) :=
  map (fun r => nth j r CNaN) rs.

Definition reloads (df : frame F) : bool :=
  forallb (fun j => column_reloads (column_cells j (rows df)))
    (seq 0 (List.length (columns df))).

(** [has_date cols d r]: row [r] is dated [d]. *)
Definition has_date (cols : list string) (d : timestamp) (r : row F) : bool :=
  match cell_or_nan cols r "Date" with
  | CDate d' => d' =? d
  | _ => false
  end.

(** [maximum_date df m]: [m] is the latest date of the frame: some row
    is dated [m] and no row is dated later. *)
Definition maximum_date (df : frame F) (m : timestamp) : Prop :=
  (exists r, In r (rows df) /\ cell_or_nan (columns df) r "Date" = CDate m) /\
  (forall r d, In r (rows df) -> cell_or_nan (columns df) r "Date" = CDate d -> d <= m).

End Reading.

Arguments number_or_missing {F} v.
Arguments within_tolerance {F} dist tol v x.
Arguments in_group {F} cols key k r.
Arguments integer_cells {F} cols c rs.
Arguments int_sum {F} cols c rs.
Arguments int_value {F} v.
Arguments has_date {F} cols d r.
Arguments maximum_date {F} df m.

(** ** The stable descending sort the specification refers to

    Insertion from the right end: a row is put before the first row it
    may stand before, so rows of equal key keep their source order. *)

Section StableSort.

Context {A : Type} (leb : A -> A -> bool).

Fixpoint insert_sorted (x : A) (l : list A) : list A :=
  match l with
  | [] => [x]
  | y :: l' => if leb x y then x :: l else y :: insert_sorted x l'
  end.

Definition stable_sort (l : list A) : list A :=
  fold_right insert_sorted [] l.

End StableSort.

(** [sort_contract L]: what [sort_values] promises whatever algorithm
    it runs: the rows come back rearranged, and in order whenever the
    comparison decides every pair of them. *)
Definition sort_contract {F : Type} (L : library F) : Prop :=
  forall (leb : row F -> row F -> bool) (l : list (row F)),
    Permutation (sort_rows L leb l) l /\
    ((forall a b, In a l -> In b l -> leb a b = true \/ leb b a = true) ->
     Sorted (fun a b => leb a b = true) (sort_rows L leb l)).

(** [distinct_integer_keys cols c rs]: under [c] the rows hold
    integers, no two of them the same. *)
Definition distinct_integer_keys {F : Type} (cols : list string) (c : string)
    (rs : list (row F)) : Prop :=
  Forall (fun r => exists z, cell_or_nan cols r c = CInt z) rs /\
  NoDup (map (fun r => int_value (cell_or_nan cols r c)) rs).

(** [ranked L cols c n src out]: [out] holds the first [n] rows of an
    arrangement of [src] that descends by the key [c] (whenever the
    keys of [src] compare); it is the start of the stable descending
    sort when the keys are integers without repetition. *)
Definition ranked {F : Type} (L : library F) (cols : list string) (c : string)
    (n : nat) (src out : list (row F)) : Prop :=
  exists sorted : list (row F),
    out = firstn n sorted /\
    Permutation sorted src /\
    ((forall a b, In a src -> In b src ->
        row_desc_leb L cols c a b = true \/ row_desc_leb L cols c b a = true) ->
     Sorted (fun a b => row_desc_leb L cols c a b = true) sorted) /\
    (distinct_integer_keys cols c src ->
     out = firstn n (stable_sort (row_desc_leb L cols c) src)).

(** ** Two libraries to run the notebook on

    [exact_library] computes with rationals, reads ISO dates
    (YYYY-MM-DD) and month/day/year dates as days since 1970-01-01,
    writes dates in ISO form and sorts stably.
    [reversing_library] differs in the sort only: it sorts ascending,
    stably, and reverses, which leaves equal keys in reverse source
    order. *)

Definition digit_of (a : ascii) : option Z :=
  let n := Z.of_nat (nat_of_ascii a) in
  if (48 <=? n) && (n <=? 57) then Some (n - 48) else None.

Fixpoint digits_value (acc : Z) (s : string) : option Z :=
  match s with
  | EmptyString => Some acc
  | String a s' =>
      match digit_of a with
      | Some d => digits_value (10 * acc + d) s'
      | None => None
      end
  end.

Definition days_from_civil (y m d : Z) : Z :=
  let y' := if m <=? 2 then y - 1 else y in
  let era := y' / 400 in
  let yoe := y' - era * 400 in
  let mp := if 2 <? m then m - 3 else m + 9 in
  let doy := (153 * mp + 2) / 5 + d - 1 in
  let doe := yoe * 365 + yoe / 4 - yoe / 100 + doy in
  era * 146097 + doe - 719468.

Definition parse_iso_date (s : string) : option timestamp :=
  if (String.length s =? 10)%nat
     && String.eqb (substring 4 1 s) "-" && String.eqb (substring 7 1 s) "-"
  then
    match digits_value 0 (substring 0 4 s), digits_value 0 (substring 5 2 s),
          digits_value 0 (substring 8 2 s) with
    | Some y, Some m, Some d =>
        if (1 <=? m) && (m <=? 12) && (1 <=? d) && (d <=? 31)
        then Some (days_from_civil y m d)
        else None
    | _, _, _ => None
    end
  else None.

(** Days since 1970-01-01 back to year, month and day. *)
Definition civil_from_days (z : Z) : Z * Z * Z :=
  let z := z + 719468 in
  let era := z / 146097 in
  let doe := z - era * 146097 in
  let yoe := (doe - doe / 1460 + doe / 36524 - doe / 146096) / 365 in
  let doy := doe - (365 * yoe + yoe / 4 - yoe / 100) in
  let mp := (5 * doy + 2) / 153 in
  let d := doy - (153 * mp + 2) / 5 + 1 in
  let m := if mp <? 10 then mp + 3 else mp - 9 in
  let y := yoe + era * 400 + (if m <=? 2 then 1 else 0) in
  (y, m, d).

Definition two_digits (n : Z) : string :=
  if n <? 10 then ("0" ++ string_of_Z n)%string else string_of_Z n.

Definition four_digits (n : Z) : string :=
  if n <? 10 then ("000" ++ string_of_Z n)%string
  else if n <? 100 then ("00" ++ string_of_Z n)%string
  else if n <? 1000 then ("0" ++ string_of_Z n)%string
  else string_of_Z n.

Definition format_iso_date (d : timestamp) : string :=
  let '(y, m, d) := civil_from_days d in
  (four_digits y ++ "-" ++ two_digits m ++ "-" ++ two_digits d)%string.

(** Month/day/two-digit-year dates such as 1/22/20, read as pandas
    reads them: month first, the year in the 2000s. *)
Fixpoint split_at (sep : ascii) (s : string) : list string :=
  match s with
  | EmptyString => [EmptyString]
  | String a s' =>
      if Ascii.eqb a sep then EmptyString :: split_at sep s'
      else match split_at sep s' with
           | [] => [String a EmptyString]
           | f :: fs => String a f :: fs
           end
  end.

Definition nonempty_digits (s : string) : option Z :=
  match s with
  | EmptyString => None
  | _ => digits_value 0 s
  end.

Definition parse_us_date (s : string) : option timestamp :=
  match split_at "/" s with
  | [ms; ds; ys] =>
      match nonempty_digits ms, nonempty_digits ds, nonempty_digits ys with
      | Some m, Some d, Some y =>
          if (1 <=? m) && (m <=? 12) && (1 <=? d) && (d <=? 31) && (y <? 100)
          then Some (days_from_civil (2000 + y) m d)
          else None
      | _, _, _ => None
      end
  | _ => None
  end.

Definition parse_date_text (s : string) : option timestamp :=
  match parse_iso_date s with
  | Some d => Some d
  | None => parse_us_date s
  end.

(** Rationals are written numerator/denominator. *)
Definition format_ratio (q : Q) : string :=
  (string_of_Z (Qnum q) ++ "/" ++ string_of_Z (Zpos (Qden q)))%string.

Definition parse_ratio (s : string) : option Q :=
  match split_at "/" s with
  | [ns; ds] =>
      match parse_Z ns, parse_Z ds with
      | Some n, Some (Zpos d) => Some (Qmake n d)
      | _, _ => None
      end
  | _ => None
  end.

Definition exact_library : library Q :=
  mkLibrary Q inject_Z Qdiv Qmult Qplus Qle_bool parse_date_text
    (fun z => z) Qfloor format_iso_date format_ratio parse_ratio
    (fun leb l => stable_sort leb l).

Definition reversing_library : library Q :=
  mkLibrary Q inject_Z Qdiv Qmult Qplus Qle_bool parse_date_text
    (fun z => z) Qfloor format_iso_date format_ratio parse_ratio
    (fun leb l => rev (stable_sort (fun a b => leb b a) l)).

(** ** The scenarios of the specification *)

Definition scenario_country_day {F : Type} : frame F :=
  mkFrame country_day_columns
    [ [CStr "2020-01-22"; CStr "China"; CInt 20; CInt 1; CInt 0; CInt 19;
       CStr "Western Pacific"];
      [CStr "2020-01-22"; CStr "US"; CInt 10; CInt 0; CInt 0; CInt 10;
       CStr "Americas"] ].

Definition scenario_country_snapshot {F : Type} : frame F :=
  mkFrame
    ["Country/Region"; "TotalCases"; "TotalDeaths"; "TotalRecovered";
     "ActiveCases"; "Population"; "Continent"; "WHO Region"]
    [ [CStr "X"; CInt 100; CInt 5; CInt 90; CInt 5; CInt 1000000; CNaN; CNaN] ].

Definition scenario_ranking {F : Type} : frame F :=
  mkFrame ["Country/Region"; "Confirmed"]
    [ [CStr "A"; CInt 50]; [CStr "B"; CInt 200]; [CStr "C"; CInt 10];
      [CStr "D"; CInt 150]; [CStr "E"; CInt 30]; [CStr "F"; CInt 5] ].

(** Eighteen countries with the same confirmed count. *)
Definition tied_ranking {F : Type} : frame F :=
  mkFrame ["Country/Region"; "Confirmed"]
    [ [CStr "R01"; CInt 100];
      [CStr "R02"; CInt 100];
      [CStr "R03"; CInt 100];
      [CStr "R04"; CInt 100];
      [CStr "R05"; CInt 100];
      [CStr "R06"; CInt 100];
      [CStr "R07"; CInt 100];
      [CStr "R08"; CInt 100];
      [CStr "R09"; CInt 100];
      [CStr "R10"; CInt 100];
      [CStr "R11"; CInt 100];
      [CStr "R12"; CInt 100];
      [CStr "R13"; CInt 100];
      [CStr "R14"; CInt 100];
      [CStr "R15"; CInt 100];
      [CStr "R16"; CInt 100];
      [CStr "R17"; CInt 100];
      [CStr "R18"; CInt 100] ].

(** ** Example tables *)

Definition example_full_grouped {F : Type} : frame F :=
  mkFrame
    ["Date"; "Country/Region"; "Confirmed"; "Deaths"; "Recovered"; "Active";
     "New cases"; "New deaths"; "New recovered"; "WHO Region"]
    [ [CStr "2020-01-22"; CStr "China"; CInt 548; CInt 17; CInt 28; CInt 503;
       CInt 0; CInt 0; CInt 0; CStr "Western Pacific"];
      [CStr "2020-01-22"; CStr "US"; CInt 1; CInt 0; CInt 0; CInt 1;
       CInt 0; CInt 0; CInt 0; CStr "Americas"];
      [CStr "2020-01-23"; CStr "China"; CInt 643; CInt 18; CInt 30; CInt 595;
       CInt 95; CInt 1; CInt 2; CStr "Western Pacific"];
      [CStr "2020-01-23"; CStr "US"; CInt 20; CInt 0; CInt 0; CInt 20;
       CInt 19; CInt 0; CInt 0; CStr "Americas"];
      [CStr "2020-01-23"; CStr "Japan"; CInt 30; CInt 1; CInt 2; CInt 27;
       CInt 28; CInt 1; CInt 2; CStr "Western Pacific"] ].

Definition example_day_wise {F : Type} : frame F :=
  mkFrame
    ["Date"; "Confirmed"; "Deaths"; "Recovered"; "Active"; "New cases";
     "New deaths"; "New recovered"]
    [ [CStr "2020-01-22"; CInt 555; CInt 17; CInt 28; CInt 510; CInt 0; CInt 0;
       CInt 0];
      [CStr "2020-01-23"; CInt 654; CInt 18; CInt 30; CInt 606; CInt 99; CInt 1;
       CInt 2] ].

(** The same days with the dates spelled month/day/year. *)
Definition example_day_wise_us_dates {F : Type} : frame F :=
  mkFrame
    ["Date"; "Confirmed"; "Deaths"; "Recovered"; "Active"; "New cases";
     "New deaths"; "New recovered"]
    [ [CStr "1/22/20"; CInt 555; CInt 17; CInt 28; CInt 510; CInt 0; CInt 0;
       CInt 0];
      [CStr "1/23/20"; CInt 654; CInt 18; CInt 30; CInt 606; CInt 99; CInt 1;
       CInt 2] ].

Definition example_usa_county_wise {F : Type} : frame F :=
  mkFrame ["Admin2"; "Province_State"; "Date"; "Confirmed"; "Deaths"]
    [ [CStr "Autauga"; CStr "Alabama"; CStr "1/22/20"; CInt 0; CInt 0] ].

Definition example_worldometer {F : Type} : frame F :=
  mkFrame
    ["Country/Region"; "Continent"; "Population"; "TotalCases"; "NewCases";
     "TotalDeaths"; "TotalRecovered"; "ActiveCases"; "WHO Region"]
    [ [CStr "USA"; CStr "North America"; CInt 331198130; CInt 5032179; CNaN;
       CInt 162804; CInt 2576668; CInt 2292707; CStr "Americas"];
      [CStr "Canada"; CStr "North America"; CInt 37775022; CInt 118561; CNaN;
       CInt 8966; CInt 103106; CInt 6489; CStr "Americas"];
      [CStr "India"; CStr "Asia"; CInt 1381344997; CInt 2025409; CNaN;
       CInt 41638; CInt 1377384; CInt 606387; CStr "South-EastAsia"];
      [CStr "Diamond Princess"; CNaN; CNaN; CInt 712; CNaN; CInt 13; CInt 651;
       CInt 48; CNaN];
      [CStr "Western Sahara"; CStr "Africa"; CInt 598682; CInt 10; CNaN;
       CInt 1; CInt 8; CInt 1; CStr "Africa"] ].

(** A file system that holds the four inputs, written as CSV. *)
Definition example_files (day_wise : frame Q) : filesystem :=
  write_file
    (write_file
       (write_file
          (write_file (fun _ => None)
             "attached_assets/day_wise.csv" (to_csv exact_library day_wise))
          "attached_assets/full_grouped.csv"
          (to_csv exact_library example_full_grouped))
       "attached_assets/usa_county_wise.csv"
       (to_csv exact_library example_usa_county_wise))
    "attached_assets/worldometer_data.csv"
    (to_csv exact_library example_worldometer).

(** The same without the worldometer file. *)
Definition example_files_incomplete : filesystem :=
  write_file
    (write_file
       (write_file (fun _ => None)
          "attached_assets/day_wise.csv" (to_csv exact_library example_day_wise))
       "attached_assets/full_grouped.csv"
       (to_csv exact_library example_full_grouped))
    "attached_assets/usa_county_wise.csv"
    (to_csv exact_library example_usa_county_wise).

(** [example_full_grouped] with its dates parsed, and cleaned. *)
Definition example_dated : frame Q :=
  mkFrame (columns (@example_full_grouped Q))
    [ [CDate 18283; CStr "China"; CInt 548; CInt 17; CInt 28; CInt 503;
       CInt 0; CInt 0; CInt 0; CStr "Western Pacific"];
      [CDate 18283; CStr "US"; CInt 1; CInt 0; CInt 0; CInt 1;
       CInt 0; CInt 0; CInt 0; CStr "Americas"];
      [CDate 18284; CStr "China"; CInt 643; CInt 18; CInt 30; CInt 595;
       CInt 95; CInt 1; CInt 2; CStr "Western Pacific"];
      [CDate 18284; CStr "US"; CInt 20; CInt 0; CInt 0; CInt 20;
       CInt 19; CInt 0; CInt 0; CStr "Americas"];
      [CDate 18284; CStr "Japan"; CInt 30; CInt 1; CInt 2; CInt 27;
       CInt 28; CInt 1; CInt 2; CStr "Western Pacific"] ].

Definition example_cleaned : frame Q :=
  mkFrame country_day_columns
    [ [CDate 18283; CStr "China"; CInt 548; CInt 17; CInt 28; CInt 503;
       CStr "Western Pacific"];
      [CDate 18284; CStr "China"; CInt 643; CInt 18; CInt 30; CInt 595;
       CStr "Western Pacific"];
      [CDate 18284; CStr "US"; CInt 20; CInt 0; CInt 0; CInt 20;
       CStr "Americas"];
      [CDate 18284; CStr "Japan"; CInt 30; CInt 1; CInt 2; CInt 27;
       CStr "Western Pacific"] ].

Definition example_latest : frame Q :=
  mkFrame country_day_columns
    [ [CDate 18284; CStr "China"; CInt 643; CInt 18; CInt 30; CInt 595;
       CStr "Western Pacific"];
      [CDate 18284; CStr "US"; CInt 20; CInt 0; CInt 0; CInt 20;
       CStr "Americas"];
      [CDate 18284; CStr "Japan"; CInt 30; CInt 1; CInt 2; CInt 27;
       CStr "Western Pacific"] ].

Definition example_latest_rated : frame Q :=
  mkFrame (country_day_columns ++ ["Mortality Rate (%)"])
    [ [CDate 18284; CStr "China"; CInt 643; CInt 18; CInt 30; CInt 595;
       CStr "Western Pacific"; CFlt (Qmult (Qdiv (inject_Z 18) (inject_Z 643)) (inject_Z 100))];
      [CDate 18284; CStr "US"; CInt 20; CInt 0; CInt 0; CInt 20;
       CStr "Americas"; CFlt (Qmult (Qdiv (inject_Z 0) (inject_Z 20)) (inject_Z 100))];
      [CDate 18284; CStr "Japan"; CInt 30; CInt 1; CInt 2; CInt 27;
       CStr "Western Pacific"; CFlt (Qmult (Qdiv (inject_Z 1) (inject_Z 30)) (inject_Z 100))] ].

Definition example_worldometer_cleaned : frame Q :=
  mkFrame
    ["Country/Region"; "Continent"; "Confirmed"; "Deaths"; "Recovered";
     "Active"; "WHO Region"; "Population"]
    [ [CStr "USA"; CStr "North America"; CInt 5032179; CInt 162804;
       CInt 2576668; CInt 2292707; CStr "Americas"; CInt 331198130];
      [CStr "Canada"; CStr "North America"; CInt 118561; CInt 8966;
       CInt 103106; CInt 6489; CStr "Americas"; CInt 37775022];
      [CStr "India"; CStr "Asia"; CInt 2025409; CInt 41638; CInt 1377384;
       CInt 606387; CStr "South-EastAsia"; CInt 1381344997];
      [CStr "Diamond Princess"; CNaN; CInt 712; CInt 13; CInt 651; CInt 48;
       CNaN; CNaN] ].

(** A country-day table in which the one row that passes the
    threshold names its country with digits. *)
Definition example_numeric_name : frame Q :=
  mkFrame country_day_columns
    [ [CDate 18283; CStr "France"; CInt 10; CInt 0; CInt 0; CInt 10;
       CStr "Europe"];
      [CDate 18283; CStr "007"; CInt 20; CInt 1; CInt 0; CInt 19;
       CStr "Europe"] ].

Definition example_numeric_name_cleaned : frame Q :=
  mkFrame country_day_columns
    [ [CDate 18283; CStr "007"; CInt 20; CInt 1; CInt 0; CInt 19;
       CStr "Europe"] ].

(** ** Further cells: missing values, shapes, membership *)

Section MoreCells.

Context {F : Type} (L : library F).

(** Cell 2.1: [df.isnull().sum()], the number of missing cells under
    every label. *)
Definition is_missing (v : cell F) : bool :=
  match v with
  | CNaN => true
  | _ => false
  end.

Definition isnull_sum (df : frame F) : list (string * nat) :=
  map (fun c =>
         (c, List.length
               (filter is_missing
                  (map (fun r => cell_or_nan (columns df) r c) (rows df)))))
    (columns df).

(** [df.shape]: rows, columns. *)
Definition shape (df : frame F) : nat * nat :=
  (List.length (rows df), List.length (columns df)).

(** Cell 3.4: [series.isin(values)].  Numbers are equal when each is
    at most the other, a missing value is found among missing values. *)
Definition cell_eqb (a b : cell F) : bool :=
  match a, b with
  | CInt x, CInt y => x =? y
  | CInt x, CFlt g => fle L (of_int L x) g && fle L g (of_int L x)
  | CFlt f, CInt y => fle L f (of_int L y) && fle L (of_int L y) f
  | CFlt f, CFlt g => fle L f g && fle L g f
  | CStr s, CStr t => String.eqb s t
  | CDate x, CDate y => x =? y
  | CNaN, CNaN => true
  | _, _ => false
  end.

Definition isin (values : list (cell F)) (v : cell F) : bool :=
  existsb (cell_eqb v) values.

Definition top_countries_data (full_grouped_relevant latest_data : frame F)
    : result (frame F) :=
  top_5 <- top_5_countries L latest_data ;;
  s <- series full_grouped_relevant "Country/Region" ;;
  Ok (boolean_index full_grouped_relevant (map (isin top_5) s)).

(** [has_key cols key r]: row [r] holds a text under [key], so that
    [groupby(key)] puts it in a group. *)
Definition has_key (cols : list string) (key : string) (r : row F) : bool :=
  match cell_or_nan cols r key with
  | CStr _ => true
  | _ => false
  end.

(** [key_le a b]: the order [groupby] leaves its keys in. *)
Definition key_le (a b : string) : Prop := String.leb a b = true.

End MoreCells.

Arguments is_missing {F} v.
Arguments isnull_sum {F} df.
Arguments shape {F} df.
Arguments has_key {F} cols key r.

(** ** Example tables that make a cell raise *)

(** A day-wise table with a date that does not parse. *)
Definition example_day_wise_bad_date {F : Type} : frame F :=
  mkFrame
    ["Date"; "Confirmed"; "Deaths"; "Recovered"; "Active"; "New cases";
     "New deaths"; "New recovered"]
    [ [CStr "2020-01-22"; CInt 555; CInt 17; CInt 28; CInt 510; CInt 0; CInt 0;
       CInt 0];
      [CStr "soon"; CInt 654; CInt 18; CInt 30; CInt 606; CInt 99; CInt 1;
       CInt 2] ].

(** A country-day table with a text among its Confirmed cells. *)
Definition example_text_counts {F : Type} : frame F :=
  mkFrame country_day_columns
    [ [CStr "2020-01-22"; CStr "France"; CStr "many"; CInt 0; CInt 0; CInt 0;
       CStr "Europe"] ].

(** A country-snapshot table with a text among its TotalCases cells,
    and one without the Population column. *)
Definition example_snapshot_text_counts {F : Type} : frame F :=
  mkFrame worldometer_source_columns
    [ [CStr "France"; CStr "Europe"; CStr "many"; CInt 0; CInt 0; CInt 0;
       CStr "Europe"; CInt 65273511] ].

Definition example_snapshot_no_population {F : Type} : frame F :=
  mkFrame
    ["Country/Region"; "Continent"; "TotalCases"; "TotalDeaths"; "TotalRecovered";
     "ActiveCases"; "WHO Region"]
    [ [CStr "France"; CStr "Europe"; CInt 195633; CInt 30312; CInt 82460;
       CInt 82861; CStr "Europe"] ].

(** * Properties *)
Lemma bind_Ok_inv {A B : Type} (m : result A) (k : A -> result B) (b : B) :
  bind m k = Ok b -> exists a, m = Ok a /\ k a = Ok b.
Proof.
  destruct m as [a|e]; simpl; intros H; [exists a; auto | discriminate].
Qed.

Lemma mapM_Forall2 {A B : Type} (f : A -> result B) (l : list A) (bs : list B) :
  mapM f l = Ok bs -> Forall2 (fun a b => f a = Ok b) l bs.
Proof.
  revert bs; induction l as [|a l IH]; simpl; intros bs H.
  - injection H as <-; constructor.
  - apply bind_Ok_inv in H as (b & Hb & H).
    apply bind_Ok_inv in H as (bs' & Hbs & H).
    injection H as <-; constructor; auto.
Qed.

Lemma mapM_total {A B : Type} (f : A -> result B) (l : list A) :
  Forall (fun a => exists b, f a = Ok b) l -> exists bs, mapM f l = Ok bs.
Proof.
  induction 1 as [|a l (b & Hb) _ (bs & Hbs)]; simpl.
  - eexists; reflexivity.
  - rewrite Hb, Hbs; simpl; eexists; reflexivity.
Qed.

Section FrameFacts.

Context {F : Type}.

Lemma series_Ok (df : frame F) (c : string) (s : list (cell F)) :
  series df c = Ok s ->
  s = map (fun r => cell_or_nan (columns df) r c) (rows df).
Proof.
  unfold series; destruct (has_column (columns df) c); congruence.
Qed.

Lemma project_Ok (df out : frame F) (labels : list string) :
  project df labels = Ok out ->
  out = mkFrame labels (map (project_row (columns df) labels) (rows df)).
Proof.
  unfold project; intros H.
  apply bind_Ok_inv in H as (u & _ & H); congruence.
Qed.

Lemma select_rows_map_filter (p : row F -> bool) (rs : list (row F)) :
  select_rows (map p rs) rs = filter p rs.
Proof.
  induction rs as [|r rs IH]; simpl; [reflexivity|].
  destruct (p r); rewrite IH; reflexivity.
Qed.

End FrameFacts.

Section CleaningFacts.

Context {F : Type} (L : library F).

Lemma ge_cell_meets (cols : list string) (c : string) (k : Z) (r : row F) (b : bool) :
  ge_cell L k (cell_or_nan cols r c) = Ok b -> b = meets_threshold L cols c k r.
Proof.
  unfold meets_threshold, ge_cell.
  destruct (cell_or_nan cols r c); intros H; congruence.
Qed.

Lemma series_ge_mask (cols : list string) (c : string) (k : Z)
    (rs : list (row F)) (mask : list bool) :
  series_ge L (map (fun r => cell_or_nan cols r c) rs) k = Ok mask ->
  mask = map (meets_threshold L cols c k) rs.
Proof.
  unfold series_ge; revert mask; induction rs as [|r rs IH]; simpl; intros mask H.
  - congruence.
  - apply bind_Ok_inv in H as (b & Hb & H).
    apply bind_Ok_inv in H as (bs & Hbs & H).
    apply ge_cell_meets in Hb. apply IH in Hbs. congruence.
Qed.

Lemma meets_threshold_at_least (cols : list string) (c : string) (k : Z) (r : row F) :
  meets_threshold L cols c k r = true -> at_least L k (cell_or_nan cols r c).
Proof.
  unfold meets_threshold, at_least.
  destruct (cell_or_nan cols r c); try discriminate; auto.
  intros H; apply Z.leb_le; exact H.
Qed.

Lemma full_grouped_filtered_Ok (df out : frame F) :
  full_grouped_filtered L df = Ok out ->
  out = mkFrame (columns df)
          (filter (meets_threshold L (columns df) "Confirmed" 15) (rows df)).
Proof.
  unfold full_grouped_filtered; intros H.
  apply bind_Ok_inv in H as (s & Hs & H).
  apply bind_Ok_inv in H as (mask & Hm & H).
  apply series_Ok in Hs; subst s.
  apply series_ge_mask in Hm; subst mask.
  unfold boolean_index in H; rewrite select_rows_map_filter in H; congruence.
Qed.

Lemma worldometer_filtered_Ok (df out : frame F) :
  worldometer_filtered L df = Ok out ->
  out = mkFrame (columns df)
          (filter (meets_threshold L (columns df) "TotalCases" 15) (rows df)).
Proof.
  unfold worldometer_filtered; intros H.
  apply bind_Ok_inv in H as (s & Hs & H).
  apply bind_Ok_inv in H as (mask & Hm & H).
  apply series_Ok in Hs; subst s.
  apply series_ge_mask in Hm; subst mask.
  unfold boolean_index in H; rewrite select_rows_map_filter in H; congruence.
Qed.

Lemma full_grouped_relevant_Ok (df out : frame F) :
  full_grouped_relevant L df = Ok out ->
  out = mkFrame country_day_columns
          (map (project_row (columns df) country_day_columns)
             (filter (meets_threshold L (columns df) "Confirmed" 15) (rows df))).
Proof.
  unfold full_grouped_relevant; intros H.
  apply bind_Ok_inv in H as (flt & Hf & H).
  apply full_grouped_filtered_Ok in Hf; subst flt.
  apply project_Ok in H; exact H.
Qed.

Lemma worldometer_relevant_Ok (df out : frame F) :
  worldometer_relevant L df = Ok out ->
  out = mkFrame
          ["Country/Region"; "Continent"; "Confirmed"; "Deaths"; "Recovered";
           "Active"; "WHO Region"; "Population"]
          (map (project_row (columns df) worldometer_source_columns)
             (filter (meets_threshold L (columns df) "TotalCases" 15) (rows df))).
Proof.
  unfold worldometer_relevant; intros H.
  apply bind_Ok_inv in H as (flt & Hf & H).
  apply worldometer_filtered_Ok in Hf; subst flt.
  apply bind_Ok_inv in H as (rel & Hr & H).
  apply project_Ok in Hr; subst rel.
  injection H as <-; reflexivity.
Qed.

End CleaningFacts.

Section DateFacts.

Context {F : Type} (L : library F).

Lemma set_cell_length (cols : list string) (r : row F) (c : string) (v : cell F) :
  List.length (set_cell cols r c v) = List.length r.
Proof.
  revert r; induction cols as [|k cols IH]; intros [|x r]; simpl; try reflexivity.
  destruct (String.eqb k c); simpl; [reflexivity | f_equal; apply IH].
Qed.

Lemma set_cell_other (cols : list string) (r : row F) (k c : string) (v : cell F) :
  c <> k -> cell_or_nan cols (set_cell cols r k v) c = cell_or_nan cols r c.
Proof.
  intros Hne; unfold cell_or_nan.
  revert r; induction cols as [|l cols IH]; intros [|x r]; simpl; try reflexivity.
  destruct (String.eqb_spec l k) as [->|Hlk]; simpl.
  - destruct (String.eqb_spec k c); [congruence | reflexivity].
  - destruct (String.eqb l c); [reflexivity | apply IH].
Qed.

Lemma set_cell_same (cols : list string) (r : row F) (k : string) (v : cell F) :
  cell_or_nan cols (set_cell cols r k v) k
  = match get cols r k with Some _ => v | None => CNaN end.
Proof.
  unfold cell_or_nan.
  revert r; induction cols as [|l cols IH]; intros [|x r]; simpl; try reflexivity.
  destruct (String.eqb l k) eqn:Hlk; simpl; rewrite ?Hlk; [reflexivity | apply IH].
Qed.

Lemma convert_date_column_Ok (df dw : frame F) :
  convert_date_column L df = Ok dw ->
  columns dw = columns df /\
  Forall2 (date_parsed L (columns df)) (rows df) (rows dw).
Proof.
  unfold convert_date_column; intros H.
  apply bind_Ok_inv in H as (s & Hs & H).
  apply bind_Ok_inv in H as (ds & Hds & H); injection H as <-.
  unfold series in Hs; destruct (has_column (columns df) "Date") eqn:Hcol;
    [|discriminate].
  injection Hs as <-.
  unfold assign; rewrite Hcol; simpl; split; [reflexivity|].
  apply mapM_Forall2 in Hds.
  remember (rows df) as rs eqn:Hrs; clear Hrs.
  revert ds Hds; induction rs as [|r rs IH]; intros ds Hds;
    inversion Hds as [|? v ? ds' Hv Hrest]; subst; simpl; constructor.
  - repeat split.
    + apply set_cell_length.
    + rewrite set_cell_same, Hv; f_equal.
      unfold cell_or_nan in Hv |- *.
      destruct (get (columns df) r "Date"); [reflexivity|].
      simpl in Hv; congruence.
    + intros c Hc; apply set_cell_other; exact Hc.
  - apply IH; exact Hrest.
Qed.

Lemma Forall2_In_right {A B : Type} (R : A -> B -> Prop) (l : list A) (l' : list B)
    (b : B) :
  Forall2 R l l' -> In b l' -> exists a, In a l /\ R a b.
Proof.
  induction 1 as [|x y l l' Hxy _ IH]; simpl; [tauto|].
  intros [<-|Hb]; [exists x; auto|].
  destruct (IH Hb) as (a & Ha & Hab); exists a; auto.
Qed.

Lemma preprocess_full_grouped_Ok (raw cleaned : frame F) :
  preprocess_full_grouped L raw = Ok cleaned ->
  exists dated : frame F,
    convert_date_column L raw = Ok dated /\
    full_grouped_relevant L dated = Ok cleaned.
Proof.
  unfold preprocess_full_grouped; intros H.
  apply bind_Ok_inv in H as (dated & Hd & H); eauto.
Qed.

End DateFacts.

Section CleaningClaims.

Context {F : Type} (L : library F).

Lemma check_labels_Ok (cols labels : list string) :
  forallb (has_column cols) labels = true -> check_labels cols labels = Ok tt.
Proof.
  unfold check_labels; intros H.
  destruct (find _ labels) as [c|] eqn:Hfind; [|reflexivity].
  apply find_some in Hfind as (Hin & Hc).
  rewrite forallb_forall in H; rewrite (H c Hin) in Hc; discriminate.
Qed.

Lemma has_column_of_all (cols labels : list string) (c : string) :
  forallb (has_column cols) labels = true -> In c labels -> has_column cols c = true.
Proof.
  rewrite forallb_forall; auto.
Qed.

Lemma series_ge_total (k : Z) (s : list (cell F)) :
  forallb number_or_missing s = true -> exists mask, series_ge L s k = Ok mask.
Proof.
  intros H; apply mapM_total.
  rewrite forallb_forall in H; apply Forall_forall; intros v Hv.
  specialize (H v Hv); destruct v; simpl in *; try discriminate; eexists; reflexivity.
Qed.

Lemma threshold_rows_at_least (cols labels labels' : list string) (c c' : string)
    (k : Z) (rs : list (row F)) :
  (forall r : row F,
      cell_or_nan labels' (project_row cols labels r) c' = cell_or_nan cols r c) ->
  Forall (fun r => at_least L k (cell_or_nan labels' r c'))
    (map (project_row cols labels) (filter (meets_threshold L cols c k) rs)).
Proof.
  intros Hcell; apply Forall_forall; intros r' Hr'.
  apply in_map_iff in Hr' as (r & <- & Hr).
  apply filter_In in Hr as (_ & Hr).
  rewrite Hcell; apply meets_threshold_at_least; exact Hr.
Qed.

(** C2.  Cleaning keeps exactly the rows whose confirmed count is at
    least 15: every row of the cleaned CountryDay and CountrySnapshot
    tables has Confirmed >= 15, the cleaned rows are the projections of
    the input rows that meet the threshold (TotalCases before the
    renaming), in order, none of them removed; the rows below the
    threshold are dropped without an exception; and the two-row scenario
    (Confirmed 20 and 10) cleans to the single row of China. *)
Theorem cleaning_keeps_confirmed_at_least_15 :
  (forall df out : frame F,
      full_grouped_relevant L df = Ok out ->
      Forall (fun r => at_least L 15 (cell_or_nan (columns out) r "Confirmed"))
        (rows out) /\
      rows out = map (project_row (columns df) country_day_columns)
                   (filter (meets_threshold L (columns df) "Confirmed" 15) (rows df))) /\
  (forall df out : frame F,
      worldometer_relevant L df = Ok out ->
      Forall (fun r => at_least L 15 (cell_or_nan (columns out) r "Confirmed"))
        (rows out) /\
      rows out = map (project_row (columns df) worldometer_source_columns)
                   (filter (meets_threshold L (columns df) "TotalCases" 15) (rows df))) /\
  (forall df : frame F,
      forallb (has_column (columns df)) country_day_columns = true ->
      forallb (fun r => number_or_missing (cell_or_nan (columns df) r "Confirmed"))
        (rows df) = true ->
      exists out, full_grouped_relevant L df = Ok out) /\
  (forall df : frame F,
      forallb (has_column (columns df)) worldometer_source_columns = true ->
      forallb (fun r => number_or_missing (cell_or_nan (columns df) r "TotalCases"))
        (rows df) = true ->
      exists out, worldometer_relevant L df = Ok out) /\
  (forall d : timestamp,
      parse_date L "2020-01-22" = Some d ->
      preprocess_full_grouped L scenario_country_day
      = Ok (mkFrame country_day_columns
              [[CDate d; CStr "China"; CInt 20; CInt 1; CInt 0; CInt 19;
                CStr "Western Pacific"]])).
Proof.
  repeat split.
  - apply full_grouped_relevant_Ok in H; subst out; simpl.
    apply threshold_rows_at_least; intros r; reflexivity.
  - apply full_grouped_relevant_Ok in H; subst out; reflexivity.
  - apply worldometer_relevant_Ok in H; subst out; simpl.
    apply threshold_rows_at_least; intros r; reflexivity.
  - apply worldometer_relevant_Ok in H; subst out; reflexivity.
  - intros df Hcols Hnum.
    unfold full_grouped_relevant, full_grouped_filtered, series.
    rewrite (has_column_of_all _ _ "Confirmed" Hcols) by (simpl; tauto).
    simpl bind.
    destruct (series_ge_total 15
                (map (fun r => cell_or_nan (columns df) r "Confirmed") (rows df)))
      as (mask & ->).
    { rewrite forallb_forall in *; intros v Hv.
      apply in_map_iff in Hv as (r & <- & Hr); auto. }
    simpl; unfold project; simpl columns.
    rewrite (check_labels_Ok _ _ Hcols); simpl; eexists; reflexivity.
  - intros df Hcols Hnum.
    unfold worldometer_relevant, worldometer_filtered, series.
    rewrite (has_column_of_all _ _ "TotalCases" Hcols) by (simpl; tauto).
    simpl bind.
    destruct (series_ge_total 15
                (map (fun r => cell_or_nan (columns df) r "TotalCases") (rows df)))
      as (mask & ->).
    { rewrite forallb_forall in *; intros v Hv.
      apply in_map_iff in Hv as (r & <- & Hr); auto. }
    simpl; unfold project; simpl columns.
    rewrite (check_labels_Ok _ _ Hcols); simpl; eexists; reflexivity.
  - intros d Hd.
    unfold preprocess_full_grouped, convert_date_column.
    cbv -[parse_date]; rewrite Hd; reflexivity.
Qed.

(** C9.  Cleaning the CountrySnapshot table projects every kept row
    onto Country/Region, Continent, TotalCases, TotalDeaths,
    TotalRecovered, ActiveCases, WHO Region and Population, in this
    order, and relabels the four counts Confirmed, Deaths, Recovered and
    Active; every cell keeps its value.  The scenario row (100, 5, 90, 5,
    population 1,000,000) comes out with the same values under the new
    labels. *)
Theorem worldometer_rename_and_project :
  (forall df out : frame F,
      worldometer_relevant L df = Ok out ->
      columns out =
        ["Country/Region"; "Continent"; "Confirmed"; "Deaths"; "Recovered";
         "Active"; "WHO Region"; "Population"] /\
      rows out =
        map (fun r => map (cell_or_nan (columns df) r)
                        ["Country/Region"; "Continent"; "TotalCases"; "TotalDeaths";
                         "TotalRecovered"; "ActiveCases"; "WHO Region"; "Population"])
          (filter (meets_threshold L (columns df) "TotalCases" 15) (rows df)) /\
      forall r : row F,
        let r' := project_row (columns df) worldometer_source_columns r in
        cell_or_nan (columns out) r' "Country/Region"
          = cell_or_nan (columns df) r "Country/Region" /\
        cell_or_nan (columns out) r' "Continent"
          = cell_or_nan (columns df) r "Continent" /\
        cell_or_nan (columns out) r' "Confirmed"
          = cell_or_nan (columns df) r "TotalCases" /\
        cell_or_nan (columns out) r' "Deaths"
          = cell_or_nan (columns df) r "TotalDeaths" /\
        cell_or_nan (columns out) r' "Recovered"
          = cell_or_nan (columns df) r "TotalRecovered" /\
        cell_or_nan (columns out) r' "Active"
          = cell_or_nan (columns df) r "ActiveCases" /\
        cell_or_nan (columns out) r' "WHO Region"
          = cell_or_nan (columns df) r "WHO Region" /\
        cell_or_nan (columns out) r' "Population"
          = cell_or_nan (columns df) r "Population") /\
  worldometer_relevant L scenario_country_snapshot
  = Ok (mkFrame
          ["Country/Region"; "Continent"; "Confirmed"; "Deaths"; "Recovered";
           "Active"; "WHO Region"; "Population"]
          [[CStr "X"; CNaN; CInt 100; CInt 5; CInt 90; CInt 5; CNaN;
            CInt 1000000]]).
Proof.
  split; [|reflexivity].
  intros df out H; apply worldometer_relevant_Ok in H; subst out; simpl.
  repeat split.
Qed.

End CleaningClaims.

Section SnapshotFacts.

Context {F : Type}.

Lemma series_max_Some (s : list (cell F)) (m : timestamp) :
  series_max s = Some m ->
  In (CDate m) s /\ forall d, In (CDate d) s -> d <= m.
Proof.
  revert m; induction s as [|v s IH]; simpl; intros m H; [discriminate|].
  destruct v as [z|t|d0| |f];
    try (destruct (IH m H) as (Hin & Hle); split;
         [right; exact Hin
         | intros d [Hd|Hd]; [discriminate | auto]]).
  destruct (series_max s) as [m'|] eqn:Hs.
  - injection H as <-; destruct (IH m' eq_refl) as (Hin & Hle); split.
    + destruct (Z.max_spec d0 m') as [(_ & ->)|(_ & ->)]; [right; exact Hin | left; reflexivity].
    + intros d [Hd|Hd]; [injection Hd as ->; lia | specialize (Hle d Hd); lia].
  - injection H as <-; split; [left; reflexivity|].
    intros d [Hd|Hd]; [injection Hd as ->; lia|].
    exfalso; clear IH; induction s as [|w s IHs]; [contradiction|].
    simpl in Hs; destruct Hd as [->|Hd].
    + destruct (series_max s); discriminate.
    + destruct w; auto; destruct (series_max s); discriminate.
Qed.

Lemma series_max_None (s : list (cell F)) :
  series_max s = None -> forall d, ~ In (CDate d) s.
Proof.
  induction s as [|v s IH]; simpl; intros H d; [tauto|].
  destruct v; try (intros [Hd|Hd]; [discriminate | exact (IH H d Hd)]).
  destruct (series_max s); discriminate.
Qed.

Lemma series_max_no_dates (s : list (cell F)) :
  (forall d, ~ In (CDate d) s) -> series_max s = None.
Proof.
  induction s as [|v s IH]; simpl; intros H; [reflexivity|].
  destruct v; try (apply IH; intros d Hd; apply (H d); right; exact Hd).
  exfalso; apply (H d); left; reflexivity.
Qed.

Lemma series_max_of_maximum (df : frame F) (m : timestamp) :
  maximum_date df m ->
  series_max (map (fun r => cell_or_nan (columns df) r "Date") (rows df)) = Some m.
Proof.
  intros ((r & Hr & Hm) & Hmax).
  destruct (series_max _) as [m'|] eqn:Hs.
  - apply series_max_Some in Hs as (Hin & Hle).
    apply in_map_iff in Hin as (r' & Hr'm & Hr').
    specialize (Hmax r' m' Hr' Hr'm).
    assert (m <= m') by (apply Hle; apply in_map_iff; exists r; auto).
    f_equal; lia.
  - exfalso; apply (series_max_None _ Hs m).
    apply in_map_iff; exists r; auto.
Qed.

Lemma latest_data_spec (df : frame F) :
  has_column (columns df) "Date" = true ->
  exists ld : frame F,
    latest_data df = Ok ld /\
    columns ld = columns df /\
    (forall m : timestamp,
        maximum_date df m ->
        rows ld = filter (has_date (columns df) m) (rows df) /\
        forall r, In r (rows ld) <->
                  In r (rows df) /\ cell_or_nan (columns df) r "Date" = CDate m) /\
    ((forall r d, In r (rows df) -> cell_or_nan (columns df) r "Date" <> CDate d) ->
     rows ld = []).
Proof.
  intros Hcol.
  unfold latest_data, latest_date, series; rewrite Hcol; simpl bind.
  eexists; split; [reflexivity|]; split; [reflexivity|]; simpl rows; split.
  - intros m Hm; rewrite (series_max_of_maximum df m Hm).
    rewrite map_map, select_rows_map_filter.
    assert (Hfilter :
      filter (fun r => eq_date_cell (Some m) (cell_or_nan (columns df) r "Date")) (rows df)
      = filter (has_date (columns df) m) (rows df)).
    { apply filter_ext; intros r; unfold has_date, eq_date_cell.
      destruct (cell_or_nan (columns df) r "Date"); reflexivity. }
    rewrite Hfilter; split; [reflexivity|].
    intros r; rewrite filter_In; unfold has_date.
    destruct (cell_or_nan (columns df) r "Date") as [z|t|d| |f];
      try (split; [intros (_ & H); discriminate | intros (_ & H); discriminate]).
    rewrite Z.eqb_eq; split; intros (Hin & H); split; congruence.
  - intros Hnone; rewrite map_map, select_rows_map_filter.
    rewrite series_max_no_dates.
    + clear Hnone; induction (rows df) as [|r rs IH]; simpl; [reflexivity|].
      destruct (cell_or_nan (columns df) r "Date"); exact IH.
    + intros d Hd; apply in_map_iff in Hd as (r & Hc & Hr).
      exact (Hnone r d Hr Hc).
Qed.

(** C1.  The latest snapshot of a cleaned CountryDay table is computed
    without an exception, keeps the columns, and holds exactly the rows
    dated with the maximum date of the cleaned table, in their order:
    every row of that date and no row of another date.  A cleaned table
    without any dated row has an empty snapshot. *)
Theorem latest_snapshot_is_max_date_rows (L : library F) (raw cleaned : frame F) :
  preprocess_full_grouped L raw = Ok cleaned ->
  exists ld : frame F,
    latest_data cleaned = Ok ld /\
    columns ld = columns cleaned /\
    (forall m : timestamp,
        maximum_date cleaned m ->
        rows ld = filter (has_date (columns cleaned) m) (rows cleaned) /\
        forall r, In r (rows ld) <->
                  In r (rows cleaned) /\
                  cell_or_nan (columns cleaned) r "Date" = CDate m) /\
    ((forall r d, In r (rows cleaned) ->
                  cell_or_nan (columns cleaned) r "Date" <> CDate d) ->
     rows ld = []).
Proof.
  intros H; apply latest_data_spec.
  apply preprocess_full_grouped_Ok in H as (dated & _ & H).
  apply full_grouped_relevant_Ok in H; subst cleaned; reflexivity.
Qed.

End SnapshotFacts.

Section GroupFacts.

Context {F : Type} (L : library F).

Lemma start_totals_map {A B : Type} (f : A -> B) (n : list A) (o : option (list (total F))) :
  start_totals (map f n) o = start_totals n o.
Proof.
  destruct o; simpl; [reflexivity | apply map_map].
Qed.

Lemma upsert_lookup_same (k : string) (vs : list (cell F)) (gs gs' : list (group F)) :
  upsert L k vs gs = Ok gs' ->
  exists ts', lookup_group k gs' = Some ts' /\
              add_cells L (start_totals vs (lookup_group k gs)) vs = Ok ts'.
Proof.
  revert gs'; induction gs as [|(k', ts) gs IH]; simpl; intros gs' H.
  - apply bind_Ok_inv in H as (ts' & Hts & H); injection H as <-.
    exists ts'; simpl; rewrite String.eqb_refl; auto.
  - destruct (String.eqb k' k) eqn:Hk.
    + apply bind_Ok_inv in H as (ts' & Hts & H); injection H as <-.
      exists ts'; simpl; rewrite Hk; auto.
    + apply bind_Ok_inv in H as (gs'' & Hgs & H); injection H as <-.
      simpl; rewrite Hk; apply IH; exact Hgs.
Qed.

Lemma upsert_lookup_other (k k' : string) (vs : list (cell F)) (gs gs' : list (group F)) :
  upsert L k vs gs = Ok gs' -> k' <> k ->
  lookup_group k' gs' = lookup_group k' gs.
Proof.
  intros H Hne; revert gs' H; induction gs as [|(k0, ts) gs IH]; simpl; intros gs' H.
  - apply bind_Ok_inv in H as (ts' & Hts & H); injection H as <-; simpl.
    destruct (String.eqb_spec k k'); [congruence | reflexivity].
  - destruct (String.eqb_spec k0 k) as [->|Hk0].
    + apply bind_Ok_inv in H as (ts' & Hts & H); injection H as <-; simpl.
      destruct (String.eqb_spec k k'); [congruence | reflexivity].
    + apply bind_Ok_inv in H as (gs'' & Hgs & H); injection H as <-; simpl.
      rewrite (IH gs'' Hgs); reflexivity.
Qed.

Lemma upsert_keys (k : string) (vs : list (cell F)) (gs gs' : list (group F)) :
  upsert L k vs gs = Ok gs' ->
  (In k (map fst gs) /\ map fst gs' = map fst gs) \/
  (~ In k (map fst gs) /\ map fst gs' = map fst gs ++ [k]).
Proof.
  revert gs'; induction gs as [|(k0, ts) gs IH]; simpl; intros gs' H.
  - apply bind_Ok_inv in H as (ts' & Hts & H); injection H as <-; right; simpl; tauto.
  - destruct (String.eqb_spec k0 k) as [->|Hk0].
    + apply bind_Ok_inv in H as (ts' & Hts & H); injection H as <-; left; simpl; tauto.
    + apply bind_Ok_inv in H as (gs'' & Hgs & H); injection H as <-; simpl.
      destruct (IH gs'' Hgs) as [(Hin & ->)|(Hnin & ->)]; [left | right]; split;
        try reflexivity; tauto.
Qed.

Lemma upsert_NoDup (k : string) (vs : list (cell F)) (gs gs' : list (group F)) :
  upsert L k vs gs = Ok gs' -> NoDup (map fst gs) -> NoDup (map fst gs').
Proof.
  intros H Hnd; destruct (upsert_keys _ _ _ _ H) as [(_ & ->)|(Hnin & ->)]; [exact Hnd|].
  apply NoDup_app; [exact Hnd | repeat constructor; simpl; tauto |].
  intros x Hx [<-|[]]; exact (Hnin Hx).
Qed.

Lemma accumulate_lookup (cols : list string) (key : string) (aggs : list string)
    (rs : list (row F)) (gs gs' : list (group F)) (k : string) :
  accumulate L cols key aggs rs gs = Ok gs' ->
  expected_totals L cols aggs (lookup_group k gs) (filter (in_group cols key k) rs)
  = Ok (lookup_group k gs').
Proof.
  revert gs; induction rs as [|r rs IH]; simpl; intros gs H.
  - injection H as <-; unfold expected_totals.
    destruct (lookup_group k gs); reflexivity.
  - unfold in_group at 1.
    destruct (cell_or_nan cols r key) as [z|s|d| |f] eqn:Hcell; try discriminate.
    + apply bind_Ok_inv in H as (gs1 & Hup & H).
      destruct (String.eqb_spec s k) as [->|Hne].
      * destruct (upsert_lookup_same _ _ _ _ Hup) as (ts1 & Hl1 & Hadd).
        rewrite <- (IH gs1 H), Hl1.
        rewrite start_totals_map in Hadd.
        unfold expected_totals.
        destruct (lookup_group k gs) eqn:Hl; simpl in Hadd |- *;
          rewrite Hadd; simpl bind; destruct (filter _ rs); reflexivity.
      * rewrite <- (IH gs1 H).
        rewrite (upsert_lookup_other _ _ _ _ _ Hup) by congruence; reflexivity.
    + apply IH; exact H.
Qed.

Lemma accumulate_NoDup (cols : list string) (key : string) (aggs : list string)
    (rs : list (row F)) (gs gs' : list (group F)) :
  accumulate L cols key aggs rs gs = Ok gs' ->
  NoDup (map fst gs) -> NoDup (map fst gs').
Proof.
  revert gs; induction rs as [|r rs IH]; simpl; intros gs H Hnd.
  - injection H as <-; exact Hnd.
  - destruct (cell_or_nan cols r key); try discriminate.
    + apply bind_Ok_inv in H as (gs1 & Hup & H).
      apply (IH gs1 H); eapply upsert_NoDup; eauto.
    + apply (IH gs H Hnd).
Qed.

Lemma insert_group_perm (g : group F) (gs : list (group F)) :
  Permutation (insert_group g gs) (g :: gs).
Proof.
  induction gs as [|g' gs IH]; simpl; [reflexivity|].
  destruct (String.leb (fst g) (fst g')); [reflexivity|].
  rewrite IH; apply perm_swap.
Qed.

Lemma sort_groups_perm (gs : list (group F)) : Permutation (sort_groups gs) gs.
Proof.
  induction gs as [|g gs IH]; simpl; [reflexivity|].
  rewrite insert_group_perm; constructor; exact IH.
Qed.

Lemma lookup_group_In (k : string) (ts : list (total F)) (gs : list (group F)) :
  NoDup (map fst gs) ->
  (lookup_group k gs = Some ts <-> In (k, ts) gs).
Proof.
  induction gs as [|(k', ts') gs IH]; simpl; intros Hnd.
  - split; [discriminate | tauto].
  - inversion Hnd as [|? ? Hnin Hnd']; subst.
    destruct (String.eqb_spec k' k) as [->|Hne].
    + split; [intros [= ->]; left; reflexivity|].
      intros [[= ->]|Hin]; [reflexivity|].
      exfalso; apply Hnin; apply in_map_iff; exists (k, ts); auto.
    + rewrite (IH Hnd'); split; [tauto|].
      intros [[= -> _]|Hin]; [congruence | exact Hin].
Qed.

Lemma lookup_group_sorted (k : string) (gs : list (group F)) :
  NoDup (map fst gs) ->
  lookup_group k (sort_groups gs) = lookup_group k gs.
Proof.
  intros Hnd.
  assert (Hnd' : NoDup (map fst (sort_groups gs))).
  { eapply Permutation_NoDup; [|exact Hnd].
    apply Permutation_map, Permutation_sym, sort_groups_perm. }
  destruct (lookup_group k gs) as [ts|] eqn:Hl.
  - apply (lookup_group_In _ _ _ Hnd'), (Permutation_in _ (Permutation_sym (sort_groups_perm gs))).
    apply (lookup_group_In _ _ _ Hnd); exact Hl.
  - destruct (lookup_group k (sort_groups gs)) as [ts|] eqn:Hl'; [|reflexivity].
    apply (lookup_group_In _ _ _ Hnd'), (Permutation_in _ (sort_groups_perm gs)) in Hl'.
    apply (lookup_group_In _ _ _ Hnd) in Hl'; congruence.
Qed.

Lemma filter_key_unique (k : string) (ts : list (total F)) (gs : list (group F)) :
  NoDup (map fst gs) ->
  lookup_group k gs = Some ts ->
  filter (fun g => String.eqb (fst g) k) gs = [(k, ts)].
Proof.
  induction gs as [|(k', ts') gs IH]; simpl; intros Hnd H; [discriminate|].
  inversion Hnd as [|? ? Hnin Hnd']; subst.
  destruct (String.eqb_spec k' k) as [->|Hne].
  - injection H as ->; f_equal.
    clear IH Hnd; induction gs as [|(k0, t0) gs IHg]; simpl; [reflexivity|].
    destruct (String.eqb_spec k0 k) as [->|_].
    + exfalso; apply Hnin; left; reflexivity.
    + inversion Hnd'; subst; apply IHg; auto.
      intros Hin; apply Hnin; right; exact Hin.
  - apply IH; assumption.
Qed.

Lemma filter_map_comm {A B : Type} (p : B -> bool) (f : A -> B) (l : list A) :
  filter p (map f l) = map f (filter (fun a => p (f a)) l).
Proof.
  induction l as [|a l IH]; simpl; [reflexivity|].
  destruct (p (f a)); simpl; rewrite IH; reflexivity.
Qed.

(** The frame [groupby_sum] returns, read group by group. *)
Lemma groupby_sum_Ok (df out : frame F) (key : string) (aggs : list string) :
  groupby_sum L df key aggs = Ok out ->
  exists gs : list (group F),
    out = mkFrame (key :: aggs) (map group_row gs) /\
    NoDup (map fst gs) /\
    forall k,
      expected_totals L (columns df) aggs None
        (filter (in_group (columns df) key k) (rows df))
      = Ok (lookup_group k gs).
Proof.
  unfold groupby_sum; intros H.
  apply bind_Ok_inv in H as (u & _ & H).
  apply bind_Ok_inv in H as (gs & Hacc & H); injection H as <-.
  assert (Hnd : NoDup (map fst gs))
    by (eapply accumulate_NoDup; [exact Hacc | constructor]).
  exists (sort_groups gs); split; [reflexivity|]; split.
  - eapply Permutation_NoDup; [|exact Hnd].
    apply Permutation_map, Permutation_sym, sort_groups_perm.
  - intros k; rewrite lookup_group_sorted by exact Hnd.
    apply (accumulate_lookup _ _ _ _ _ _ k Hacc).
Qed.

Lemma add_cells_ints (cols : list string) (r : row F) (g : string -> Z)
    (aggs : list string) :
  (forall c, In c aggs ->
             match cell_or_nan cols r c with CInt _ | CNaN => True | _ => False end) ->
  add_cells L (map (fun c => TInt (g c)) aggs) (map (cell_or_nan cols r) aggs)
  = Ok (map (fun c => TInt (g c + int_value (cell_or_nan cols r c))) aggs).
Proof.
  induction aggs as [|c aggs IH]; simpl; intros H; [reflexivity|].
  rewrite IH by (intros c' Hc'; apply H; right; exact Hc').
  specialize (H c (or_introl eq_refl)).
  destruct (cell_or_nan cols r c); simpl; try contradiction;
    [reflexivity | rewrite Z.add_0_r; reflexivity].
Qed.

Lemma sum_rows_ints (cols aggs : list string) (ms : list (row F)) (g : string -> Z) :
  (forall c, In c aggs -> integer_cells cols c ms = true) ->
  sum_rows L cols aggs (map (fun c => TInt (g c)) aggs) ms
  = Ok (map (fun c => TInt (g c + int_sum cols c ms)) aggs).
Proof.
  revert g; induction ms as [|r ms IH]; simpl; intros g H.
  - f_equal; apply map_ext; intros c; unfold int_sum; simpl; f_equal; lia.
  - rewrite add_cells_ints.
    + simpl bind; rewrite IH.
      * f_equal; apply map_ext; intros c; unfold int_sum; simpl; f_equal; lia.
      * intros c Hc; specialize (H c Hc); unfold integer_cells in *; simpl in H.
        apply andb_true_iff in H; tauto.
    + intros c Hc; specialize (H c Hc); unfold integer_cells in H; simpl in H.
      apply andb_true_iff in H as (H & _).
      destruct (cell_or_nan cols r c); try discriminate; exact I.
Qed.

Lemma series_div_map (k : Z) (f g : row F -> cell F) (rs : list (row F))
    (q : list (option F)) :
  series_div L (map f rs) (map g rs) = Ok q ->
  map float_cell (series_times L q k) = map (fun r => ratio_cell L k (f r) (g r)) rs.
Proof.
  revert q; induction rs as [|r rs IH]; simpl; intros q H.
  - injection H as <-; reflexivity.
  - apply bind_Ok_inv in H as (x & Hx & H).
    apply bind_Ok_inv in H as (qs & Hqs & H); injection H as <-; simpl.
    rewrite (IH qs Hqs); f_equal.
    unfold div_cell in Hx; unfold ratio_cell.
    destruct (to_float L (f r)) as [[a|]|]; simpl in Hx; try discriminate;
      destruct (to_float L (g r)) as [[b|]|]; simpl in Hx; try discriminate;
      injection Hx as <-; reflexivity.
Qed.

Lemma ratio_column_Ok (df : frame F) (num den : string) (k : Z) (rate : list (cell F)) :
  ratio_column L df num den k = Ok rate ->
  rate = map (fun r => ratio_cell L k (cell_or_nan (columns df) r num)
                         (cell_or_nan (columns df) r den)) (rows df).
Proof.
  unfold ratio_column; intros H.
  apply bind_Ok_inv in H as (n & Hn & H).
  apply bind_Ok_inv in H as (d & Hd & H).
  apply bind_Ok_inv in H as (q & Hq & H); injection H as <-.
  apply series_Ok in Hn, Hd; subst n d.
  apply (series_div_map k) in Hq; exact Hq.
Qed.

Lemma zip_rows_map (h : row F -> cell F -> row F) (v : row F -> cell F)
    (rs : list (row F)) :
  zip_rows h rs (map v rs) = map (fun r => h r (v r)) rs.
Proof.
  induction rs as [|r rs IH]; simpl; [reflexivity | rewrite IH; reflexivity].
Qed.

Lemma groupby_sum_int_group (df out : frame F) (key : string) (aggs : list string)
    (k : string) :
  groupby_sum L df key aggs = Ok out ->
  filter (in_group (columns df) key k) (rows df) <> [] ->
  (forall c, In c aggs ->
     integer_cells (columns df) c (filter (in_group (columns df) key k) (rows df)) = true) ->
  exists gs : list (group F),
    out = mkFrame (key :: aggs) (map group_row gs) /\
    filter (fun g => String.eqb (fst g) k) gs
    = [(k, map (fun c => TInt (int_sum (columns df) c
                                 (filter (in_group (columns df) key k) (rows df)))) aggs)].
Proof.
  intros H Hne Hint.
  destruct (groupby_sum_Ok _ _ _ _ H) as (gs & -> & Hnd & Hgs).
  exists gs; split; [reflexivity|].
  apply filter_key_unique; [exact Hnd|].
  specialize (Hgs k); unfold expected_totals in Hgs.
  destruct (filter (in_group (columns df) key k) (rows df)) as [|r ms] eqn:Hms;
    [congruence|].
  unfold start_totals in Hgs.
  rewrite (sum_rows_ints (columns df) aggs (r :: ms) (fun _ => 0) Hint) in Hgs.
  simpl in Hgs; injection Hgs as <-; reflexivity.
Qed.


Lemma continent_row_of_sums (wr cd : frame F) (k : string) :
  continent_data L wr = Ok cd ->
  let members := filter (in_group (columns wr) "Continent" k) (rows wr) in
  members <> [] ->
  integer_cells (columns wr) "Confirmed" members = true ->
  integer_cells (columns wr) "Deaths" members = true ->
  integer_cells (columns wr) "Recovered" members = true ->
  integer_cells (columns wr) "Active" members = true ->
  integer_cells (columns wr) "Population" members = true ->
  columns cd = ["Continent"; "Confirmed"; "Deaths"; "Recovered"; "Active";
                "Population"; "Cases per Million"; "Deaths per Million"] /\
  filter (in_group (columns cd) "Continent" k) (rows cd)
  = [[CStr k;
      CInt (int_sum (columns wr) "Confirmed" members);
      CInt (int_sum (columns wr) "Deaths" members);
      CInt (int_sum (columns wr) "Recovered" members);
      CInt (int_sum (columns wr) "Active" members);
      CInt (int_sum (columns wr) "Population" members);
      ratio L 1000000 (int_sum (columns wr) "Confirmed" members)
                      (int_sum (columns wr) "Population" members);
      ratio L 1000000 (int_sum (columns wr) "Deaths" members)
                      (int_sum (columns wr) "Population" members)]].
Proof.
  intros H members Hne HC HD HR HA HP.
  unfold continent_data in H.
  apply bind_Ok_inv in H as (grouped & Hg & H).
  apply bind_Ok_inv in H as (cases & Hcases & H).
  apply bind_Ok_inv in H as (deaths & Hdeaths & H); injection H as <-.
  destruct (groupby_sum_int_group _ _ _ _ k Hg Hne) as (gs & -> & Hgs).
  { simpl; intros c [<-|[<-|[<-|[<-|[<-|[]]]]]]; assumption. }
  apply ratio_column_Ok in Hcases; subst cases.
  apply ratio_column_Ok in Hdeaths; subst deaths.
  split; [reflexivity|].
  unfold assign; simpl.
  rewrite !zip_rows_map, !map_map, filter_map_comm.
  match goal with
  | |- map _ (filter ?p gs) = _ =>
      replace (filter p gs) with (filter (fun g => String.eqb (fst g) k) gs)
        by (apply filter_ext; intros (k', ts); reflexivity)
  end.
  rewrite Hgs; reflexivity.
Qed.


End GroupFacts.

Section DenominatorFacts.

Context {F : Type} (L : library F).

Lemma add_cells_length (ts ts' : list (total F)) (vs : list (cell F)) :
  add_cells L ts vs = Ok ts' ->
  List.length ts = List.length vs -> List.length ts' = List.length vs.
Proof.
  revert ts' vs; induction ts as [|t ts IH]; intros ts' [|v vs]; simpl; intros H Hlen;
    try discriminate; try (injection H as <-; reflexivity).
  apply bind_Ok_inv in H as (t' & _ & H).
  apply bind_Ok_inv in H as (rest & Hrest & H); injection H as <-; simpl.
  f_equal; apply (IH _ _ Hrest); lia.
Qed.

Lemma sum_rows_length (cols aggs : list string) (ts ts' : list (total F))
    (ms : list (row F)) :
  sum_rows L cols aggs ts ms = Ok ts' ->
  List.length ts = List.length aggs -> List.length ts' = List.length aggs.
Proof.
  revert ts; induction ms as [|r ms IH]; simpl; intros ts H Hlen.
  - injection H as <-; exact Hlen.
  - apply bind_Ok_inv in H as (ts1 & Hadd & H).
    apply (IH ts1 H).
    rewrite <- (length_map (cell_or_nan cols r) aggs).
    apply (add_cells_length _ _ _ Hadd); rewrite length_map; exact Hlen.
Qed.

(** The total of the first summed column does not depend on the others. *)
Lemma sum_rows_first (cols : list string) (c : string) (aggs : list string)
    (t : total F) (ts ts' : list (total F)) (ms : list (row F)) :
  sum_rows L cols (c :: aggs) (t :: ts) ms = Ok ts' ->
  exists t' rest, ts' = t' :: rest /\ sum_rows L cols [c] [t] ms = Ok [t'].
Proof.
  revert t ts; induction ms as [|r ms IH]; simpl; intros t ts H.
  - injection H as <-; eauto.
  - apply bind_Ok_inv in H as (ts1 & Hadd & H).
    apply bind_Ok_inv in Hadd as (t1 & Ht1 & Hadd).
    apply bind_Ok_inv in Hadd as (rest1 & _ & Hadd); injection Hadd as <-.
    rewrite Ht1; simpl bind; apply (IH _ _ H).
Qed.

Lemma int_sum_at_least (cols : list string) (c : string) (k : Z) (ms : list (row F)) :
  0 <= k -> ms <> [] ->
  Forall (fun r => exists z, cell_or_nan cols r c = CInt z /\ k <= z) ms ->
  k <= int_sum cols c ms.
Proof.
  intros Hk Hne H; unfold int_sum.
  assert (Hnonneg : forall l : list (row F),
             Forall (fun r => exists z, cell_or_nan cols r c = CInt z /\ k <= z) l ->
             0 <= fold_right Z.add 0
                    (map (fun r : row F => int_value (cell_or_nan cols r c)) l)).
  { induction 1 as [|r l (z & Hz & Hle) _ IH]; simpl; [lia|].
    rewrite Hz; simpl; lia. }
  destruct H as [|r ms (z & Hz & Hle) Hms]; [congruence|].
  simpl; rewrite Hz; simpl; specialize (Hnonneg ms Hms); lia.
Qed.

Lemma integer_cells_of_Forall (cols : list string) (c : string) (k : Z) (ms : list (row F)) :
  Forall (fun r => exists z, cell_or_nan cols r c = CInt z /\ k <= z) ms ->
  integer_cells cols c ms = true.
Proof.
  unfold integer_cells; induction 1 as [|r l (z & Hz & _) _ IH]; simpl; [reflexivity|].
  rewrite Hz, IH; reflexivity.
Qed.

Lemma select_rows_incl (mask : list bool) (rs : list (row F)) (r : row F) :
  In r (select_rows mask rs) -> In r rs.
Proof.
  revert mask; induction rs as [|x rs IH]; intros [|b mask]; simpl; try tauto.
  destruct b; simpl; intros H; [destruct H as [H|H]; [left; exact H|]|];
    right; exact (IH _ H).
Qed.

Lemma latest_rows_rated (df cleaned ld ld' : frame F) :
  full_grouped_relevant L df = Ok cleaned ->
  latest_data cleaned = Ok ld ->
  with_mortality_rate L ld = Ok ld' ->
  (forall r f, In r (rows df) -> cell_or_nan (columns df) r "Confirmed" <> CFlt f) ->
  columns ld' = country_day_columns ++ ["Mortality Rate (%)"] /\
  Forall (rated L (columns ld') 15) (rows ld').
Proof.
  intros Hclean Hlatest Hrate Hint.
  apply full_grouped_relevant_Ok in Hclean; subst cleaned.
  unfold latest_data, latest_date in Hlatest.
  apply bind_Ok_inv in Hlatest as (latest & _ & Hlatest).
  apply bind_Ok_inv in Hlatest as (s & _ & Hlatest); injection Hlatest as <-.
  unfold with_mortality_rate in Hrate.
  apply bind_Ok_inv in Hrate as (rate & Hrate & H); injection H as <-.
  apply ratio_column_Ok in Hrate; subst rate.
  split; [reflexivity|].
  unfold assign; simpl; rewrite zip_rows_map.
  apply Forall_forall; intros r' Hr'.
  apply in_map_iff in Hr' as (p & <- & Hp).
  apply select_rows_incl, in_map_iff in Hp as (r0 & <- & Hr0).
  apply filter_In in Hr0 as (Hin & Hmeets).
  unfold meets_threshold in Hmeets; unfold rated, project_row; simpl map.
  specialize (Hint r0).
  set (confirmed := cell_or_nan (columns df) r0 "Confirmed") in *.
  set (deaths := cell_or_nan (columns df) r0 "Deaths").
  clearbody confirmed deaths; simpl.
  destruct confirmed as [z|t|d| |f]; try discriminate.
  - exists z; repeat split; apply Z.leb_le; exact Hmeets.
  - exfalso; exact (Hint f Hin eq_refl).
Qed.

Lemma region_rows_rated (ld' rd : frame F) :
  columns ld' = country_day_columns ++ ["Mortality Rate (%)"] ->
  Forall (rated L (columns ld') 15) (rows ld') ->
  region_data L ld' = Ok rd ->
  Forall (rated L (columns rd) 15) (rows rd).
Proof.
  intros Hcols Hrows H.
  unfold region_data in H.
  apply bind_Ok_inv in H as (grouped & Hg & H).
  apply bind_Ok_inv in H as (rate & Hrate & H); injection H as <-.
  destruct (groupby_sum_Ok _ _ _ _ _ Hg) as (gs & -> & Hnd & Hgs).
  apply ratio_column_Ok in Hrate; subst rate.
  unfold assign; simpl; rewrite zip_rows_map, map_map.
  apply Forall_forall; intros r Hr.
  apply in_map_iff in Hr as ((k, ts) & <- & Hin).
  apply (lookup_group_In _ _ _ Hnd) in Hin.
  specialize (Hgs k); rewrite Hin in Hgs; unfold expected_totals in Hgs.
  set (members := filter (in_group (columns ld') "WHO Region" k) (rows ld')) in *.
  assert (Hmem : Forall (rated L (columns ld') 15) members).
  { apply Forall_forall; intros m Hm; apply filter_In in Hm as (Hm & _).
    rewrite Forall_forall in Hrows; auto. }
  destruct members as [|m ms] eqn:Hms; [discriminate|].
  apply bind_Ok_inv in Hgs as (ts' & Hsum & Hts); injection Hts as ->.
  pose proof (sum_rows_length _ _ _ _ _ Hsum eq_refl) as Hlen.
  apply sum_rows_first in Hsum as (t1 & rest & -> & Hfirst).
  assert (Hconf : Forall (fun r => exists z,
                    cell_or_nan (columns ld') r "Confirmed" = CInt z /\ 15 <= z)
                    (m :: ms)).
  { eapply Forall_impl; [|exact Hmem].
    intros a (z & Hz & Hle & _); eauto. }
  assert (Ht1 : Ok [t1]
                 = Ok [TInt (F:=F) (0 + int_sum (columns ld') "Confirmed" (m :: ms))]).
  { rewrite <- Hfirst.
    apply (sum_rows_ints L (columns ld') ["Confirmed"] (m :: ms) (fun _ => 0)).
    intros c [<-|[]]; eapply integer_cells_of_Forall; exact Hconf. }
  injection Ht1 as ->.
  destruct rest as [|t2 [|t3 [|t4 [|t5 rest]]]]; try discriminate.
  exists (int_sum (columns ld') "Confirmed" (m :: ms)); repeat split.
  apply int_sum_at_least; [lia | discriminate | exact Hconf].
Qed.


End DenominatorFacts.

Section SortFacts.

Context {A : Type} (leb : A -> A -> bool).

Lemma insert_sorted_perm (x : A) (l : list A) :
  Permutation (insert_sorted leb x l) (x :: l).
Proof.
  induction l as [|y l IH]; simpl; [reflexivity|].
  destruct (leb x y); [reflexivity|].
  rewrite IH; apply perm_swap.
Qed.

Lemma stable_sort_perm (l : list A) : Permutation (stable_sort leb l) l.
Proof.
  induction l as [|x l IH]; simpl; [reflexivity|].
  rewrite insert_sorted_perm; constructor; exact IH.
Qed.

Lemma insert_sorted_HdRel (a x : A) (l : list A) :
  leb a x = true ->
  HdRel (fun a b => leb a b = true) a l ->
  HdRel (fun a b => leb a b = true) a (insert_sorted leb x l).
Proof.
  intros Hax Hal; destruct l as [|y l]; simpl; [constructor; exact Hax|].
  destruct (leb x y); constructor; [exact Hax|].
  inversion Hal; assumption.
Qed.

Lemma insert_sorted_Sorted (x : A) (l : list A) :
  (forall y, In y l -> leb x y = true \/ leb y x = true) ->
  Sorted (fun a b => leb a b = true) l ->
  Sorted (fun a b => leb a b = true) (insert_sorted leb x l).
Proof.
  intros Htot Hs; induction Hs as [|y l Hs IH Hhd]; simpl.
  - repeat constructor.
  - destruct (leb x y) eqn:Hxy.
    + repeat constructor; assumption.
    + constructor.
      * apply IH; intros z Hz; apply Htot; right; exact Hz.
      * apply insert_sorted_HdRel; [|exact Hhd].
        destruct (Htot y (or_introl eq_refl)); congruence.
Qed.

Lemma stable_sort_Sorted (l : list A) :
  (forall a b, In a l -> In b l -> leb a b = true \/ leb b a = true) ->
  Sorted (fun a b => leb a b = true) (stable_sort leb l).
Proof.
  induction l as [|x l IH]; simpl; intros Htot; [constructor|].
  apply insert_sorted_Sorted.
  - intros y Hy; apply Htot; [left; reflexivity | right].
    apply (Permutation_in _ (stable_sort_perm l)); exact Hy.
  - apply IH; intros a b Ha Hb; apply Htot; right; assumption.
Qed.

End SortFacts.

Section SortedLists.

Context {A : Type}.

Lemma Sorted_snoc (R : A -> A -> Prop) (l : list A) (x : A) :
  Sorted R l -> (l <> [] -> R (last l x) x) -> Sorted R (l ++ [x]).
Proof.
  induction 1 as [|a l Hs IH Hhd]; simpl; intros Hlast; [repeat constructor|].
  destruct l as [|b l].
  - repeat constructor; apply Hlast; discriminate.
  - constructor.
    + apply IH; intros _; apply Hlast; discriminate.
    + inversion Hhd; constructor; assumption.
Qed.

Lemma Sorted_rev (R : A -> A -> Prop) (l : list A) :
  Sorted R l -> Sorted (fun a b => R b a) (rev l).
Proof.
  induction 1 as [|a l Hs IH Hhd]; simpl; [constructor|].
  apply Sorted_snoc; [exact IH|].
  intros Hne; destruct l as [|b l]; [simpl in Hne; congruence|].
  inversion Hhd as [|? ? Hab]; subst.
  simpl; rewrite last_last; exact Hab.
Qed.

(** Two descending arrangements of the same elements agree when no two
    elements share a key. *)
Lemma descending_unique (key : A -> Z) (l1 l2 : list A) :
  Permutation l1 l2 ->
  NoDup (map key l1) ->
  StronglySorted (fun a b => key b <= key a) l1 ->
  StronglySorted (fun a b => key b <= key a) l2 ->
  l1 = l2.
Proof.
  revert l2; induction l1 as [|a l1 IH]; intros l2 Hperm Hnd H1 H2.
  - apply Permutation_nil in Hperm; congruence.
  - destruct l2 as [|b l2];
      [apply Permutation_sym, Permutation_nil in Hperm; discriminate|].
    inversion H1 as [|? ? Hs1 Hall1]; inversion H2 as [|? ? Hs2 Hall2]; subst.
    inversion Hnd as [|? ? Hnin Hnd']; subst.
    assert (Hab : a = b).
    { assert (Hin_b : In b (a :: l1))
        by (apply (Permutation_in _ (Permutation_sym Hperm)); left; reflexivity).
      assert (Hin_a : In a (b :: l2))
        by (apply (Permutation_in _ Hperm); left; reflexivity).
      destruct Hin_b as [Hb|Hb]; [exact Hb|].
      destruct Hin_a as [Ha|Ha]; [congruence|].
      rewrite Forall_forall in Hall1, Hall2.
      assert (key a = key b) by (specialize (Hall1 b Hb); specialize (Hall2 a Ha); lia).
      exfalso; apply Hnin; apply in_map_iff; exists b; auto. }
    subst b; f_equal; apply IH; auto.
    apply Permutation_cons_inv in Hperm; exact Hperm.
Qed.

End SortedLists.

Section RankingFacts.

Context {F : Type} (L : library F).

Lemma sort_values_desc_Ok (df out : frame F) (c : string) :
  sort_values_desc L df c = Ok out ->
  out = mkFrame (columns df) (sort_rows L (row_desc_leb L (columns df) c) (rows df)).
Proof.
  unfold sort_values_desc; intros H.
  apply bind_Ok_inv in H as (s & _ & H).
  destruct (one_kind None s); congruence.
Qed.

Lemma row_desc_leb_int (cols : list string) (c : string) (a b : row F) (x y : Z) :
  cell_or_nan cols a c = CInt x ->
  cell_or_nan cols b c = CInt y ->
  (row_desc_leb L cols c a b = true <-> y <= x).
Proof.
  intros Ha Hb; unfold row_desc_leb; rewrite Ha, Hb; simpl; apply Z.leb_le.
Qed.

Lemma int_keys_total (cols : list string) (c : string) (l : list (row F)) :
  Forall (fun r => exists z, cell_or_nan cols r c = CInt z) l ->
  forall a b, In a l -> In b l ->
    row_desc_leb L cols c a b = true \/ row_desc_leb L cols c b a = true.
Proof.
  intros Hint a b Ha Hb; rewrite Forall_forall in Hint.
  destruct (Hint a Ha) as (x & Hx); destruct (Hint b Hb) as (y & Hy).
  rewrite (row_desc_leb_int _ _ _ _ _ _ Hx Hy), (row_desc_leb_int _ _ _ _ _ _ Hy Hx).
  lia.
Qed.

Lemma int_keys_descending (cols : list string) (c : string) (l : list (row F)) :
  Forall (fun r => exists z, cell_or_nan cols r c = CInt z) l ->
  Sorted (fun a b => row_desc_leb L cols c a b = true) l ->
  StronglySorted (fun a b => int_value (cell_or_nan cols b c)
                             <= int_value (cell_or_nan cols a c)) l.
Proof.
  intros Hint Hs; apply Sorted_StronglySorted; [intros x y z; lia|].
  induction Hs as [|a l Hs IH Hhd]; [constructor|].
  inversion Hint as [|? ? (x & Hx) Hint']; subst.
  constructor; [auto|].
  destruct Hhd as [|b l Hab]; constructor.
  inversion Hint' as [|? ? (y & Hy) _]; subst.
  rewrite Hx, Hy; simpl; apply (row_desc_leb_int _ _ _ _ _ _ Hx Hy); exact Hab.
Qed.

Lemma contract_sort_is_stable (cols : list string) (c : string) (l : list (row F)) :
  sort_contract L ->
  distinct_integer_keys cols c l ->
  sort_rows L (row_desc_leb L cols c) l = stable_sort (row_desc_leb L cols c) l.
Proof.
  intros Hsort (Hint & Hnd).
  destruct (Hsort (row_desc_leb L cols c) l) as (Hperm & Hsorted).
  pose proof (stable_sort_perm (row_desc_leb L cols c) l) as Hperm'.
  assert (Hall : forall l', Permutation l' l ->
            Forall (fun r => exists z, cell_or_nan cols r c = CInt z) l').
  { intros l' Hl'; apply Forall_forall; intros r Hr.
    rewrite Forall_forall in Hint; apply Hint.
    apply (Permutation_in _ Hl'); exact Hr. }
  apply (descending_unique (fun r => int_value (cell_or_nan cols r c))).
  - rewrite Hperm, Hperm'; reflexivity.
  - eapply Permutation_NoDup; [|exact Hnd].
    apply Permutation_map, Permutation_sym; exact Hperm.
  - apply int_keys_descending; [apply Hall; exact Hperm|].
    apply Hsorted, int_keys_total; exact Hint.
  - apply int_keys_descending; [apply Hall; exact Hperm'|].
    apply stable_sort_Sorted, int_keys_total; exact Hint.
Qed.

Lemma sort_values_desc_ranked (df sorted : frame F) (c : string) (n : nat) :
  sort_contract L ->
  sort_values_desc L df c = Ok sorted ->
  columns sorted = columns df /\
  ranked L (columns df) c n (rows df) (firstn n (rows sorted)).
Proof.
  intros Hsort H; apply sort_values_desc_Ok in H; subst sorted; simpl.
  split; [reflexivity|].
  destruct (Hsort (row_desc_leb L (columns df) c) (rows df)) as (Hperm & Hsorted).
  eexists; repeat split; [exact Hperm | exact Hsorted |].
  intros Hkeys; rewrite contract_sort_is_stable; auto.
Qed.


End RankingFacts.

Lemma exact_library_contract : sort_contract exact_library.
Proof.
  intros leb l; split; simpl.
  - apply stable_sort_perm.
  - apply stable_sort_Sorted.
Qed.

Lemma reversing_library_contract : sort_contract reversing_library.
Proof.
  intros leb l; split; simpl.
  - rewrite <- Permutation_rev; apply stable_sort_perm.
  - intros Htot.
    apply (Sorted_rev (fun a b => leb b a = true)).
    apply (stable_sort_Sorted (fun a b => leb b a)).
    intros a b Ha Hb; destruct (Htot a b Ha Hb); auto.
Qed.


Section RunFacts.

Context {F : Type} (L : library F) (reader : string -> result (frame F)).

Lemma read_csv_unavailable (path : string) (fs : filesystem) :
  unavailable reader fs path -> exists e, read_csv reader path fs = (Raise e, fs).
Proof.
  unfold unavailable, read_csv; destruct (fs path) as [[text|]|]; intros H.
  - destruct H as (e & ->); eauto.
  - eauto.
  - eauto.
Qed.

Lemma read_csv_cases (path : string) (fs : filesystem) :
  (exists df, read_csv reader path fs = (Ok df, fs)) \/
  (exists e, read_csv reader path fs = (Raise e, fs)).
Proof.
  unfold read_csv; destruct (fs path) as [[text|]|]; eauto.
  destruct (reader text); eauto.
Qed.

Lemma load_unavailable (fs : filesystem) (path : string) :
  In path input_paths -> unavailable reader fs path ->
  exists e, load reader fs = (Raise e, fs).
Proof.
  intros Hin Hun; apply read_csv_unavailable in Hun as (e & He).
  unfold load, io_bind.
  destruct (read_csv_cases "attached_assets/day_wise.csv" fs) as [(d1 & H1)|(e1 & H1)];
    rewrite H1; [|eauto].
  destruct (read_csv_cases "attached_assets/full_grouped.csv" fs) as [(d2 & H2)|(e2 & H2)];
    rewrite H2; [|eauto].
  destruct (read_csv_cases "attached_assets/usa_county_wise.csv" fs) as [(d3 & H3)|(e3 & H3)];
    rewrite H3; [|eauto].
  destruct (read_csv_cases "attached_assets/worldometer_data.csv" fs) as [(d4 & H4)|(e4 & H4)];
    rewrite H4; [|eauto].
  simpl in Hin; destruct Hin as [<-|[<-|[<-|[<-|[]]]]]; congruence.
Qed.

(** C8.  If one of the four input files is missing, cannot be opened
    or does not parse, the run ends with the exception of the load
    cell, and the file system is as before the run: none of the four
    output files has been written. *)
Theorem missing_input_aborts_without_output (fs : filesystem) (path : string) :
  In path input_paths ->
  unavailable reader fs path ->
  exists e : error,
    load reader fs = (Raise e, fs) /\
    notebook L reader fs = (Raise e, fs) /\
    forall p, In p output_paths -> snd (notebook L reader fs) p = fs p.
Proof.
  intros Hin Hun; destruct (load_unavailable fs path Hin Hun) as (e & He).
  exists e; split; [exact He|].
  assert (Hrun : notebook L reader fs = (Raise e, fs))
    by (unfold notebook, io_bind; rewrite He; reflexivity).
  split; [exact Hrun | intros p _; rewrite Hrun; reflexivity].
Qed.

Lemma load_Ok (fs fs1 : filesystem) (input : loaded) :
  load reader fs = (Ok input, fs1) ->
  fs1 = fs /\
  read_csv reader "attached_assets/day_wise.csv" fs = (Ok (day_wise_df input), fs).
Proof.
  unfold load, io_bind.
  destruct (read_csv_cases "attached_assets/day_wise.csv" fs) as [(d1 & H1)|(e1 & H1)];
    rewrite H1; [|discriminate].
  destruct (read_csv_cases "attached_assets/full_grouped.csv" fs) as [(d2 & H2)|(e2 & H2)];
    rewrite H2; [|discriminate].
  destruct (read_csv_cases "attached_assets/usa_county_wise.csv" fs) as [(d3 & H3)|(e3 & H3)];
    rewrite H3; [|discriminate].
  destruct (read_csv_cases "attached_assets/worldometer_data.csv" fs) as [(d4 & H4)|(e4 & H4)];
    rewrite H4; [|discriminate].
  unfold io_lift; intros [= <- <-]; auto.
Qed.

(** C7 (as the code has it).  After a run that succeeds,
    processed_day_wise.csv holds the table loaded from day_wise.csv with
    the same columns and the same rows in the same order, every cell as
    loaded except the Date, which is the loaded Date parsed by
    [pd.to_datetime]; it is written as a header record and one record
    per row, comma-separated, with no index column. *)
Theorem processed_day_wise_keeps_all_but_dates (fs fs' : filesystem) :
  notebook L reader fs = (Ok tt, fs') ->
  exists daily written : frame F,
    read_csv reader "attached_assets/day_wise.csv" fs = (Ok daily, fs) /\
    fs' "processed_day_wise.csv" = Some (Readable (to_csv L written)) /\
    to_csv L written
    = render_records (columns written :: map (map (format_cell L)) (rows written)) /\
    columns written = columns daily /\
    Forall2 (date_parsed L (columns daily)) (rows daily) (rows written).
Proof.
  unfold notebook, io_bind; intros H.
  destruct (load reader fs) as [[input|e] fs1] eqn:Hload; [|discriminate].
  apply load_Ok in Hload as (-> & Hread).
  unfold io_lift in H.
  destruct (analyse L input) as [out|e] eqn:Han; [|discriminate].
  injection H as <-.
  exists (day_wise_df input), (processed_day_wise out).
  split; [exact Hread|]; split; [reflexivity|]; split; [reflexivity|].
  unfold analyse in Han.
  apply bind_Ok_inv in Han as (dw & Hdw & Han).
  repeat (apply bind_Ok_inv in Han as (? & _ & Han)).
  injection Han as <-; simpl.
  apply convert_date_column_Ok; exact Hdw.
Qed.

End RunFacts.

(** C7 (as stated) fails: with the dates of day_wise.csv spelled
    month/day/year, the run succeeds, the table is loaded with the Date
    texts 1/22/20 and 1/23/20, and processed_day_wise.csv holds the
    dates 2020-01-22 and 2020-01-23: the written Date cells and the
    written file differ from what was loaded. *)
Lemma processed_day_wise_dates_rewritten :
  fst (notebook exact_library (read_csv_text exact_library)
         (example_files example_day_wise_us_dates)) = Ok tt /\
  fst (read_csv (read_csv_text exact_library) "attached_assets/day_wise.csv"
         (example_files example_day_wise_us_dates))
  = Ok example_day_wise_us_dates /\
  snd (notebook exact_library (read_csv_text exact_library)
         (example_files example_day_wise_us_dates)) "processed_day_wise.csv"
  = Some (Readable (to_csv exact_library
            (mkFrame (columns (@example_day_wise_us_dates Q))
               [ [CDate 18283; CInt 555; CInt 17; CInt 28; CInt 510; CInt 0;
                  CInt 0; CInt 0];
                 [CDate 18284; CInt 654; CInt 18; CInt 30; CInt 606; CInt 99;
                  CInt 1; CInt 2] ]))) /\
  map (format_cell exact_library) [CDate 18283; CDate 18284]
  = ["2020-01-22"; "2020-01-23"] /\
  map (fun r => cell_or_nan (columns (@example_day_wise_us_dates Q)) r "Date")
    (rows (@example_day_wise_us_dates Q))
  = [CStr "1/22/20"; CStr "1/23/20"] /\
  snd (notebook exact_library (read_csv_text exact_library)
         (example_files example_day_wise_us_dates)) "processed_day_wise.csv"
  <> example_files example_day_wise_us_dates "attached_assets/day_wise.csv".
Proof.
  repeat split; try (vm_compute; reflexivity).
  vm_compute; discriminate.
Qed.

Section TokenizerFacts.

Lemma append_assoc (a b c : string) : ((a ++ b) ++ c = a ++ (b ++ c))%string.
Proof.
  induction a as [|x a IH]; simpl; [reflexivity | rewrite IH; reflexivity].
Qed.

Lemma append_nil_r (a : string) : (a ++ "" = a)%string.
Proof.
  induction a as [|x a IH]; simpl; [reflexivity | rewrite IH; reflexivity].
Qed.

Lemma push_char_append (cur : string) (c : ascii) (f : string) :
  (push_char cur c ++ f = cur ++ String c f)%string.
Proof.
  unfold push_char; rewrite append_assoc; reflexivity.
Qed.

Lemma is_special_false (c : ascii) :
  is_special c = false ->
  Ascii.eqb c "," = false /\ Ascii.eqb c dquote = false /\
  Ascii.eqb c line_feed = false /\ Ascii.eqb c carriage_return = false.
Proof.
  unfold is_special; intros H.
  repeat (apply orb_false_iff in H as (H & ?)); auto.
Qed.

Lemma in_field_plain (c : ascii) :
  is_special c = false -> in_field c = (InField, Push).
Proof.
  intros H; apply is_special_false in H as (H1 & H2 & H3 & H4).
  unfold in_field; rewrite H1, H3, H4; reflexivity.
Qed.

Lemma start_field_plain (c : ascii) :
  is_special c = false -> start_field c = (InField, Push).
Proof.
  intros H; unfold start_field.
  rewrite (proj1 (proj2 (is_special_false c H))); apply in_field_plain; exact H.
Qed.

Lemma tokenize_plain (f : string) (cur : string) (rec : list string) (rest : string) :
  has_special f = false ->
  tokenize InField cur rec (f ++ rest) = tokenize InField (cur ++ f) rec rest.
Proof.
  revert cur; induction f as [|c f IH]; simpl; intros cur H.
  - rewrite append_nil_r; reflexivity.
  - apply orb_false_iff in H as (Hc & Hf).
    rewrite (in_field_plain c Hc), (IH _ Hf), push_char_append; reflexivity.
Qed.

Lemma tokenize_quoted (f : string) (cur : string) (rec : list string) (rest : string) :
  tokenize InQuoted cur rec (double_quotes f ++ String dquote rest)
  = tokenize QuoteInQuoted (cur ++ f) rec rest.
Proof.
  revert cur; induction f as [|c f IH]; simpl; intros cur.
  - rewrite append_nil_r; reflexivity.
  - destruct (Ascii.eqb c dquote) eqn:Hc; simpl.
    + apply Ascii.eqb_eq in Hc; subst c; simpl.
      rewrite IH, push_char_append; reflexivity.
    + rewrite Hc, IH, push_char_append; reflexivity.
Qed.

Lemma close_in_field (d : ascii) (cur : string) (rec : list string) (rest : string) :
  d = ","%char \/ d = line_feed ->
  tokenize InField cur rec (String d rest) = after_field d cur rec rest.
Proof.
  intros [->| ->]; reflexivity.
Qed.

Lemma close_quoted (d : ascii) (cur : string) (rec : list string) (rest : string) :
  d = ","%char \/ d = line_feed ->
  tokenize QuoteInQuoted cur rec (String d rest) = after_field d cur rec rest.
Proof.
  intros [->| ->]; reflexivity.
Qed.

Lemma close_start_field (d : ascii) (rec : list string) (rest : string) :
  d = ","%char \/ d = line_feed ->
  tokenize StartField "" rec (String d rest) = after_field d "" rec rest.
Proof.
  intros [->| ->]; reflexivity.
Qed.

Lemma tokenize_field (f : string) (d : ascii) (rec : list string) (rest : string) :
  d = ","%char \/ d = line_feed ->
  tokenize StartField "" rec (quote_field f ++ String d rest)
  = after_field d f rec rest.
Proof.
  intros Hd; unfold quote_field.
  destruct (has_special f) eqn:Hf.
  - simpl; rewrite append_assoc; simpl.
    rewrite tokenize_quoted; simpl; apply close_quoted; exact Hd.
  - destruct f as [|c f]; simpl.
    + apply close_start_field; exact Hd.
    + simpl in Hf; apply orb_false_iff in Hf as (Hc & Hf).
      rewrite (start_field_plain c Hc), (tokenize_plain _ _ _ _ Hf).
      apply close_in_field; exact Hd.
Qed.

Lemma tokenize_whitespace_line (f : string) (cur : string) (rec : list string)
    (rest : string) :
  has_special f = false ->
  tokenize WhitespaceLine cur rec (f ++ String "," rest)
  = tokenize StartField "" (rec ++ [(cur ++ f)%string]) rest.
Proof.
  revert cur; induction f as [|c f IH]; simpl; intros cur H.
  - rewrite append_nil_r; reflexivity.
  - apply orb_false_iff in H as (Hc & Hf).
    destruct (is_special_false c Hc) as (_ & _ & Hlf & Hcr).
    rewrite Hlf, Hcr.
    destruct (is_blank c).
    + rewrite (IH _ Hf), push_char_append; reflexivity.
    + rewrite (in_field_plain c Hc), (tokenize_plain _ _ _ _ Hf), push_char_append.
      reflexivity.
Qed.

Lemma tokenize_first_field (f : string) (rest : string) :
  tokenize StartRecord "" [] (quote_field f ++ String "," rest)
  = tokenize StartField "" [f] rest.
Proof.
  unfold quote_field.
  destruct (has_special f) eqn:Hf.
  - simpl; rewrite append_assoc; simpl.
    rewrite tokenize_quoted; reflexivity.
  - destruct f as [|c f]; simpl; [reflexivity|].
    simpl in Hf; apply orb_false_iff in Hf as (Hc & Hf).
    destruct (is_special_false c Hc) as (_ & _ & Hlf & Hcr).
    unfold start_record; rewrite Hlf, Hcr.
    destruct (is_blank c).
    + rewrite (tokenize_whitespace_line _ _ _ _ Hf); reflexivity.
    + rewrite (start_field_plain c Hc), (tokenize_plain _ _ _ _ Hf).
      reflexivity.
Qed.

Lemma tokenize_fields (fields : list string) (rec : list string) (rest : string) :
  fields <> [] ->
  tokenize StartField "" rec
    (join_fields (map quote_field fields) ++ String line_feed rest)
  = rest' <- tokenize StartRecord "" [] rest ;; Ok ((rec ++ fields) :: rest').
Proof.
  revert rec; induction fields as [|f fields IH]; intros rec Hne; [congruence|].
  destruct fields as [|g fields].
  - simpl; rewrite tokenize_field by (right; reflexivity); reflexivity.
  - change (join_fields (map quote_field (f :: g :: fields)))
      with (quote_field f ++ String "," (join_fields (map quote_field (g :: fields))))%string.
    rewrite append_assoc; simpl append at 2.
    rewrite tokenize_field by (left; reflexivity).
    unfold after_field; simpl Ascii.eqb; cbv iota.
    rewrite IH by discriminate.
    rewrite <- app_assoc; reflexivity.
Qed.

Lemma tokenize_record (record : list string) (rest : string) :
  (2 <= List.length record)%nat ->
  tokenize StartRecord "" [] (render_record record ++ rest)
  = rest' <- tokenize StartRecord "" [] rest ;; Ok (record :: rest').
Proof.
  destruct record as [|f [|g fields]]; simpl List.length; try lia; intros _.
  unfold render_record.
  replace ((join_fields (map quote_field (f :: g :: fields))
            ++ String line_feed "") ++ rest)%string
    with (quote_field f
          ++ String "," (join_fields (map quote_field (g :: fields))
                         ++ String line_feed rest))%string.
  - rewrite tokenize_first_field, tokenize_fields by discriminate; reflexivity.
  - change (join_fields (map quote_field (f :: g :: fields)))
      with (quote_field f
            ++ String "," (join_fields (map quote_field (g :: fields))))%string.
    rewrite !append_assoc; reflexivity.
Qed.

(** Reading back what [render_records] writes gives the records, when
    each of them has two fields or more. *)
Lemma read_records_render (records : list (list string)) :
  Forall (fun record => (2 <= List.length record)%nat) records ->
  read_records (render_records records) = Ok records.
Proof.
  unfold read_records; induction 1 as [|record records Hlen _ IH]; simpl.
  - reflexivity.
  - rewrite (tokenize_record _ _ Hlen), IH; reflexivity.
Qed.

End TokenizerFacts.

Section NumeralFacts.

Lemma string_of_uint_chars (d : Decimal.uint) :
  all_chars digit_or_minus (NilEmpty.string_of_uint d) = true.
Proof.
  induction d; simpl; auto.
Qed.

Lemma string_of_Z_chars (z : Z) : all_chars digit_or_minus (string_of_Z z) = true.
Proof.
  unfold string_of_Z, NilZero.string_of_int, NilZero.string_of_uint.
  destruct (Z.to_int z) as [d|d]; destruct d; simpl; auto using string_of_uint_chars.
Qed.

Lemma string_of_Z_nonempty (z : Z) : string_of_Z z <> "".
Proof.
  unfold string_of_Z, NilZero.string_of_int, NilZero.string_of_uint.
  destruct (Z.to_int z) as [d|d]; destruct d; simpl; discriminate.
Qed.

Lemma numeral_not_na (s : string) :
  all_chars digit_or_minus s = true -> s <> "" -> is_na s = false.
Proof.
  intros Hchars Hne; unfold is_na, na_values; simpl existsb.
  repeat match goal with
         | |- context [String.eqb s ?t] =>
             destruct (String.eqb_spec s t) as [->|_];
             [try congruence; vm_compute in Hchars; discriminate|]
         end.
  reflexivity.
Qed.

Lemma digit_or_minus_not_space (c : ascii) :
  digit_or_minus c = true -> is_space c = false /\ Ascii.eqb c "+" = false.
Proof.
  destruct c as [[] [] [] [] [] [] [] []]; vm_compute; intros H;
    try discriminate; split; reflexivity.
Qed.

Lemma trim_left_numeral (s : string) :
  all_chars digit_or_minus s = true -> trim_left s = s.
Proof.
  destruct s as [|c s]; simpl; [reflexivity|].
  intros H; apply andb_true_iff in H as (Hc & _).
  rewrite (proj1 (digit_or_minus_not_space c Hc)); reflexivity.
Qed.

Lemma trim_right_numeral (s : string) :
  all_chars digit_or_minus s = true -> trim_right s = s.
Proof.
  induction s as [|c s IH]; simpl; [reflexivity|].
  intros H; apply andb_true_iff in H as (Hc & Hs).
  rewrite (IH Hs), (proj1 (digit_or_minus_not_space c Hc)).
  destruct s; reflexivity.
Qed.

Lemma parse_Z_string_of_Z (z : Z) : parse_Z (string_of_Z z) = Some z.
Proof.
  unfold parse_Z, string_of_Z.
  rewrite NilZero.isi.
  - simpl; f_equal; apply DecimalZ.of_to.
  - destruct z; simpl; try discriminate.
    intros [= H]; exact (DecimalPos.Unsigned.to_uint_nonnil _ H).
  - destruct z; simpl; try discriminate.
    intros [= H]; exact (DecimalPos.Unsigned.to_uint_nonnil _ H).
Qed.

Lemma parse_integer_string_of_Z (z : Z) : parse_integer (string_of_Z z) = Some z.
Proof.
  unfold parse_integer.
  pose proof (string_of_Z_chars z) as Hchars.
  rewrite (trim_left_numeral _ Hchars), (trim_right_numeral _ Hchars).
  pose proof (parse_Z_string_of_Z z) as Hparse.
  destruct (string_of_Z z) as [|c s] eqn:Hs; [discriminate|].
  simpl in Hchars; apply andb_true_iff in Hchars as (Hc & _).
  rewrite (proj2 (digit_or_minus_not_space c Hc)); exact Hparse.
Qed.

Lemma string_of_Z_not_na (z : Z) : is_na (string_of_Z z) = false.
Proof.
  apply numeral_not_na; [apply string_of_Z_chars | apply string_of_Z_nonempty].
Qed.

End NumeralFacts.

Section ReloadFacts.

Context {F : Type} (L : library F).

Lemma format_cell_nth (j : nat) (r : row F) :
  nth j (map (format_cell L) r) "" = format_cell L (nth j r CNaN).
Proof.
  apply (map_nth (format_cell L) r CNaN j).
Qed.

Lemma column_fields_format (j : nat) (rs : list (row F)) :
  column_fields j (map (map (format_cell L)) rs)
  = map (format_cell L) (column_cells j rs).
Proof.
  unfold column_fields, column_cells; rewrite !map_map.
  apply map_ext; intros r; apply format_cell_nth.
Qed.

Lemma infer_integers (cells : list (cell F)) :
  forallb integer_or_missing cells = true ->
  infer L (map (format_cell L) cells) = IntColumn.
Proof.
  intros H; unfold infer.
  replace (forallb (fun s => is_na s || reads_as_integer s)
             (map (format_cell L) cells)) with true; [reflexivity|].
  symmetry; rewrite forallb_forall in *; intros s Hs.
  apply in_map_iff in Hs as (v & <- & Hv); specialize (H v Hv).
  destruct v; simpl in *; try discriminate; [|reflexivity].
  unfold reads_as_integer; rewrite parse_integer_string_of_Z; apply orb_true_r.
Qed.

Lemma convert_integer (v : cell F) :
  integer_or_missing v = true ->
  convert L IntColumn (format_cell L v) = reloaded_cell L v.
Proof.
  destruct v; simpl; try discriminate; intros _; [|reflexivity].
  unfold convert; rewrite string_of_Z_not_na, parse_integer_string_of_Z; reflexivity.
Qed.

Lemma plain_text_field (v : cell F) :
  plain_text L v = true ->
  is_na (format_cell L v) = false /\ reads_as_number L (format_cell L v) = false.
Proof.
  unfold plain_text; destruct v; simpl; try discriminate; intros H;
    apply andb_true_iff in H as (H1 & H2);
    apply negb_true_iff in H1, H2; auto.
Qed.

Lemma infer_texts (cells : list (cell F)) :
  existsb (plain_text L) cells = true ->
  infer L (map (format_cell L) cells) = TextColumn.
Proof.
  intros H; apply existsb_exists in H as (v & Hv & Hplain).
  apply plain_text_field in Hplain as (Hna & Hnum).
  assert (Hint : reads_as_integer (format_cell L v) = false).
  { unfold reads_as_number in Hnum; apply orb_false_iff in Hnum; tauto. }
  unfold infer.
  replace (forallb (fun s => is_na s || reads_as_integer s)
             (map (format_cell L) cells)) with false.
  - replace (forallb (fun s => is_na s || reads_as_number L s)
               (map (format_cell L) cells)) with false; [reflexivity|].
    symmetry; apply not_true_iff_false; intros Hall.
    rewrite forallb_forall in Hall.
    specialize (Hall (format_cell L v) (in_map _ _ _ Hv)).
    rewrite Hna, Hnum in Hall; discriminate.
  - symmetry; apply not_true_iff_false; intros Hall.
    rewrite forallb_forall in Hall.
    specialize (Hall (format_cell L v) (in_map _ _ _ Hv)).
    rewrite Hna, Hint in Hall; discriminate.
Qed.

Lemma convert_text (v : cell F) :
  text_or_missing L v = true ->
  convert L TextColumn (format_cell L v) = reloaded_cell L v.
Proof.
  unfold text_or_missing, convert; destruct v; simpl; try discriminate;
    try reflexivity; intros H; apply negb_true_iff in H; rewrite H; reflexivity.
Qed.

(** In a column that reloads, every cell comes back as it is written. *)
Lemma convert_column (cells : list (cell F)) (v : cell F) :
  column_reloads L cells = true -> In v cells ->
  convert L (infer L (map (format_cell L) cells)) (format_cell L v)
  = reloaded_cell L v.
Proof.
  unfold column_reloads; intros H Hv.
  apply orb_true_iff in H as [Hint|Htext].
  - rewrite (infer_integers _ Hint); apply convert_integer.
    rewrite forallb_forall in Hint; auto.
  - apply andb_true_iff in Htext as (Hall & Hex).
    rewrite (infer_texts _ Hex); apply convert_text.
    rewrite forallb_forall in Hall; auto.
Qed.

Lemma map_seq_nth {A B : Type} (g : A -> B) (d : A) (h : nat -> B) (r : list A) :
  (forall j, (j < List.length r)%nat -> h j = g (nth j r d)) ->
  map h (seq 0 (List.length r)) = map g r.
Proof.
  revert h; induction r as [|x r IH]; simpl; intros h Hh; [reflexivity|].
  rewrite (Hh 0%nat) by lia; simpl; f_equal.
  rewrite <- seq_shift, map_map; apply IH.
  intros j Hj; rewrite (Hh (S j)) by lia; reflexivity.
Qed.

Lemma typed_row_format (rs : list (row F)) (r : row F) (n : nat) :
  In r rs -> List.length r = n ->
  (forall j, (j < n)%nat -> column_reloads L (column_cells j rs) = true) ->
  typed_row L n (map (map (format_cell L)) rs) (map (format_cell L) r)
  = map (reloaded_cell L) r.
Proof.
  intros Hr Hlen Hcols; subst n; unfold typed_row.
  apply (map_seq_nth (reloaded_cell L) CNaN); intros j Hj.
  rewrite column_fields_format, format_cell_nth.
  apply convert_column; [apply Hcols; exact Hj|].
  unfold column_cells; apply in_map_iff; exists r; auto.
Qed.

(** Writing a table and reading the file back gives the table with its
    dates as texts, when the table has two columns or more, every row
    has a cell for every column, and every column reloads. *)
Lemma read_csv_text_to_csv (df : frame F) :
  (2 <= List.length (columns df))%nat ->
  Forall (fun r => List.length r = List.length (columns df)) (rows df) ->
  reloads L df = true ->
  read_csv_text L (to_csv L df) = Ok (reloaded L df).
Proof.
  intros Hcols Hrect Hreload.
  unfold read_csv_text, to_csv.
  rewrite read_records_render.
  2:{ constructor; [exact Hcols|].
      apply Forall_forall; intros rec Hrec.
      apply in_map_iff in Hrec as (r & <- & Hr).
      rewrite length_map; rewrite Forall_forall in Hrect; rewrite (Hrect r Hr).
      exact Hcols. }
  simpl bind.
  replace (forallb _ (map (map (format_cell L)) (rows df))) with true.
  2:{ symmetry; apply forallb_forall; intros rec Hrec.
      apply in_map_iff in Hrec as (r & <- & Hr).
      rewrite length_map; rewrite Forall_forall in Hrect; rewrite (Hrect r Hr).
      apply Nat.leb_refl. }
  unfold reloaded; f_equal; f_equal.
  rewrite map_map; apply map_ext_in; intros r Hr.
  apply typed_row_format; [exact Hr | rewrite Forall_forall in Hrect; auto |].
  intros j Hj; unfold reloads in Hreload; rewrite forallb_forall in Hreload.
  apply Hreload, in_seq; lia.
Qed.

End ReloadFacts.

Section RoundTrip.

Context {F : Type} (L : library F).

Lemma project_row_length (cols labels : list string) (r : row F) :
  List.length (project_row cols labels r) = List.length labels.
Proof.
  unfold project_row; apply length_map.
Qed.


End RoundTrip.



(** * The properties on the example tables *)

Lemma latest_snapshot_is_max_date_rows_witness :
  preprocess_full_grouped exact_library example_full_grouped = Ok example_cleaned /\
  maximum_date example_cleaned 18284 /\
  exists ld : frame Q,
    latest_data example_cleaned = Ok ld /\
    rows ld = filter (has_date (columns example_cleaned) 18284) (rows example_cleaned).
Proof.
  assert (Hclean : preprocess_full_grouped exact_library example_full_grouped
                   = Ok example_cleaned) by reflexivity.
  assert (Hmax : maximum_date example_cleaned 18284).
  { split.
    - eexists; split; [right; left; reflexivity | reflexivity].
    - intros r d Hin Hd; simpl in Hin.
      destruct Hin as [<-|[<-|[<-|[<-|[]]]]]; vm_compute in Hd;
        injection Hd as <-; lia. }
  split; [exact Hclean|]; split; [exact Hmax|].
  destruct (latest_snapshot_is_max_date_rows exact_library _ _ Hclean)
    as (ld & Hld & _ & Hrows & _).
  exists ld; split; [exact Hld | apply (Hrows 18284 Hmax)].
Defined.

Lemma cleaning_keeps_confirmed_at_least_15_witness :
  full_grouped_relevant exact_library example_dated = Ok example_cleaned /\
  Forall (fun r => at_least exact_library 15
                     (cell_or_nan (columns example_cleaned) r "Confirmed"))
    (rows example_cleaned) /\
  worldometer_relevant exact_library example_worldometer
  = Ok example_worldometer_cleaned /\
  Forall (fun r => at_least exact_library 15
                     (cell_or_nan (columns example_worldometer_cleaned) r "Confirmed"))
    (rows example_worldometer_cleaned) /\
  parse_date exact_library "2020-01-22" = Some 18283 /\
  preprocess_full_grouped exact_library scenario_country_day
  = Ok (mkFrame country_day_columns
          [[CDate 18283; CStr "China"; CInt 20; CInt 1; CInt 0; CInt 19;
            CStr "Western Pacific"]]).
Proof.
  destruct (cleaning_keeps_confirmed_at_least_15 exact_library)
    as (Hcd & Hcs & _ & _ & Hscenario).
  assert (H1 : full_grouped_relevant exact_library example_dated = Ok example_cleaned)
    by reflexivity.
  assert (H2 : worldometer_relevant exact_library example_worldometer
               = Ok example_worldometer_cleaned) by reflexivity.
  split; [exact H1|]; split; [exact (proj1 (Hcd _ _ H1))|].
  split; [exact H2|]; split; [exact (proj1 (Hcs _ _ H2))|].
  split; [reflexivity | apply Hscenario; reflexivity].
Defined.




Lemma processed_day_wise_keeps_all_but_dates_witness :
  notebook exact_library (read_csv_text exact_library) (example_files example_day_wise)
  = (Ok tt,
     snd (notebook exact_library (read_csv_text exact_library)
            (example_files example_day_wise))) /\
  exists daily written : frame Q,
    read_csv (read_csv_text exact_library) "attached_assets/day_wise.csv"
      (example_files example_day_wise)
    = (Ok daily, example_files example_day_wise) /\
    snd (notebook exact_library (read_csv_text exact_library)
           (example_files example_day_wise)) "processed_day_wise.csv"
    = Some (Readable (to_csv exact_library written)) /\
    columns written = columns daily /\
    Forall2 (date_parsed exact_library (columns daily)) (rows daily) (rows written).
Proof.
  assert (Hrun :
    notebook exact_library (read_csv_text exact_library) (example_files example_day_wise)
    = (Ok tt,
       snd (notebook exact_library (read_csv_text exact_library)
              (example_files example_day_wise)))) by (vm_compute; reflexivity).
  split; [exact Hrun|].
  destruct (processed_day_wise_keeps_all_but_dates exact_library
              (read_csv_text exact_library) _ _ Hrun)
    as (daily & written & Hread & Hfile & _ & Hcols & Hrows).
  exists daily, written; auto.
Defined.

Lemma missing_input_aborts_without_output_witness :
  In "attached_assets/worldometer_data.csv" input_paths /\
  unavailable (read_csv_text exact_library) example_files_incomplete
    "attached_assets/worldometer_data.csv" /\
  exists e : error,
    notebook exact_library (read_csv_text exact_library) example_files_incomplete
    = (Raise e, example_files_incomplete).
Proof.
  assert (Hin : In "attached_assets/worldometer_data.csv" input_paths)
    by (simpl; tauto).
  assert (Hun : unavailable (read_csv_text exact_library) example_files_incomplete
                  "attached_assets/worldometer_data.csv") by exact I.
  split; [exact Hin|]; split; [exact Hun|].
  destruct (missing_input_aborts_without_output exact_library
              (read_csv_text exact_library) _ _ Hin Hun) as (e & _ & Hrun & _).
  exists e; exact Hrun.
Defined.

Lemma worldometer_rename_and_project_witness :
  worldometer_relevant exact_library example_worldometer
  = Ok example_worldometer_cleaned /\
  columns example_worldometer_cleaned
  = ["Country/Region"; "Continent"; "Confirmed"; "Deaths"; "Recovered";
     "Active"; "WHO Region"; "Population"] /\
  worldometer_relevant exact_library scenario_country_snapshot
  = Ok (mkFrame
          ["Country/Region"; "Continent"; "Confirmed"; "Deaths"; "Recovered";
           "Active"; "WHO Region"; "Population"]
          [[CStr "X"; CNaN; CInt 100; CInt 5; CInt 90; CInt 5; CNaN;
            CInt 1000000]]).
Proof.
  destruct (worldometer_rename_and_project exact_library) as (Hgen & Hscenario).
  assert (H : worldometer_relevant exact_library example_worldometer
              = Ok example_worldometer_cleaned) by reflexivity.
  split; [exact H|]; split; [exact (proj1 (Hgen _ _ H)) | exact Hscenario].
Defined.


(** * Further properties of the cells *)

Section RunOutcome.

Context {F : Type} (L : library F) (reader : string -> result (frame F)).

Lemma load_keeps_files (fs : filesystem) : snd (load reader fs) = fs.
Proof.
  unfold load, io_bind.
  destruct (read_csv_cases reader "attached_assets/day_wise.csv" fs)
    as [(d1 & H1)|(e1 & H1)]; rewrite H1; [|reflexivity].
  destruct (read_csv_cases reader "attached_assets/full_grouped.csv" fs)
    as [(d2 & H2)|(e2 & H2)]; rewrite H2; [|reflexivity].
  destruct (read_csv_cases reader "attached_assets/usa_county_wise.csv" fs)
    as [(d3 & H3)|(e3 & H3)]; rewrite H3; [|reflexivity].
  destruct (read_csv_cases reader "attached_assets/worldometer_data.csv" fs)
    as [(d4 & H4)|(e4 & H4)]; rewrite H4; reflexivity.
Qed.


(** [written fs out]: the file system after cell 5. *)
Lemma save_writes (out : @processed F) (fs : filesystem) :
  save L out fs
  = (Ok tt,
     write_file
       (write_file
          (write_file
             (write_file fs "processed_day_wise.csv"
                (to_csv L (processed_day_wise out)))
             "processed_country_wise.csv" (to_csv L (processed_country_wise out)))
          "processed_worldometer.csv" (to_csv L (processed_worldometer out)))
       "latest_covid_data.csv" (to_csv L (latest_covid_data out))).
Proof.
  reflexivity.
Qed.

Lemma write_file_other (fs : filesystem) (path text p : string) :
  p <> path -> write_file fs path text p = fs p.
Proof.
  unfold write_file; intros H.
  destruct (String.eqb_spec p path); [contradiction | reflexivity].
Qed.

Lemma analyse_Ok (input : @loaded F) (out : @processed F) :
  analyse L input = Ok out ->
  convert_date_column L (day_wise_df input) = Ok (processed_day_wise out) /\
  preprocess_full_grouped L (full_grouped_df input) = Ok (processed_country_wise out) /\
  worldometer_relevant L (worldometer_df input) = Ok (processed_worldometer out) /\
  exists ld : frame F,
    latest_data (processed_country_wise out) = Ok ld /\
    with_mortality_rate L ld = Ok (latest_covid_data out).
Proof.
  unfold analyse; intros H.
  apply bind_Ok_inv in H as (dw & Hdw & H).
  apply bind_Ok_inv in H as (rel & Hrel & H).
  apply bind_Ok_inv in H as (wr & Hwr & H).
  apply bind_Ok_inv in H as (? & _ & H).
  apply bind_Ok_inv in H as (ld & Hld & H).
  apply bind_Ok_inv in H as (? & _ & H).
  apply bind_Ok_inv in H as (? & _ & H).
  apply bind_Ok_inv in H as (ld' & Hld' & H).
  repeat (apply bind_Ok_inv in H as (? & _ & H)).
  injection H as <-; simpl; repeat split; try assumption.
  exists ld; auto.
Qed.

(** X2.  A run that succeeds has loaded the four inputs, and leaves
    exactly this behind: processed_day_wise.csv holds the day-wise
    table with its dates parsed, processed_country_wise.csv the cleaned
    CountryDay table, processed_worldometer.csv the cleaned
    CountrySnapshot table, latest_covid_data.csv the latest snapshot of
    the cleaned CountryDay table with its mortality rate; every other
    path, the four inputs among them, holds what it held before. *)
Theorem successful_run_writes_four_files (fs fs' : filesystem) :
  notebook L reader fs = (Ok tt, fs') ->
  exists (input : @loaded F) (daily country snapshot ld latest : frame F),
    load reader fs = (Ok input, fs) /\
    convert_date_column L (day_wise_df input) = Ok daily /\
    preprocess_full_grouped L (full_grouped_df input) = Ok country /\
    worldometer_relevant L (worldometer_df input) = Ok snapshot /\
    latest_data country = Ok ld /\
    with_mortality_rate L ld = Ok latest /\
    fs' "processed_day_wise.csv" = Some (Readable (to_csv L daily)) /\
    fs' "processed_country_wise.csv" = Some (Readable (to_csv L country)) /\
    fs' "processed_worldometer.csv" = Some (Readable (to_csv L snapshot)) /\
    fs' "latest_covid_data.csv" = Some (Readable (to_csv L latest)) /\
    forall p, ~ In p output_paths -> fs' p = fs p.
Proof.
  unfold notebook, io_bind; intros H.
  pose proof (load_keeps_files fs) as Hload.
  destruct (load reader fs) as [[input|e0] fs1]; simpl in Hload; subst fs1;
    [|discriminate].
  unfold io_lift in H.
  destruct (analyse L input) as [out|e1] eqn:Han; [|discriminate].
  rewrite save_writes in H; injection H as <-.
  destruct (analyse_Ok _ _ Han) as (Hd & Hc & Hs & ld & Hld & Hl).
  exists input, (processed_day_wise out), (processed_country_wise out),
    (processed_worldometer out), ld, (latest_covid_data out).
  repeat (split; [first [reflexivity | assumption]|]).
  intros p Hp; simpl in Hp.
  rewrite !write_file_other; [reflexivity | | | |]; intros ->; tauto.
Qed.

(** X3.  The load cell reads the four files in the order of its lines
    and reports the first one that is missing: when the files before
    it load, the exception is FileNotFoundError for that path. *)
Theorem load_reports_first_missing_file (fs : filesystem)
    (before after : list string) (path : string) :
  input_paths = before ++ path :: after ->
  (forall q, In q before -> exists df, read_csv reader q fs = (Ok df, fs)) ->
  fs path = None ->
  load reader fs = (Raise (FileNotFoundError path), fs).
Proof.
  intros Hsplit Hbefore Hnone.
  assert (Hmiss : read_csv reader path fs = (Raise (FileNotFoundError path), fs))
    by (unfold read_csv; rewrite Hnone; reflexivity).
  unfold input_paths in Hsplit; unfold load, io_bind.
  destruct before as [|q1 before]; simpl in Hsplit; injection Hsplit as <- Hsplit.
  { rewrite Hmiss; reflexivity. }
  destruct (Hbefore _ (or_introl eq_refl)) as (d1 & ->).
  destruct before as [|q2 before]; simpl in Hsplit; injection Hsplit as <- Hsplit.
  { rewrite Hmiss; reflexivity. }
  destruct (Hbefore _ (or_intror (or_introl eq_refl))) as (d2 & ->).
  destruct before as [|q3 before]; simpl in Hsplit; injection Hsplit as <- Hsplit.
  { rewrite Hmiss; reflexivity. }
  destruct (Hbefore _ (or_intror (or_intror (or_introl eq_refl)))) as (d3 & ->).
  destruct before as [|q4 before]; simpl in Hsplit; injection Hsplit as <- Hsplit.
  { rewrite Hmiss; reflexivity. }
  destruct before; discriminate.
Qed.

End RunOutcome.

Section CleaningOutcome.

Context {F : Type} (L : library F).

Lemma series_missing_label (df : frame F) (c : string) :
  has_column (columns df) c = false -> series df c = Raise (KeyError c).
Proof.
  unfold series; intros ->; reflexivity.
Qed.

Lemma series_present_label (df : frame F) (c : string) :
  has_column (columns df) c = true ->
  series df c = Ok (map (fun r => cell_or_nan (columns df) r c) (rows df)).
Proof.
  unfold series; intros ->; reflexivity.
Qed.

Lemma series_ge_raises (k : Z) (s : list (cell F)) :
  forallb number_or_missing s = false -> series_ge L s k = Raise TypeError.
Proof.
  unfold series_ge; induction s as [|v s IH]; simpl; [discriminate|].
  intros H; apply andb_false_iff in H as [Hv|Hs].
  - destruct v; simpl in *; try discriminate; reflexivity.
  - rewrite (IH Hs); destruct v; reflexivity.
Qed.

Lemma check_labels_first_missing (cols labels : list string) (c : string) :
  find (fun c => negb (has_column cols c)) labels = Some c ->
  check_labels cols labels = Raise (KeyError c).
Proof.
  unfold check_labels; intros ->; reflexivity.
Qed.

Lemma check_labels_none_missing (cols labels : list string) :
  find (fun c => negb (has_column cols c)) labels = None ->
  check_labels cols labels = Ok tt.
Proof.
  unfold check_labels; intros ->; reflexivity.
Qed.

Lemma forallb_map_cells {A : Type} (p : cell F -> bool) (g : A -> cell F)
    (l : list A) :
  forallb p (map g l) = forallb (fun a => p (g a)) l.
Proof.
  induction l as [|a l IH]; simpl; [reflexivity | rewrite IH; reflexivity].
Qed.


End CleaningOutcome.

Section DateOutcome.

Context {F : Type} (L : library F).

Lemma to_datetime_raises (s : list (cell F)) :
  (exists t, In (CStr t) s /\ parse_date L t = None) ->
  to_datetime L s = Raise ValueError.
Proof.
  unfold to_datetime; intros (t & Hin & Ht).
  induction s as [|v s IH]; simpl; [contradiction|].
  destruct Hin as [->|Hin].
  - simpl; rewrite Ht; reflexivity.
  - rewrite (IH Hin).
    destruct v as [z|u|d| |f]; simpl; try reflexivity.
    destruct (parse_date L u); reflexivity.
Qed.

Lemma to_datetime_total (s : list (cell F)) :
  (forall t, In (CStr t) s -> parse_date L t <> None) ->
  exists ds, to_datetime L s = Ok ds.
Proof.
  intros H; apply mapM_total, Forall_forall; intros v Hv.
  destruct v as [z|u|d| |f]; simpl; try (eexists; reflexivity).
  destruct (parse_date L u) eqn:Hu; [eexists; reflexivity|].
  exfalso; exact (H u Hv Hu).
Qed.


Lemma mapM_fixed {A : Type} (f : A -> result A) (l : list A) :
  (forall a, In a l -> f a = Ok a) -> mapM f l = Ok l.
Proof.
  induction l as [|a l IH]; simpl; intros H; [reflexivity|].
  rewrite (H a (or_introl eq_refl)), IH by auto; reflexivity.
Qed.

Lemma set_cell_self (cols : list string) (r : row F) (c : string) :
  set_cell cols r c (cell_or_nan cols r c) = r.
Proof.
  unfold cell_or_nan.
  revert r; induction cols as [|k cols IH]; intros [|x r]; simpl; try reflexivity.
  destruct (String.eqb k c); [reflexivity | f_equal; apply IH].
Qed.

(** X6.  Parsing the dates of a table whose dates are parsed changes
    nothing: the cell can be run again on its own result. *)
Theorem convert_date_column_idempotent (df dated : frame F) :
  convert_date_column L df = Ok dated ->
  convert_date_column L dated = Ok dated.
Proof.
  intros H.
  pose proof (convert_date_column_Ok L _ _ H) as (Hcols & Hrows).
  assert (Hcol : has_column (columns dated) "Date" = true).
  { rewrite Hcols; unfold convert_date_column, series in H.
    destruct (has_column (columns df) "Date"); [reflexivity | discriminate]. }
  unfold convert_date_column.
  rewrite (series_present_label _ _ Hcol); simpl bind.
  unfold to_datetime; rewrite mapM_fixed.
  - simpl; unfold assign; rewrite Hcol, zip_rows_map.
    destruct dated as [cols rs]; simpl; do 2 f_equal.
    transitivity (map (fun r : row F => r) rs); [|apply map_id].
    apply map_ext; intros r; apply set_cell_self.
  - intros v Hv; apply in_map_iff in Hv as (r' & <- & Hr').
    destruct (Forall2_In_right _ _ _ _ Hrows Hr') as (r & _ & _ & Hdate & _).
    rewrite Hcols.
    destruct (cell_or_nan (columns df) r "Date") as [z|t|d| |f]; simpl in Hdate;
      try (injection Hdate as <-; reflexivity).
    destruct (parse_date L t); [injection Hdate as <-; reflexivity | discriminate].
Qed.

End DateOutcome.

Section CleanedTables.

Context {F : Type} (L : library F).

Lemma filter_all {A : Type} (p : A -> bool) (l : list A) :
  (forall a, In a l -> p a = true) -> filter p l = l.
Proof.
  induction l as [|a l IH]; simpl; intros H; [reflexivity|].
  rewrite (H a (or_introl eq_refl)), IH by auto; reflexivity.
Qed.

Lemma meets_threshold_numeric (cols : list string) (c : string) (k : Z) (r : row F) :
  meets_threshold L cols c k r = true ->
  number_or_missing (cell_or_nan cols r c) = true.
Proof.
  unfold meets_threshold; destruct (cell_or_nan cols r c); simpl; congruence.
Qed.

(** X7.  Cleaning a cleaned CountryDay table returns it unchanged.
    Cleaning a cleaned CountrySnapshot table raises KeyError for
    TotalCases: the renaming has removed the label the filter reads. *)
Theorem cleaning_again (df out : frame F) :
  (full_grouped_relevant L df = Ok out -> full_grouped_relevant L out = Ok out) /\
  (worldometer_relevant L df = Ok out ->
   worldometer_relevant L out = Raise (KeyError "TotalCases")).
Proof.
  split; intros H.
  - apply full_grouped_relevant_Ok in H; subst out.
    set (kept := filter (meets_threshold L (columns df) "Confirmed" 15) (rows df)).
    assert (Hmeets : forall r', In r' (map (project_row (columns df) country_day_columns) kept) ->
              meets_threshold L country_day_columns "Confirmed" 15 r' = true).
    { intros r' Hr'; apply in_map_iff in Hr' as (r & <- & Hr).
      apply filter_In in Hr as (_ & Hr); exact Hr. }
    unfold full_grouped_relevant, full_grouped_filtered.
    rewrite series_present_label by reflexivity; simpl bind; simpl columns; simpl rows.
    destruct (series_ge_total L 15
                (map (fun r => cell_or_nan country_day_columns r "Confirmed")
                   (map (project_row (columns df) country_day_columns) kept)))
      as (mask & Hmask).
    { rewrite forallb_map_cells; apply forallb_forall; intros r' Hr'.
      apply (meets_threshold_numeric _ _ 15), Hmeets, Hr'. }
    rewrite Hmask; apply series_ge_mask in Hmask; subst mask; simpl bind.
    unfold boolean_index; simpl columns; simpl rows.
    rewrite select_rows_map_filter, (filter_all _ _ Hmeets).
    unfold project; simpl; do 2 f_equal.
    rewrite map_map; apply map_ext; intros r; reflexivity.
  - apply worldometer_relevant_Ok in H; subst out.
    unfold worldometer_relevant, worldometer_filtered.
    rewrite series_missing_label by reflexivity; reflexivity.
Qed.

(** X9.  The cleaned tables have no missing Confirmed cell: what
    [isnull().sum()] counts under Confirmed is 0, because a missing
    count does not pass the filter. *)
Theorem cleaned_confirmed_never_missing (df out : frame F) (n : nat) :
  full_grouped_relevant L df = Ok out \/ worldometer_relevant L df = Ok out ->
  In ("Confirmed", n) (isnull_sum out) ->
  n = 0%nat.
Proof.
  intros Hclean Hin.
  assert (Hrows : Forall (fun r => at_least L 15 (cell_or_nan (columns out) r "Confirmed"))
                    (rows out)).
  { destruct Hclean as [H|H];
      [apply full_grouped_relevant_Ok in H | apply worldometer_relevant_Ok in H];
      subst out; simpl; apply threshold_rows_at_least; intros r; reflexivity. }
  unfold isnull_sum in Hin; apply in_map_iff in Hin as (c & Hc & _).
  injection Hc as -> <-.
  rewrite Forall_forall in Hrows.
  induction (rows out) as [|r rs IH]; simpl; [reflexivity|].
  assert (Hr : is_missing (cell_or_nan (columns out) r "Confirmed") = false).
  { specialize (Hrows r (or_introl eq_refl)).
    destruct (cell_or_nan (columns out) r "Confirmed"); simpl in *;
      try reflexivity; contradiction. }
  rewrite Hr; apply IH; intros r' Hr'; apply Hrows; right; exact Hr'.
Qed.

End CleanedTables.

Section LatestFacts.

Context {F : Type}.

Lemma latest_data_rows (df ld : frame F) :
  latest_data df = Ok ld ->
  ld = mkFrame (columns df)
         (filter (fun r => eq_date_cell
                             (series_max (map (fun r => cell_or_nan (columns df) r "Date")
                                            (rows df)))
                             (cell_or_nan (columns df) r "Date"))
            (rows df)).
Proof.
  unfold latest_data, latest_date; intros H.
  apply bind_Ok_inv in H as (latest & Hl & H).
  apply bind_Ok_inv in Hl as (s & Hs & Hl); injection Hl as <-.
  apply bind_Ok_inv in H as (s' & Hs' & H); injection H as <-.
  apply series_Ok in Hs, Hs'; subst s s'.
  unfold boolean_index; rewrite map_map, select_rows_map_filter; reflexivity.
Qed.

Lemma series_max_constant (m : timestamp) (s : list (cell F)) :
  s <> [] -> (forall v, In v s -> v = CDate m) -> series_max s = Some m.
Proof.
  induction s as [|v s IH]; [congruence|]; intros _ H.
  rewrite (H v (or_introl eq_refl)); simpl.
  destruct s as [|w s]; [reflexivity|].
  rewrite IH; [f_equal; lia | discriminate | intros u Hu; apply H; right; exact Hu].
Qed.

(** X8.  The latest snapshot of a latest snapshot is the same table,
    and the latest snapshot has a row exactly when the table has a
    dated row. *)
Theorem latest_data_again (df ld : frame F) :
  latest_data df = Ok ld ->
  latest_data ld = Ok ld /\
  (rows ld <> [] <->
   exists r d, In r (rows df) /\ cell_or_nan (columns df) r "Date" = CDate d).
Proof.
  intros H.
  assert (Hcol : has_column (columns df) "Date" = true).
  { unfold latest_data, latest_date, series in H.
    destruct (has_column (columns df) "Date"); [reflexivity | discriminate]. }
  apply latest_data_rows in H; subst ld.
  set (dates := map (fun r => cell_or_nan (columns df) r "Date") (rows df)).
  destruct (series_max dates) as [m|] eqn:Hmax.
  - pose proof (series_max_Some _ _ Hmax) as (Hin & Hle).
    apply in_map_iff in Hin as (r0 & Hr0 & Hin0).
    set (kept := filter (fun r => eq_date_cell (Some m) (cell_or_nan (columns df) r "Date"))
                   (rows df)).
    assert (Hkept : forall r, In r kept -> cell_or_nan (columns df) r "Date" = CDate m).
    { intros r Hr; apply filter_In in Hr as (_ & Hr).
      destruct (cell_or_nan (columns df) r "Date"); simpl in Hr; try discriminate.
      apply Z.eqb_eq in Hr; congruence. }
    assert (Hr0k : In r0 kept).
    { apply filter_In; split; [exact Hin0|].
      rewrite Hr0; simpl; apply Z.eqb_refl. }
    split.
    + unfold latest_data, latest_date.
      rewrite series_present_label by exact Hcol; simpl bind; simpl columns; simpl rows.
      rewrite (series_max_constant m).
      * unfold boolean_index; simpl; rewrite map_map, select_rows_map_filter.
        rewrite filter_all; [reflexivity|].
        intros r Hr; rewrite (Hkept r Hr); simpl; apply Z.eqb_refl.
      * intros Hnil; apply map_eq_nil in Hnil.
        fold kept in Hnil; rewrite Hnil in Hr0k; exact Hr0k.
      * intros v Hv; apply in_map_iff in Hv as (r & <- & Hr); apply Hkept; exact Hr.
    + simpl; split.
      * intros _; exists r0, m; auto.
      * intros _ Hnil; fold kept in Hnil; rewrite Hnil in Hr0k; exact Hr0k.
  - assert (Hnone : filter (fun r => eq_date_cell None (cell_or_nan (columns df) r "Date"))
                      (rows df) = []).
    { clear; induction (rows df) as [|r rs IH]; simpl; [reflexivity|].
      destruct (cell_or_nan (columns df) r "Date"); exact IH. }
    rewrite Hnone; split.
    + unfold latest_data, latest_date.
      rewrite series_present_label by exact Hcol; reflexivity.
    + simpl; split; [congruence|].
      intros (r & d & Hr & Hd); exfalso.
      apply (series_max_None _ Hmax d), in_map_iff; exists r; auto.
Qed.

End LatestFacts.

Section RankingSizes.

Context {F : Type} (L : library F).

Lemma firstn_incl {A : Type} (n : nat) (l : list A) (a : A) :
  In a (firstn n l) -> In a l.
Proof.
  revert n; induction l as [|x l IH]; intros [|n]; simpl; try tauto.
  intros [H|H]; [left; exact H | right; exact (IH n H)].
Qed.

Lemma head_of_sort (df sorted : frame F) (c : string) (n : nat) :
  sort_contract L ->
  sort_values_desc L df c = Ok sorted ->
  List.length (rows (head n sorted)) = Nat.min n (List.length (rows df)) /\
  (forall r, In r (rows (head n sorted)) -> In r (rows df)).
Proof.
  intros Hsort H; apply sort_values_desc_Ok in H; subst sorted; simpl.
  destruct (Hsort (row_desc_leb L (columns df) c) (rows df)) as (Hperm & _).
  split.
  - rewrite length_firstn, (Permutation_length Hperm); reflexivity.
  - intros r Hr; apply (Permutation_in _ Hperm), (firstn_incl _ _ _ Hr).
Qed.

(** X10.  Every ranking holds rows of its source only, and as many
    as the source allows: 15 (5, 10) when there are that many, all of
    them otherwise, none for an empty source.  The mortality ranking
    draws on the rows with Confirmed >= 1000 only; the table of highest
    cases has the five columns it selects. *)
Theorem rankings_are_bounded_selections :
  sort_contract L ->
  (forall ld out : frame F,
      top_countries L ld = Ok out ->
      List.length (rows out) = Nat.min 15 (List.length (rows ld)) /\
      forall r, In r (rows out) -> In r (rows ld)) /\
  (forall ld out : frame F,
      top_deaths L ld = Ok out ->
      List.length (rows out) = Nat.min 15 (List.length (rows ld)) /\
      forall r, In r (rows out) -> In r (rows ld)) /\
  (forall ld out : frame F,
      mortality_data L ld = Ok out ->
      List.length (rows out)
      = Nat.min 15 (List.length
                      (filter (meets_threshold L (columns ld) "Confirmed" 1000)
                         (rows ld))) /\
      forall r, In r (rows out) ->
                In r (rows ld) /\
                meets_threshold L (columns ld) "Confirmed" 1000 r = true) /\
  (forall (ld : frame F) (names : list (cell F)),
      top_5_countries L ld = Ok names ->
      List.length names = Nat.min 5 (List.length (rows ld))) /\
  (forall ld out : frame F,
      highest_cases L ld = Ok out ->
      columns out = ["Country/Region"; "Confirmed"; "Deaths"; "Recovered"; "Active"] /\
      List.length (rows out) = Nat.min 10 (List.length (rows ld))).
Proof.
  intros Hsort; repeat apply conj.
  - intros ld out H; unfold top_countries in H.
    apply bind_Ok_inv in H as (sorted & Hs & H); injection H as <-.
    apply (head_of_sort _ _ _ 15 Hsort Hs).
  - intros ld out H; unfold top_deaths in H.
    apply bind_Ok_inv in H as (sorted & Hs & H); injection H as <-.
    apply (head_of_sort _ _ _ 15 Hsort Hs).
  - intros ld out H; unfold mortality_data in H.
    apply bind_Ok_inv in H as (s & Hser & H).
    apply bind_Ok_inv in H as (mask & Hmask & H).
    apply bind_Ok_inv in H as (sorted & Hs & H); injection H as <-.
    apply series_Ok in Hser; subst s.
    apply series_ge_mask in Hmask; subst mask.
    destruct (head_of_sort _ _ _ 15 Hsort Hs) as (Hlen & Hin).
    unfold boolean_index in Hlen, Hin; simpl in Hlen, Hin.
    rewrite select_rows_map_filter in Hlen, Hin.
    split; [exact Hlen|].
    intros r Hr; apply filter_In; apply Hin; exact Hr.
  - intros ld names H; unfold top_5_countries in H.
    apply bind_Ok_inv in H as (sorted & Hs & H).
    apply series_Ok in H; subst names; rewrite length_map.
    apply (head_of_sort _ _ _ 5 Hsort Hs).
  - intros ld out H; unfold highest_cases in H.
    apply bind_Ok_inv in H as (sorted & Hs & H).
    apply project_Ok in H; subst out; simpl; split; [reflexivity|].
    rewrite length_map.
    apply (head_of_sort _ _ _ 10 Hsort Hs).
Qed.

Lemma StronglySorted_app_le {A : Type} (R : A -> A -> Prop) (l1 l2 : list A) :
  StronglySorted R (l1 ++ l2) ->
  forall a b, In a l1 -> In b l2 -> R a b.
Proof.
  induction l1 as [|x l1 IH]; simpl; intros Hs a b Ha Hb; [contradiction|].
  inversion Hs as [|? ? Hs' Hall]; subst.
  destruct Ha as [->|Ha]; [|exact (IH Hs' a b Ha Hb)].
  rewrite Forall_forall in Hall; apply Hall, in_or_app; right; exact Hb.
Qed.

Lemma head_holds_the_largest (df sorted : frame F) (c : string) (n : nat) :
  sort_contract L ->
  sort_values_desc L df c = Ok sorted ->
  Forall (fun r => exists z, cell_or_nan (columns df) r c = CInt z) (rows df) ->
  exists rest : list (row F),
    Permutation (rows (head n sorted) ++ rest) (rows df) /\
    forall a b, In a (rows (head n sorted)) -> In b rest ->
      int_value (cell_or_nan (columns df) b c)
      <= int_value (cell_or_nan (columns df) a c).
Proof.
  intros Hsort H Hint; apply sort_values_desc_Ok in H; subst sorted; simpl.
  destruct (Hsort (row_desc_leb L (columns df) c) (rows df)) as (Hperm & Hsorted).
  set (sorted := sort_rows L (row_desc_leb L (columns df) c) (rows df)) in *.
  exists (skipn n sorted); split; [rewrite firstn_skipn; exact Hperm|].
  apply (StronglySorted_app_le
           (fun a b => int_value (cell_or_nan (columns df) b c)
                       <= int_value (cell_or_nan (columns df) a c))).
  rewrite firstn_skipn; apply (int_keys_descending L).
  - apply Forall_forall; intros r Hr; rewrite Forall_forall in Hint.
    apply Hint, (Permutation_in _ Hperm), Hr.
  - apply Hsorted, int_keys_total; exact Hint.
Qed.

(** X11.  With integer counts, the rankings by Confirmed and by Deaths
    hold the largest: the rows of the snapshot split into the ranking
    and the rest, and no row of the rest has a larger count than a row
    of the ranking. *)
Theorem rankings_hold_the_largest (ld : frame F) :
  sort_contract L ->
  (forall out : frame F,
      top_countries L ld = Ok out ->
      Forall (fun r => exists z, cell_or_nan (columns ld) r "Confirmed" = CInt z)
        (rows ld) ->
      exists rest : list (row F),
        Permutation (rows out ++ rest) (rows ld) /\
        forall a b, In a (rows out) -> In b rest ->
          int_value (cell_or_nan (columns ld) b "Confirmed")
          <= int_value (cell_or_nan (columns ld) a "Confirmed")) /\
  (forall out : frame F,
      top_deaths L ld = Ok out ->
      Forall (fun r => exists z, cell_or_nan (columns ld) r "Deaths" = CInt z)
        (rows ld) ->
      exists rest : list (row F),
        Permutation (rows out ++ rest) (rows ld) /\
        forall a b, In a (rows out) -> In b rest ->
          int_value (cell_or_nan (columns ld) b "Deaths")
          <= int_value (cell_or_nan (columns ld) a "Deaths")).
Proof.
  intros Hsort; split; intros out H Hint.
  - unfold top_countries in H.
    apply bind_Ok_inv in H as (sorted & Hs & H); injection H as <-.
    apply (head_holds_the_largest _ _ _ 15 Hsort Hs Hint).
  - unfold top_deaths in H.
    apply bind_Ok_inv in H as (sorted & Hs & H); injection H as <-.
    apply (head_holds_the_largest _ _ _ 15 Hsort Hs Hint).
Qed.

End RankingSizes.

Section GroupShape.

Context {F : Type} (L : library F).

Lemma insert_group_HdRel (g a : group F) (gs : list (group F)) :
  key_le (fst a) (fst g) ->
  HdRel key_le (fst a) (map fst gs) ->
  HdRel key_le (fst a) (map fst (insert_group g gs)).
Proof.
  intros Hag Hhd; destruct gs as [|g' gs]; simpl; [constructor; exact Hag|].
  destruct (String.leb (fst g) (fst g')); simpl; constructor;
    [exact Hag | inversion Hhd; assumption].
Qed.

Lemma insert_group_sorted (g : group F) (gs : list (group F)) :
  Sorted key_le (map fst gs) -> Sorted key_le (map fst (insert_group g gs)).
Proof.
  induction gs as [|g' gs IH]; simpl; intros Hs; [repeat constructor|].
  destruct (String.leb (fst g) (fst g')) eqn:Hle; simpl.
  - constructor; [exact Hs | constructor; exact Hle].
  - inversion Hs as [|? ? Hs' Hhd]; subst.
    constructor; [apply IH; exact Hs'|].
    apply insert_group_HdRel; [|exact Hhd].
    destruct (String.leb_total (fst g) (fst g')) as [H|H]; [congruence | exact H].
Qed.

Lemma sort_groups_sorted (gs : list (group F)) :
  Sorted key_le (map fst (sort_groups gs)).
Proof.
  induction gs as [|g gs IH]; simpl; [constructor|].
  apply insert_group_sorted; exact IH.
Qed.

Lemma lookup_group_keys (k : string) (gs : list (group F)) :
  In k (map fst gs) <-> lookup_group k gs <> None.
Proof.
  induction gs as [|(k', ts) gs IH]; simpl; [tauto|].
  destruct (String.eqb_spec k' k) as [->|Hne].
  - split; [discriminate | auto].
  - rewrite <- IH; tauto.
Qed.

Lemma members_nonempty (cols : list string) (key k : string) (rs : list (row F)) :
  filter (in_group cols key k) rs <> [] <->
  exists r, In r rs /\ cell_or_nan cols r key = CStr k.
Proof.
  split.
  - intros Hne; destruct (filter (in_group cols key k) rs) as [|r ms] eqn:Hms;
      [congruence|].
    assert (Hr : In r (filter (in_group cols key k) rs)) by (rewrite Hms; left; reflexivity).
    apply filter_In in Hr as (Hr & Hg); exists r; split; [exact Hr|].
    unfold in_group in Hg; destruct (cell_or_nan cols r key); try discriminate.
    apply String.eqb_eq in Hg; congruence.
  - intros (r & Hr & Hcell) Hnil.
    assert (Hin : In r (filter (in_group cols key k) rs)).
    { apply filter_In; split; [exact Hr|].
      unfold in_group; rewrite Hcell; apply String.eqb_refl. }
    rewrite Hnil in Hin; exact Hin.
Qed.

(** The groups of [groupby_sum]: distinct keys in ascending order, one
    for every text some row holds under the key. *)
Lemma groupby_sum_groups (df out : frame F) (key : string) (aggs : list string) :
  groupby_sum L df key aggs = Ok out ->
  exists gs : list (group F),
    out = mkFrame (key :: aggs) (map group_row gs) /\
    NoDup (map fst gs) /\
    Sorted key_le (map fst gs) /\
    (forall k, In k (map fst gs) <->
               exists r, In r (rows df) /\ cell_or_nan (columns df) r key = CStr k) /\
    forall k,
      expected_totals L (columns df) aggs None
        (filter (in_group (columns df) key k) (rows df))
      = Ok (lookup_group k gs).
Proof.
  unfold groupby_sum; intros H.
  apply bind_Ok_inv in H as (u & _ & H).
  apply bind_Ok_inv in H as (gs & Hacc & H); injection H as <-.
  assert (Hnd : NoDup (map fst gs))
    by (eapply accumulate_NoDup; [exact Hacc | constructor]).
  assert (Hlook : forall k,
             expected_totals L (columns df) aggs None
               (filter (in_group (columns df) key k) (rows df))
             = Ok (lookup_group k (sort_groups gs))).
  { intros k; rewrite lookup_group_sorted by exact Hnd.
    apply (accumulate_lookup _ _ _ _ _ _ _ k Hacc). }
  exists (sort_groups gs); split; [reflexivity|]; split; [|split; [|split]].
  - eapply Permutation_NoDup; [|exact Hnd].
    apply Permutation_map, Permutation_sym, sort_groups_perm.
  - apply sort_groups_sorted.
  - intros k; rewrite lookup_group_keys, <- members_nonempty.
    specialize (Hlook k); unfold expected_totals in Hlook.
    destruct (filter (in_group (columns df) key k) (rows df)) as [|r ms].
    + injection Hlook as <-; tauto.
    + apply bind_Ok_inv in Hlook as (ts & _ & Hlook); injection Hlook as <-.
      split; intros _; discriminate.
  - exact Hlook.
Qed.



End GroupShape.

Section GroupTotals.

Context {F : Type} (L : library F).

Lemma integer_cells_filter (cols : list string) (c : string) (p q : row F -> bool)
    (rs : list (row F)) :
  (forall r, q r = true -> p r = true) ->
  integer_cells cols c (filter p rs) = true ->
  integer_cells cols c (filter q rs) = true.
Proof.
  intros Hqp; unfold integer_cells; induction rs as [|r rs IH]; simpl; [reflexivity|].
  destruct (q r) eqn:Hq.
  - rewrite (Hqp r Hq); simpl; intros H; apply andb_true_iff in H as (H1 & H2).
    rewrite H1; simpl; apply IH; exact H2.
  - destruct (p r); simpl; [|exact IH].
    intros H; apply andb_true_iff in H as (_ & H2); apply IH; exact H2.
Qed.

Lemma in_group_has_key (cols : list string) (key k : string) (r : row F) :
  in_group cols key k r = true -> has_key cols key r = true.
Proof.
  unfold in_group, has_key; destruct (cell_or_nan cols r key); congruence.
Qed.

(** The rows of [groupby_sum] over integer columns, read key by key. *)
Lemma groupby_sum_int_rows (df out : frame F) (key : string) (aggs : list string) :
  groupby_sum L df key aggs = Ok out ->
  (forall c, In c aggs ->
     integer_cells (columns df) c (filter (has_key (columns df) key) (rows df)) = true) ->
  exists ks : list string,
    NoDup ks /\
    (forall r k, In r (rows df) -> cell_or_nan (columns df) r key = CStr k -> In k ks) /\
    out = mkFrame (key :: aggs)
            (map (fun k =>
                    CStr k ::
                    map (fun c => CInt (int_sum (columns df) c
                                          (filter (in_group (columns df) key k) (rows df))))
                      aggs) ks).
Proof.
  intros H Hint.
  destruct (groupby_sum_groups L _ _ _ _ H) as (gs & -> & Hnd & _ & Hkeys & Hlook).
  exists (map fst gs); split; [exact Hnd|]; split.
  - intros r k Hr Hcell; apply Hkeys; exists r; auto.
  - f_equal; rewrite map_map; apply map_ext_in; intros (k, ts) Hin.
    apply (lookup_group_In _ _ _ Hnd) in Hin.
    specialize (Hlook k); rewrite Hin in Hlook; unfold expected_totals in Hlook.
    destruct (filter (in_group (columns df) key k) (rows df)) as [|r ms] eqn:Hms;
      [discriminate|].
    unfold start_totals in Hlook.
    rewrite (sum_rows_ints L (columns df) aggs (r :: ms) (fun _ => 0)) in Hlook.
    + simpl in Hlook; injection Hlook as <-.
      unfold group_row; simpl; rewrite map_map, Hms; reflexivity.
    + intros c Hc; rewrite <- Hms.
      apply (integer_cells_filter _ _ (has_key (columns df) key));
        [apply in_group_has_key | apply Hint; exact Hc].
Qed.

Lemma one_key_counts (k0 : string) (v : Z) (f : string -> Z) (ks : list string) :
  NoDup ks -> In k0 ks ->
  fold_right Z.add 0 (map (fun k => (if String.eqb k0 k then v else 0) + f k) ks)
  = v + fold_right Z.add 0 (map f ks).
Proof.
  induction ks as [|k ks IH]; simpl; intros Hnd Hin; [contradiction|].
  inversion Hnd as [|? ? Hnin Hnd']; subst.
  destruct (String.eqb_spec k0 k) as [->|Hne].
  - assert (Hrest : fold_right Z.add 0
                      (map (fun k' => (if String.eqb k k' then v else 0) + f k') ks)
                    = fold_right Z.add 0 (map f ks)).
    { f_equal; apply map_ext_in; intros k' Hk'.
      destruct (String.eqb_spec k k') as [->|_]; [contradiction | reflexivity]. }
    rewrite Hrest; lia.
  - destruct Hin as [->|Hin]; [congruence|].
    rewrite (IH Hnd' Hin); lia.
Qed.

(** Rows with a key fall into exactly one group: the sums of the groups
    add up to the sum over the rows with a key. *)
Lemma groups_partition (cols : list string) (key c : string) (ks : list string)
    (rs : list (row F)) :
  NoDup ks ->
  (forall r k, In r rs -> cell_or_nan cols r key = CStr k -> In k ks) ->
  fold_right Z.add 0
    (map (fun k => int_sum cols c (filter (in_group cols key k) rs)) ks)
  = int_sum cols c (filter (has_key cols key) rs).
Proof.
  intros Hnd; induction rs as [|r rs IH]; intros Hcov.
  - simpl; unfold int_sum; simpl; clear Hnd Hcov.
    induction ks as [|k ks IHk]; simpl; [reflexivity | rewrite IHk; reflexivity].
  - assert (IH' := IH (fun r' k Hr' => Hcov r' k (or_intror Hr'))); clear IH.
    simpl filter; unfold has_key at 1.
    destruct (cell_or_nan cols r key) as [z|s|d| |f] eqn:Hcell.
    2:{ unfold int_sum at 2; simpl; fold (int_sum cols c (filter (has_key cols key) rs)).
        rewrite <- IH'.
        rewrite <- (one_key_counts s _ _ ks Hnd (Hcov r s (or_introl eq_refl) Hcell)).
        f_equal; apply map_ext; intros k.
        unfold in_group at 1; rewrite Hcell.
        destruct (String.eqb s k); [reflexivity | simpl; lia]. }
    all: rewrite <- IH'; f_equal; apply map_ext; intros k;
      unfold in_group at 1; rewrite Hcell; reflexivity.
Qed.

Lemma int_sum_map {A : Type} (cols : list string) (c : string) (h : A -> row F)
    (g : A -> Z) (l : list A) :
  (forall a, cell_or_nan cols (h a) c = CInt (g a)) ->
  int_sum cols c (map h l) = fold_right Z.add 0 (map g l).
Proof.
  intros Hc; unfold int_sum; rewrite map_map; f_equal.
  apply map_ext; intros a; rewrite Hc; reflexivity.
Qed.



End GroupTotals.

Section TopFive.

Context {F : Type} (L : library F).

Lemma cell_eqb_text (s : string) : cell_eqb L (CStr s) (CStr s) = true.
Proof.
  apply String.eqb_refl.
Qed.


End TopFive.

Section Rerun.

Context {F : Type} (L : library F) (reader : string -> result (frame F)).

Lemma read_csv_agree (path : string) (fs1 fs2 : filesystem) :
  fs1 path = fs2 path ->
  fst (read_csv reader path fs1) = fst (read_csv reader path fs2).
Proof.
  unfold read_csv; intros ->; destruct (fs2 path) as [[text|]|]; reflexivity.
Qed.

Lemma read_csv_state (path : string) (fs : filesystem) :
  snd (read_csv reader path fs) = fs.
Proof.
  unfold read_csv; destruct (fs path) as [[text|]|]; reflexivity.
Qed.

Lemma io_bind_agree {A B : Type} (m : io A) (k : A -> io B) (fs1 fs2 : filesystem) :
  fst (m fs1) = fst (m fs2) ->
  snd (m fs1) = fs1 -> snd (m fs2) = fs2 ->
  (forall a, fst (k a fs1) = fst (k a fs2)) ->
  fst (io_bind m k fs1) = fst (io_bind m k fs2).
Proof.
  unfold io_bind; destruct (m fs1) as (r1, s1), (m fs2) as (r2, s2); simpl.
  intros -> -> -> Hk; destruct r2; [apply Hk | reflexivity].
Qed.

Lemma load_agree (fs1 fs2 : filesystem) :
  (forall p, In p input_paths -> fs1 p = fs2 p) ->
  fst (load reader fs1) = fst (load reader fs2).
Proof.
  intros H; unfold load.
  repeat (apply io_bind_agree;
          [apply read_csv_agree, H; simpl; tauto
          | apply read_csv_state | apply read_csv_state | intros ?]).
  reflexivity.
Qed.

(** X17.  Running the notebook again after a run that succeeded
    succeeds again and leaves every file as the first run left it: the
    outputs are not among the inputs, so the second run reads what the
    first one read and writes what it wrote. *)
Theorem second_run_changes_nothing (fs fs' : filesystem) :
  notebook L reader fs = (Ok tt, fs') ->
  exists fs'' : filesystem,
    notebook L reader fs' = (Ok tt, fs'') /\ forall p, fs'' p = fs' p.
Proof.
  unfold notebook, io_bind; intros H.
  pose proof (load_keeps_files reader fs) as Hload.
  destruct (load reader fs) as [[input|e0] fs1] eqn:Hl; simpl in Hload; subst fs1;
    [|discriminate].
  unfold io_lift in H |- *.
  destruct (analyse L input) as [out|e1] eqn:Han; [|discriminate].
  rewrite save_writes in H; injection H as <-.
  match goal with
  | |- context [load reader ?fs1] => set (written := fs1)
  end.
  assert (Hagree : fst (load reader written) = fst (load reader fs)).
  { apply load_agree; intros p Hp; simpl in Hp; unfold written.
    rewrite !write_file_other; [reflexivity | | | |]; intros ->;
      repeat (destruct Hp as [Hp|Hp]; [discriminate|]); exact Hp. }
  pose proof (load_keeps_files reader written) as Hload'.
  destruct (load reader written) as [r' fs1']; rewrite Hl in Hagree;
    simpl in Hload', Hagree; subst fs1' r'.
  rewrite Han, save_writes.
  eexists; split; [reflexivity|].
  intros p; unfold written, write_file.
  repeat match goal with
         | |- context [String.eqb p ?q] => destruct (String.eqb p q)
         end; reflexivity.
Qed.

End Rerun.

Section WrittenFiles.

Context {F : Type} (L : library F).

(** X18.  Writing loses nothing of the texts: two tables of two columns
    or more, whose rows have two cells or more, are written to the same
    file only when they have the same header and, row by row, cells
    that are written the same. *)
Theorem to_csv_injective (df1 df2 : frame F) :
  (2 <= List.length (columns df1))%nat ->
  (2 <= List.length (columns df2))%nat ->
  Forall (fun r => (2 <= List.length r)%nat) (rows df1) ->
  Forall (fun r => (2 <= List.length r)%nat) (rows df2) ->
  to_csv L df1 = to_csv L df2 ->
  columns df1 = columns df2 /\
  map (map (format_cell L)) (rows df1) = map (map (format_cell L)) (rows df2).
Proof.
  intros Hc1 Hc2 Hr1 Hr2 Heq; unfold to_csv in Heq.
  assert (Hlen : forall df : frame F,
             (2 <= List.length (columns df))%nat ->
             Forall (fun r => (2 <= List.length r)%nat) (rows df) ->
             Forall (fun record : list string => (2 <= List.length record)%nat)
               (columns df :: map (map (format_cell L)) (rows df))).
  { intros df Hc Hr; constructor; [exact Hc|].
    apply Forall_forall; intros rec Hrec.
    apply in_map_iff in Hrec as (r & <- & Hin).
    rewrite length_map; rewrite Forall_forall in Hr; exact (Hr r Hin). }
  pose proof (read_records_render _ (Hlen df1 Hc1 Hr1)) as H1.
  pose proof (read_records_render _ (Hlen df2 Hc2 Hr2)) as H2.
  rewrite Heq, H2 in H1; injection H1 as H1 H1'; auto.
Qed.

End WrittenFiles.

Section RateColumn.

Context {F : Type} (L : library F).

Lemma get_app_present (cols : list string) (r : row F) (c l : string) (v : cell F) :
  has_column cols c = true ->
  List.length r = List.length cols ->
  get (cols ++ [l]) (r ++ [v]) c = get cols r c.
Proof.
  unfold has_column; revert r; induction cols as [|k cols IH]; intros [|x r]; simpl;
    try discriminate.
  intros Hhas Hlen; rewrite String.eqb_sym in Hhas.
  destruct (String.eqb k c); [reflexivity|].
  apply IH; [exact Hhas | lia].
Qed.

Lemma set_cell_app_last (cols : list string) (r : row F) (l : string) (v v' : cell F) :
  has_column cols l = false ->
  List.length r = List.length cols ->
  set_cell (cols ++ [l]) (r ++ [v]) l v' = r ++ [v'].
Proof.
  unfold has_column; revert r; induction cols as [|k cols IH]; intros [|x r]; simpl;
    try discriminate.
  - rewrite String.eqb_refl; reflexivity.
  - intros Hhas Hlen; rewrite String.eqb_sym in Hhas.
    apply orb_false_iff in Hhas as (Hk & Hhas); rewrite Hk.
    rewrite IH by (exact Hhas || lia); reflexivity.
Qed.

Lemma has_column_app (cols : list string) (c l : string) :
  has_column cols c = true -> has_column (cols ++ [l]) c = true.
Proof.
  unfold has_column; rewrite existsb_app; intros ->; reflexivity.
Qed.

Lemma series_has_column (df : frame F) (c : string) (s : list (cell F)) :
  series df c = Ok s -> has_column (columns df) c = true.
Proof.
  unfold series; destruct (has_column (columns df) c); [reflexivity | discriminate].
Qed.

(** X19.  The mortality-rate cell adds one column and nothing else,
    and running it a second time changes nothing: on a table without a
    Mortality Rate (%) column whose rows have a cell for every column,
    the result has the old columns followed by the new one, every row
    is the old row followed by its rate (Deaths / Confirmed) * 100, and
    computing the rate of the result again gives the result itself. *)
Theorem with_mortality_rate_again (df df' : frame F) :
  has_column (columns df) "Mortality Rate (%)" = false ->
  Forall (fun r => List.length r = List.length (columns df)) (rows df) ->
  with_mortality_rate L df = Ok df' ->
  columns df' = columns df ++ ["Mortality Rate (%)"] /\
  rows df'
  = map (fun r => r ++ [ratio_cell L 100 (cell_or_nan (columns df) r "Deaths")
                          (cell_or_nan (columns df) r "Confirmed")]) (rows df) /\
  with_mortality_rate L df' = Ok df'.
Proof.
  intros Hnew Hrect H; unfold with_mortality_rate in H.
  apply bind_Ok_inv in H as (rate & Hrate & H); injection H as <-.
  pose proof (ratio_column_Ok _ _ _ _ _ _ Hrate) as Hr.
  unfold ratio_column in Hrate.
  apply bind_Ok_inv in Hrate as (n & Hn & Hrate).
  apply bind_Ok_inv in Hrate as (d & Hd & Hrate).
  apply bind_Ok_inv in Hrate as (q & Hq & Hrate).
  pose proof (series_has_column _ _ _ Hn) as HD.
  pose proof (series_has_column _ _ _ Hd) as HC.
  apply series_Ok in Hn, Hd.
  unfold assign; rewrite Hnew; simpl columns; simpl rows.
  assert (Hrows : zip_rows (fun r v => r ++ [v]) (rows df) rate
                  = map (fun r => r ++ [ratio_cell L 100
                                          (cell_or_nan (columns df) r "Deaths")
                                          (cell_or_nan (columns df) r "Confirmed")])
                      (rows df)).
  { rewrite Hr; apply (zip_rows_map (fun r v => r ++ [v])). }
  rewrite Hrows.
  split; [reflexivity|]; split; [reflexivity|].
  remember (fun r : row F => ratio_cell L 100 (cell_or_nan (columns df) r "Deaths")
                               (cell_or_nan (columns df) r "Confirmed")) as rc eqn:Hrc.
  change (fun r : list (cell F) =>
            r ++ [ratio_cell L 100 (cell_or_nan (columns df) r "Deaths")
                    (cell_or_nan (columns df) r "Confirmed")])
    with (fun r : list (cell F) => r ++ [(fun r0 : row F =>
            ratio_cell L 100 (cell_or_nan (columns df) r0 "Deaths")
              (cell_or_nan (columns df) r0 "Confirmed")) r]) in *.
  rewrite <- Hrc in *.
  assert (Hcells : forall c, has_column (columns df) c = true ->
            map (fun r => cell_or_nan (columns df ++ ["Mortality Rate (%)"]) r c)
              (map (fun r => r ++ [rc r]) (rows df))
            = map (fun r => cell_or_nan (columns df) r c) (rows df)).
  { intros c Hc; rewrite map_map; apply map_ext_in; intros r Hin.
    unfold cell_or_nan; rewrite get_app_present; [reflexivity | exact Hc |].
    rewrite Forall_forall in Hrect; exact (Hrect r Hin). }
  unfold with_mortality_rate, ratio_column.
  rewrite (series_present_label _ "Deaths") by (apply has_column_app; exact HD).
  rewrite (series_present_label _ "Confirmed") by (apply has_column_app; exact HC).
  simpl columns; simpl rows; simpl bind.
  rewrite (Hcells _ HD), (Hcells _ HC), <- Hn, <- Hd, Hq; simpl bind.
  injection Hrate as Hrate; rewrite Hrate, Hr.
  unfold assign; simpl columns.
  replace (has_column (columns df ++ ["Mortality Rate (%)"]) "Mortality Rate (%)")
    with true
    by (unfold has_column; rewrite existsb_app; simpl; rewrite orb_true_r; reflexivity).
  do 2 f_equal; simpl rows.
  assert (Hz : forall (rs : list (row F)),
            Forall (fun r => List.length r = List.length (columns df)) rs ->
            zip_rows (fun r v => set_cell (columns df ++ ["Mortality Rate (%)"]) r
                                   "Mortality Rate (%)" v)
              (map (fun r => r ++ [rc r]) rs) (map rc rs)
            = map (fun r => r ++ [rc r]) rs).
  { induction 1 as [|r rs Hlen _ IH]; simpl; [reflexivity|].
    rewrite IH, set_cell_app_last by assumption; reflexivity. }
  apply Hz; exact Hrect.
Qed.

End RateColumn.

Section SnapshotCleaning.

Context {F : Type} (L : library F).


(** X21.  The shape printed after filtering: the cleaned CountryDay
    table has seven columns and the cleaned CountrySnapshot table
    eight, neither has more rows than its source, and every row has a
    cell for every column, whatever the lengths of the source rows. *)
Theorem cleaned_shapes (df out : frame F) :
  (full_grouped_relevant L df = Ok out ->
   snd (shape out) = 7%nat /\ (fst (shape out) <= fst (shape df))%nat /\
   Forall (fun r => List.length r = 7%nat) (rows out)) /\
  (worldometer_relevant L df = Ok out ->
   snd (shape out) = 8%nat /\ (fst (shape out) <= fst (shape df))%nat /\
   Forall (fun r => List.length r = 8%nat) (rows out)).
Proof.
  split; intros H;
    [apply full_grouped_relevant_Ok in H | apply worldometer_relevant_Ok in H];
    subst out; unfold shape; simpl; rewrite length_map;
    (split; [reflexivity|]; split; [apply filter_length_le|]);
    apply Forall_forall; intros r Hr; apply in_map_iff in Hr as (r0 & <- & _);
    reflexivity.
Qed.

End SnapshotCleaning.

Section RequiredColumns.

Context {F : Type} (L : library F) (reader : string -> result (frame F)).

Lemma check_labels_all (cols labels : list string) (u : unit) (c : string) :
  check_labels cols labels = Ok u -> In c labels -> has_column cols c = true.
Proof.
  unfold check_labels; intros H Hin.
  destruct (find (fun c => negb (has_column cols c)) labels) eqn:Hfind; [discriminate|].
  apply (find_none _ _ Hfind) in Hin; apply negb_false_iff in Hin; exact Hin.
Qed.

Lemma mapM_series_columns (df : frame F) (labels : list string)
    (ss : list (list (cell F))) (c : string) :
  mapM (series df) labels = Ok ss -> In c labels -> has_column (columns df) c = true.
Proof.
  revert ss; induction labels as [|l labels IH]; simpl; intros ss H Hin; [contradiction|].
  apply bind_Ok_inv in H as (s & Hs & H).
  apply bind_Ok_inv in H as (ss' & Hss & _).
  destruct Hin as [<-|Hin]; [|exact (IH ss' Hss Hin)].
  unfold series in Hs; destruct (has_column (columns df) l); [reflexivity | discriminate].
Qed.


End RequiredColumns.

(** * The further properties on the example tables *)


Lemma successful_run_writes_four_files_witness :
  notebook exact_library (read_csv_text exact_library) (example_files example_day_wise)
  = (Ok tt,
     snd (notebook exact_library (read_csv_text exact_library)
            (example_files example_day_wise))) /\
  exists latest : frame Q,
    snd (notebook exact_library (read_csv_text exact_library)
           (example_files example_day_wise)) "latest_covid_data.csv"
    = Some (Readable (to_csv exact_library latest)) /\
    snd (notebook exact_library (read_csv_text exact_library)
           (example_files example_day_wise)) "attached_assets/day_wise.csv"
    = example_files example_day_wise "attached_assets/day_wise.csv".
Proof.
  assert (Hrun :
    notebook exact_library (read_csv_text exact_library) (example_files example_day_wise)
    = (Ok tt,
       snd (notebook exact_library (read_csv_text exact_library)
              (example_files example_day_wise)))) by (vm_compute; reflexivity).
  split; [exact Hrun|].
  destruct (successful_run_writes_four_files exact_library
              (read_csv_text exact_library) _ _ Hrun)
    as (input & daily & country & snapshot & ld & latest & _ & _ & _ & _ & _ & _
        & _ & _ & _ & Hlatest & Hother).
  exists latest; split; [exact Hlatest|].
  apply Hother; simpl; intros [H|[H|[H|[H|[]]]]]; discriminate.
Defined.

Lemma load_reports_first_missing_file_witness :
  input_paths
  = ["attached_assets/day_wise.csv"; "attached_assets/full_grouped.csv";
     "attached_assets/usa_county_wise.csv"]
    ++ "attached_assets/worldometer_data.csv" :: [] /\
  example_files_incomplete "attached_assets/worldometer_data.csv" = None /\
  load (read_csv_text exact_library) example_files_incomplete
  = (Raise (FileNotFoundError "attached_assets/worldometer_data.csv"),
     example_files_incomplete).
Proof.
  split; [reflexivity|]; split; [reflexivity|].
  apply (load_reports_first_missing_file (read_csv_text exact_library)
           example_files_incomplete
           ["attached_assets/day_wise.csv"; "attached_assets/full_grouped.csv";
            "attached_assets/usa_county_wise.csv"] []
           "attached_assets/worldometer_data.csv" eq_refl);
    [|reflexivity].
  intros q [<-|[<-|[<-|[]]]]; eexists; vm_compute; reflexivity.
Defined.



Lemma convert_date_column_idempotent_witness :
  convert_date_column exact_library example_full_grouped = Ok example_dated /\
  convert_date_column exact_library example_dated = Ok example_dated.
Proof.
  assert (H : convert_date_column exact_library example_full_grouped = Ok example_dated)
    by reflexivity.
  split; [exact H|].
  exact (convert_date_column_idempotent exact_library _ _ H).
Defined.

Lemma cleaning_again_witness :
  full_grouped_relevant exact_library example_dated = Ok example_cleaned /\
  full_grouped_relevant exact_library example_cleaned = Ok example_cleaned /\
  worldometer_relevant exact_library example_worldometer
  = Ok example_worldometer_cleaned /\
  worldometer_relevant exact_library example_worldometer_cleaned
  = Raise (KeyError "TotalCases").
Proof.
  assert (H1 : full_grouped_relevant exact_library example_dated = Ok example_cleaned)
    by reflexivity.
  assert (H2 : worldometer_relevant exact_library example_worldometer
               = Ok example_worldometer_cleaned) by reflexivity.
  split; [exact H1|]; split;
    [exact (proj1 (cleaning_again exact_library _ _) H1)|].
  split; [exact H2 | exact (proj2 (cleaning_again exact_library _ _) H2)].
Defined.

Lemma latest_data_again_witness :
  latest_data example_cleaned = Ok example_latest /\
  latest_data example_latest = Ok example_latest /\
  rows example_latest <> [].
Proof.
  assert (H : latest_data example_cleaned = Ok example_latest) by reflexivity.
  split; [exact H|].
  destruct (latest_data_again _ _ H) as (Hagain & Hrows).
  split; [exact Hagain|].
  apply Hrows; eexists; exists 18283; split; [left; reflexivity | reflexivity].
Defined.

Lemma cleaned_confirmed_never_missing_witness :
  full_grouped_relevant exact_library example_dated = Ok example_cleaned /\
  In ("Confirmed", 0%nat) (isnull_sum example_cleaned) /\
  forall n : nat, In ("Confirmed", n) (isnull_sum example_cleaned) -> n = 0%nat.
Proof.
  assert (H : full_grouped_relevant exact_library example_dated = Ok example_cleaned)
    by reflexivity.
  split; [exact H|]; split; [right; right; left; reflexivity|].
  intros n; exact (cleaned_confirmed_never_missing exact_library _ _ n (or_introl H)).
Defined.

Lemma rankings_are_bounded_selections_witness :
  sort_contract exact_library /\
  (exists out : frame Q,
      top_countries exact_library example_latest_rated = Ok out /\
      List.length (rows out) = 3%nat) /\
  (exists out : frame Q,
      mortality_data exact_library example_latest_rated = Ok out /\
      rows out = []) /\
  (exists out : frame Q,
      highest_cases exact_library tied_ranking
      = Raise (KeyError "Deaths") /\
      top_countries exact_library tied_ranking = Ok out /\
      List.length (rows out) = 15%nat).
Proof.
  destruct (rankings_are_bounded_selections exact_library exact_library_contract)
    as (Htop & _ & Hmort & _ & _).
  split; [exact exact_library_contract|]; split; [|split].
  - destruct (top_countries exact_library example_latest_rated) as [out|e] eqn:Hout;
      [|vm_compute in Hout; discriminate].
    exists out; split; [reflexivity | exact (proj1 (Htop _ _ Hout))].
  - destruct (mortality_data exact_library example_latest_rated) as [out|e] eqn:Hout;
      [|vm_compute in Hout; discriminate].
    exists out; split; [reflexivity|].
    pose proof (proj1 (Hmort _ _ Hout)) as Hlen.
    destruct (rows out); [reflexivity | discriminate Hlen].
  - destruct (top_countries exact_library tied_ranking) as [out|e] eqn:Hout;
      [|vm_compute in Hout; discriminate].
    exists out; split; [reflexivity|]; split; [reflexivity|].
    exact (proj1 (Htop _ _ Hout)).
Defined.

Lemma rankings_hold_the_largest_witness :
  sort_contract exact_library /\
  Forall (fun r => exists z, cell_or_nan (columns (@scenario_ranking Q)) r "Confirmed"
                             = CInt z) (rows (@scenario_ranking Q)) /\
  exists (out : frame Q) (rest : list (row Q)),
    top_countries exact_library scenario_ranking = Ok out /\
    Permutation (rows out ++ rest) (rows (@scenario_ranking Q)) /\
    forall a b, In a (rows out) -> In b rest ->
      int_value (cell_or_nan (columns (@scenario_ranking Q)) b "Confirmed")
      <= int_value (cell_or_nan (columns (@scenario_ranking Q)) a "Confirmed").
Proof.
  assert (Hint : Forall (fun r => exists z,
                           cell_or_nan (columns (@scenario_ranking Q)) r "Confirmed"
                           = CInt z) (rows (@scenario_ranking Q))).
  { repeat constructor; eexists; reflexivity. }
  split; [exact exact_library_contract|]; split; [exact Hint|].
  destruct (top_countries exact_library scenario_ranking) as [out|e] eqn:Hout;
    [|vm_compute in Hout; discriminate].
  destruct (proj1 (rankings_hold_the_largest exact_library scenario_ranking
                     exact_library_contract) out Hout Hint) as (rest & Hperm & Hle).
  exists out, rest; auto.
Defined.






Lemma second_run_changes_nothing_witness :
  notebook exact_library (read_csv_text exact_library) (example_files example_day_wise)
  = (Ok tt,
     snd (notebook exact_library (read_csv_text exact_library)
            (example_files example_day_wise))) /\
  exists fs'' : filesystem,
    notebook exact_library (read_csv_text exact_library)
      (snd (notebook exact_library (read_csv_text exact_library)
              (example_files example_day_wise)))
    = (Ok tt, fs'') /\
    fs'' "processed_worldometer.csv"
    = snd (notebook exact_library (read_csv_text exact_library)
             (example_files example_day_wise)) "processed_worldometer.csv".
Proof.
  assert (Hrun :
    notebook exact_library (read_csv_text exact_library) (example_files example_day_wise)
    = (Ok tt,
       snd (notebook exact_library (read_csv_text exact_library)
              (example_files example_day_wise)))) by (vm_compute; reflexivity).
  split; [exact Hrun|].
  destruct (second_run_changes_nothing exact_library (read_csv_text exact_library)
              _ _ Hrun) as (fs'' & Hagain & Hsame).
  exists fs''; split; [exact Hagain | apply Hsame].
Defined.

Lemma to_csv_injective_witness :
  to_csv exact_library (mkFrame ["Country/Region"; "Confirmed"] [[CStr "US"; CInt 20]])
  = to_csv exact_library (mkFrame ["Country/Region"; "Confirmed"] [[CStr "US"; CStr "20"]]) /\
  map (map (format_cell exact_library)) [[CStr "US"; CInt 20]]
  = map (map (format_cell exact_library)) [[CStr "US"; CStr "20"]].
Proof.
  assert (H : to_csv exact_library
                (mkFrame ["Country/Region"; "Confirmed"] [[CStr "US"; CInt 20]])
              = to_csv exact_library
                  (mkFrame ["Country/Region"; "Confirmed"] [[CStr "US"; CStr "20"]]))
    by reflexivity.
  split; [exact H|].
  apply (to_csv_injective exact_library
           (mkFrame ["Country/Region"; "Confirmed"] [[CStr "US"; CInt 20]])
           (mkFrame ["Country/Region"; "Confirmed"] [[CStr "US"; CStr "20"]]));
    simpl; try lia; try exact H; repeat constructor.
Defined.

Lemma with_mortality_rate_again_witness :
  with_mortality_rate exact_library example_latest = Ok example_latest_rated /\
  columns example_latest_rated
  = columns example_latest ++ ["Mortality Rate (%)"] /\
  with_mortality_rate exact_library example_latest_rated = Ok example_latest_rated.
Proof.
  assert (H : with_mortality_rate exact_library example_latest
              = Ok example_latest_rated) by reflexivity.
  split; [exact H|].
  destruct (with_mortality_rate_again exact_library example_latest
              example_latest_rated eq_refl) as (Hcols & _ & Hagain);
    [repeat constructor | exact H | auto].
Defined.


Lemma cleaned_shapes_witness :
  full_grouped_relevant exact_library example_dated = Ok example_cleaned /\
  shape example_cleaned = (4%nat, 7%nat) /\
  (fst (shape example_cleaned) <= fst (shape example_dated))%nat /\
  worldometer_relevant exact_library example_worldometer
  = Ok example_worldometer_cleaned /\
  snd (shape example_worldometer_cleaned) = 8%nat.
Proof.
  assert (H1 : full_grouped_relevant exact_library example_dated = Ok example_cleaned)
    by reflexivity.
  assert (H2 : worldometer_relevant exact_library example_worldometer
               = Ok example_worldometer_cleaned) by reflexivity.
  split; [exact H1|]; split; [reflexivity|].
  split; [exact (proj1 (proj2 (proj1 (cleaned_shapes exact_library _ _) H1)))|].
  split; [exact H2 | exact (proj1 (proj2 (cleaned_shapes exact_library _ _) H2))].
Defined.

